(** * fcr/dataset/dataset_para.py: the perturbation dataset model

    A shallow embedding of [Dataset] and [SubDataset] (the "DatasetView" of
    the specification) together with the properties the specification states
    about them.

    Conventions.
    - Python exceptions are values of [exn]; a computation that may raise
      returns [res A].
    - [np.random.choice] reads its outcomes from a tape of raw draws; a run
      that asks for a draw when the tape is used up is [Starved], i.e. it is
      still running after every draw of the tape has been consumed.
    - Floating-point arithmetic is kept abstract behind [FloatOps]; no
      algebraic law is assumed about it.
    - [var_names] and [de_genes] are opaque payload handed over by reference
      and are left out; so is the marker-gene ranking that fills them. *)

From stdpp Require Import gmap strings list fin_maps sets sorting.
From Stdlib Require Import ZArith Ascii.
From Stdlib Require String OrderedTypeEx.

Local Open Scope string_scope.
Local Open Scope list_scope.
Local Open Scope nat_scope.

(** ** Exceptions and the error monad *)

Inductive exn :=
  | AssertionError (msg : string)
  | KeyError
  | IndexError
  | ValueError
  | AttributeError
  | TypeError
  | NameError
  | RuntimeError.

Inductive res (A : Type) :=
  | Ok (a : A)
  | Raise (e : exn).
Arguments Ok {A} a.
Arguments Raise {A} e.

#[global] Instance res_ret : MRet res := λ A a, Ok a.
#[global] Instance res_bind : MBind res := λ A B k m,
  match m with
  | Ok a => k a
  | Raise e => Raise e
  end.

#[global] Instance res_fmap : FMap res := λ A B f m,
  match m with
  | Ok a => Ok (f a)
  | Raise e => Raise e
  end.

Definition is_ok {A} (m : res A) : Prop := ∃ a, m = Ok a.
Definition is_okb {A} (m : res A) : bool :=
  match m with
  | Ok _ => true
  | Raise _ => false
  end.
Definition fails {A} (m : res A) : Prop := ∃ e, m = Raise e.

Fixpoint rmapM {A B} (f : A → res B) (l : list A) : res (list B) :=
  match l with
  | [] => Ok []
  | x :: l' => y ← f x; ys ← rmapM f l'; Ok (y :: ys)
  end.

(** [a[i]] on a sequence: out of range raises. *)
Definition getitem {A} (a : list A) (i : nat) : res A :=
  match a !! i with
  | Some x => Ok x
  | None => Raise IndexError
  end.

(** [a[indices]] with a list of positions (numpy / torch fancy indexing). *)
Definition take_rows {A} (a : list A) (indices : list nat) : res (list A) :=
  rmapM (getitem a) indices.

(** [[f(i, x) for i, x in enumerate(l)]], counting from [i]. *)
Fixpoint for_enumerate {A B} (f : nat → A → res B) (i : nat) (l : list A)
  : res (list B) :=
  match l with
  | [] => Ok []
  | x :: l' => y ← f i x; ys ← for_enumerate f (S i) l'; Ok (y :: ys)
  end.

(** [torch.stack(l)] as far as the rows of the result go: it refuses the
    empty list. *)
Definition torch_stack {A} (l : list A) : res (list A) :=
  match l with
  | [] => Raise RuntimeError
  | _ :: _ => Ok l
  end.

(** [m[k]] on a dict: a missing key raises. *)
Definition lookup_key {V} (m : gmap string V) (k : string) : res V :=
  match m !! k with
  | Some v => Ok v
  | None => Raise KeyError
  end.

(** ** Strings *)

(** [s.split("+")] for a one-character separator. *)
Fixpoint split_on (sep : ascii) (s : string) : list string :=
  match s with
  | EmptyString => [EmptyString]
  | String c s' =>
      if Ascii.eqb c sep then EmptyString :: split_on sep s'
      else match split_on sep s' with
           | [] => [String c EmptyString]
           | p :: ps => String c p :: ps
           end
  end.

Definition split_plus (s : string) : list string := split_on "+"%char s.

(** [s.startswith(c)]. *)
Fixpoint is_prefix (c s : string) : bool :=
  match c, s with
  | EmptyString, _ => true
  | String a c', String b s' => Ascii.eqb a b && is_prefix c' s'
  | String _ _, EmptyString => false
  end.

(** [c in s] on strings: [c] occurs in [s] as a contiguous substring, that
    is, some suffix of [s] starts with [c]. *)
Fixpoint contains (c s : string) : bool :=
  is_prefix c s ||
  match s with
  | EmptyString => false
  | String _ s' => contains c s'
  end.

(** [a[mask]] with a boolean mask: the entries whose flag is set. *)
Definition select_rows {A} (mask : list bool) (a : list A) : list A :=
  (filter (λ p, p.1 = true) (zip mask a)).*2.

(** [str(z)] on an integer: its decimal digits, with a sign when negative.
    The digits are produced last first; the binary size of the number bounds
    their count. *)
Definition digit_char (d : N) : ascii := ascii_of_N (48 + d).

Fixpoint show_N_fuel (fuel : nat) (n : N) (acc : string) : string :=
  match fuel with
  | 0 => acc
  | S fuel' =>
      let acc' := String (digit_char (n mod 10)) acc in
      if (n / 10 =? 0)%N then acc' else show_N_fuel fuel' (n / 10)%N acc'
  end.

Definition show_N (n : N) : string := show_N_fuel (S (N.size_nat n)) n "".

Definition show_Z (z : Z) : string :=
  match z with
  | Z0 => "0"
  | Zpos p => show_N (Npos p)
  | Zneg p => "-" +:+ show_N (Npos p)
  end.

(** [np.unique] on a string array: the sorted distinct values. *)
Fixpoint insert_sorted (x : string) (l : list string) : list string :=
  match l with
  | [] => [x]
  | y :: l' =>
      match String.compare x y with
      | Lt => x :: y :: l'
      | Eq => y :: l'
      | Gt => y :: insert_sorted x l'
      end
  end.

Definition np_unique (l : list string) : list string :=
  foldr insert_sorted [] l.

(** [list(dict.fromkeys(l))]: a key is appended unless it is already there. *)
Definition fromkeys_step (acc : list string) (x : string) : list string :=
  if decide (x ∈ acc) then acc else acc ++ [x].

Definition dict_fromkeys (l : list string) : list string :=
  foldl fromkeys_step [] l.

(** [dict(zip(keys, values))]: later pairs overwrite earlier ones. *)
Definition dict_zip {V} (keys : list string) (values : list V) : gmap string V :=
  foldl (λ m kv, <[kv.1 := kv.2]> m) ∅ (zip keys values).

(** [np.where(mask)[0].tolist()]: the positions holding [True], ascending. *)
Fixpoint where_from (start : nat) (mask : list bool) : list nat :=
  match mask with
  | [] => []
  | b :: mask' =>
      if b then start :: where_from (S start) mask'
      else where_from (S start) mask'
  end.

Definition np_where (mask : list bool) : list nat := where_from 0 mask.

(** The row positions holding the string [k]. *)
Definition positions_of (k : string) (records : list string) : list nat :=
  np_where ((λ s, bool_decide (s = k)) <$> records).

(** Modelled from the spec: [unique_ind] of [utils/general_utils.py], which is
    not part of this module. The grouping index maps each distinct string of
    the array to the list of row positions sharing it. *)
Definition unique_ind (records : list string) : gmap string (list nat) :=
  foldr (λ k m, <[k := positions_of k records]> m) ∅ records.

(** ** Random draws

    A computation that draws random numbers reads them from a tape. Each
    entry of the tape is a raw draw, reduced to the requested range. *)

Definition tape := list nat.

Inductive outcome (A : Type) :=
  | Done (a : A) (rest : tape)
  | Threw (e : exn)
  | Starved.
Arguments Done {A} a rest.
Arguments Threw {A} e.
Arguments Starved {A}.

Definition rand (A : Type) : Type := tape → outcome A.

#[global] Instance rand_ret : MRet rand := λ A a t, Done a t.
#[global] Instance rand_bind : MBind rand := λ A B k m t,
  match m t with
  | Done a t' => k a t'
  | Threw e => Threw e
  | Starved => Starved
  end.

Definition lift {A} (m : res A) : rand A := λ t,
  match m with
  | Ok a => Done a t
  | Raise e => Threw e
  end.

(** [np.random.choice(n)]: a position below [n]; [n = 0] raises. *)
Definition choice (n : nat) : rand nat := λ t,
  match n with
  | 0 => Threw ValueError
  | S _ =>
      match t with
      | [] => Starved
      | r :: t' => Done (r mod n) t'
      end
  end.

(** [np.random.choice(a, size)] with the default [replace=True]: [size]
    independent draws from [a]. Nothing is drawn when [size] is [0]. *)
Fixpoint choice_many (a : list nat) (size : nat) : rand (list nat) :=
  match size with
  | 0 => mret []
  | S size' =>
      j ← choice (length a);
      x ← lift (getitem a j);
      xs ← choice_many a size';
      mret (x :: xs)
  end.

(** ** Floating point

    The operations the module uses on Python floats and on tensor entries.
    [float_of_str] is [float(s)] ([None] stands for its [ValueError]),
    [str_of_float] is [str(x)] and [float_eqb] is the IEEE comparison [==]. *)

Class FloatOps := {
  float : Type;
  fzero : float;
  fone : float;
  fadd : float → float → float;
  fmul : float → float → float;
  float_of_str : string → option float;
  str_of_float : float → string;
  float_eqb : float → float → bool;
}.

Section dataset.
Context `{F : FloatOps}.

(** The external splitter [sklearn.model_selection.train_test_split], applied
    to the [n] row labels: the rows it puts into the train and the test part. *)
Variable train_test_split : nat → float → Z → list nat * list nat.

(** ** Tensors *)

Definition tensor := list float.

(** Row [i] of [torch.eye(n)]. *)
Definition one_hot (n i : nat) : tensor :=
  (λ j, if decide (i = j) then fone else fzero) <$> seq 0 n.

Definition eye (n : nat) : list tensor := (λ i, one_hot n i) <$> seq 0 n.

(** [d * t] for a Python float [d] and a tensor [t]. *)
Definition scale (d : float) (t : tensor) : tensor := fmul d <$> t.

(** [t + u] on tensors of one shape. *)
Definition tadd (t u : tensor) : tensor := zip_with fadd t u.

(** The builtin [sum] on a list of tensors: [0 + x1 + x2 + ...], where the
    integer [0] is broadcast over [x1]. On the empty list the result is the
    integer [0], which [torch.stack] refuses. *)
Definition py_sum (xs : list tensor) : res tensor :=
  match xs with
  | [] => Raise TypeError
  | x :: xs' => Ok (foldl tadd (fadd fzero <$> x) xs')
  end.

(** ** The source table *)

(** A value held in a column of [data.obs]. *)
Inductive cell :=
  | VStr (s : string)
  | VInt (z : Z)
  | VBool (b : bool)
  | VFloat (x : float).

(** [str(v)], also what an f-string writes for [v]. *)
Definition py_str (v : cell) : string :=
  match v with
  | VStr s => s
  | VInt z => show_Z z
  | VBool b => if b then "True" else "False"
  | VFloat x => str_of_float x
  end.

(** [v == 1] and [v != 1], entry by entry, as the column comparison does. *)
Definition eq_one (v : cell) : bool :=
  match v with
  | VStr _ => false
  | VInt z => (z =? 1)%Z
  | VBool b => b
  | VFloat x => float_eqb x fone
  end.

Definition ne_one (v : cell) : bool :=
  match v with
  | VStr _ => true
  | VInt z => negb (z =? 1)%Z
  | VBool b => negb b
  | VFloat x => negb (float_eqb x fone)
  end.

(** [v == s] for a string literal [s]. *)
Definition eq_str (s : string) (v : cell) : bool :=
  match v with
  | VStr s' => bool_decide (s' = s)
  | _ => false
  end.

(** [astype(bool)] on one entry. *)
Definition truthy (v : cell) : bool :=
  match v with
  | VStr s => negb (bool_decide (s = ""))
  | VInt z => negb (z =? 0)%Z
  | VBool b => b
  | VFloat x => negb (float_eqb x fzero)
  end.

(** A string method or [str.join] applied to an entry: only strings have it. *)
Definition as_str (e : exn) (v : cell) : res string :=
  match v with
  | VStr s => Ok s
  | _ => Raise e
  end.

(** An entry of [data.uns["fields"]]: one column name, or a list of them. *)
Inductive field :=
  | FName (s : string)
  | FNames (l : list string).

(** The annotated table: [obs] holds the columns of [data.obs], each of
    [n_obs] entries; [X] is the dense response matrix of [n_obs] rows and
    [n_vars] columns. *)
Record AnnData := {
  obs : gmap string (list cell);
  n_obs : nat;
  uns_fields : gmap string field;
  X : list tensor;
  n_vars : nat;
}.

Definition wf_data (d : AnnData) : Prop :=
  (∀ k col, obs d !! k = Some col → length col = n_obs d) ∧
  length (X d) = n_obs d.

#[local] Instance wf_data_dec (d : AnnData) : Decision (wf_data d).
Proof.
  unfold wf_data. apply and_dec; [|apply _].
  eapply map_Forall_dec.
  Unshelve. intros ? col. cbn. apply (decide (length col = n_obs d)).
Defined.

(** [data.obs[k] = v] with a scalar [v], and with a whole column. *)
Definition set_obs (d : AnnData) (k : string) (col : list cell) : AnnData :=
  {| obs := <[k := col]> (obs d); n_obs := n_obs d;
     uns_fields := uns_fields d; X := X d; n_vars := n_vars d |}.

Definition set_obs_const (d : AnnData) (k : string) (v : cell) : AnnData :=
  set_obs d k (replicate (n_obs d) v).

(** [data.obs[k]]. *)
Definition get_obs (d : AnnData) (k : string) : res (list cell) :=
  match obs d !! k with
  | Some col => Ok col
  | None => Raise KeyError
  end.

(** [key in data.uns["fields"]] followed by [data.uns["fields"][key]], for a
    key that is a string or [None]. *)
Definition registered (d : AnnData) (key : option string) : option field :=
  k ← key; uns_fields d !! k.

(** [key in data.obs.columns]. *)
Definition has_column (d : AnnData) (key : option string) : bool :=
  match key with
  | Some k => bool_decide (is_Some (obs d !! k))
  | None => false
  end.

(** A registered entry used as the name of one column. A list-valued entry
    selects a frame of several columns instead. What the source then does
    differs from key to key (for the split key it goes on, and reads its
    index lists off the cells of the frame); the model follows single names
    only and stops at a list with an error of its own. The statements on
    the split lists and on the loaders exclude a list-valued split entry in
    a hypothesis. *)
Definition column_name (f : field) : res string :=
  match f with
  | FName s => Ok s
  | FNames _ => Raise TypeError
  end.

Definition show_key (key : option string) : string :=
  match key with
  | Some k => k
  | None => "None"
  end.

(** ** Field resolution (lines 41-88 of [Dataset.__init__]) *)

Definition missing (role : string) (key : option string) : exn :=
  AssertionError (role +:+ " " +:+ show_key key +:+ " is missing in the provided adata").

(** Perturbation and control: registered, or else a physical column. *)
Definition resolve_required (role : string) (d : AnnData) (key : option string)
  : res string :=
  match registered d key with
  | Some f => column_name f
  | None =>
      match key with
      | Some k => if has_column d key then Ok k else Raise (missing role key)
      | None => Raise (missing role key)
      end
  end.

Definition resolve_perturbation := resolve_required "Perturbation".
Definition resolve_control := resolve_required "Control".

(** Dose: registered, or else [None] (a dummy column is added), or else a
    physical column. *)
Definition resolve_dose (d : AnnData) (dose_key : option string)
  : res (AnnData * string) :=
  match registered d dose_key with
  | Some f => k ← column_name f; Ok (d, k)
  | None =>
      match dose_key with
      | None => Ok (set_obs_const d "dummy_dose" (VFloat fone), "dummy_dose")
      | Some k =>
          if has_column d dose_key then Ok (d, k)
          else Raise (missing "Dose" dose_key)
      end
  end.

(** The [covariate_keys] argument: [None], one name, or a list of names. *)
Inductive cov_arg :=
  | CovNone
  | CovStr (s : string)
  | CovList (l : list string).

(** [list(f)] on a registered entry; a string falls apart into characters. *)
Definition py_list (f : field) : list string :=
  match f with
  | FNames l => l
  | FName s => (λ c, String c EmptyString) <$> String.list_ascii_of_string s
  end.

Definition cov_registered (d : AnnData) (arg : cov_arg) : option field :=
  match arg with
  | CovStr s => uns_fields d !! s
  | _ => None
  end.

(** [covariate_keys is None or len(covariate_keys) == 0]. *)
Definition cov_absent (arg : cov_arg) : bool :=
  match arg with
  | CovNone => true
  | CovStr s => bool_decide (s = "")
  | CovList l => bool_decide (l = [])
  end.

Definition cov_as_list (arg : cov_arg) : list string :=
  match arg with
  | CovNone => []
  | CovStr s => [s]
  | CovList l => l
  end.

Fixpoint assert_columns (d : AnnData) (keys : list string) : res unit :=
  match keys with
  | [] => Ok tt
  | k :: keys' =>
      if has_column d (Some k) then assert_columns d keys'
      else Raise (missing "Covariate" (Some k))
  end.

Definition resolve_covariates (d : AnnData) (arg : cov_arg)
  : res (AnnData * list string) :=
  match cov_registered d arg with
  | Some f => Ok (d, py_list f)
  | None =>
      if cov_absent arg then
        Ok (set_obs_const d "dummy_covar" (VStr "dummy-covar"), ["dummy_covar"])
      else
        let keys := cov_as_list arg in
        _ ← assert_columns d keys; Ok (d, keys)
  end.

(** [col.loc[idx] = v]: the listed rows are overwritten. The labels the
    splitter returns are row labels of the table. *)
Definition assign_rows (col : list cell) (idx : list nat) (v : cell) : list cell :=
  foldl (λ c i, <[i := v]> c) col idx.

(** Split: registered, or else [None] (an automatic train/test split is
    written into the column ["split"]), or else a physical column. *)
Definition resolve_split (d : AnnData) (split_key : option string)
    (test_ratio : float) (random_state : Z) : res (AnnData * string) :=
  match registered d split_key with
  | Some f => k ← column_name f; Ok (d, k)
  | None =>
      match split_key with
      | None =>
          let col := replicate (n_obs d) (VStr "train") in
          let '(idx_train, idx_test) :=
            train_test_split (n_obs d) test_ratio random_state in
          let col := assign_rows col idx_train (VStr "train") in
          let col := assign_rows col idx_test (VStr "test") in
          Ok (set_obs d "split" col, "split")
      | Some k =>
          if has_column d split_key then Ok (d, k)
          else Raise (missing "Split" split_key)
      end
  end.

(** ** The dataset and its views *)

(** What [Dataset] and [SubDataset] have in common; [SubDataset.__init__]
    reads exactly these attributes from either. A covariate index, a
    one-entry tensor in the source, is a number here. *)
Record Attrs := {
  sample_cf : bool;
  cf_samples : nat;
  perturbation_key : string;
  control_key : string;
  dose_key : string;
  covariate_keys : list string;
  control_names : list string;
  perts_dict : gmap string tensor;
  covars_dict : gmap string (gmap string nat);
  genes : list tensor;
  perturbations : list tensor;
  controls : list bool;
  covariates : list (list nat);
  pert_names : list string;
  doses : list cell;
  cov_names : list string;
  cov_pert : list string;
  pert_dose : list string;
  cov_pert_dose : list string;
  num_covariates : list nat;
  num_outcomes : nat;
  num_treatments : nat;
}.

Record Dataset := {
  ds_attrs :> Attrs;
  indices : gmap string (list nat);
}.

(** The grouping index exists only on a view built with [sample_cf]. *)
Record SubDataset := {
  sd_attrs :> Attrs;
  cov_pert_dose_idx : option (gmap string (list nat));
}.

(** ** Perturbation vocabulary and encoding (lines 118-137, 198-202) *)

Definition get_unique_perts (all_perts : list string) : list string :=
  dict_fromkeys (all_perts ≫= split_plus).

Definition make_perts_dict (pert_unique : list string) : gmap string tensor :=
  dict_zip pert_unique (eye (length pert_unique)).

(** [float(d)]. *)
Definition parse_float (d : string) : res float :=
  match float_of_str d with
  | Some x => Ok x
  | None => Raise ValueError
  end.

(** The body of the inner loop: [float(d) * perturbation_combos[j]]. *)
Definition weigh (perturbation_combos : list tensor) (j : nat) (d : string)
  : res tensor :=
  x ← parse_float d; t ← getitem perturbation_combos j; Ok (scale x t).

(** The body of the outer loop, for the sample with perturbation string
    [comb] and dose entry [dose]. *)
Definition encode_sample (dict : gmap string tensor) (comb : string) (dose : cell)
  : res tensor :=
  perturbation_combos ← rmapM (lookup_key dict) (split_plus comb);
  let dose_combos := split_plus (py_str dose) in
  perturbation_ohe ← for_enumerate (weigh perturbation_combos) 0 dose_combos;
  py_sum perturbation_ohe.

Definition encode_all (dict : gmap string tensor) (names : list string)
    (dose_values : list cell) : res (list tensor) :=
  for_enumerate
    (λ i comb, dose ← getitem dose_values i; encode_sample dict comb dose)
    0 names.

(** ** Covariates and composite keys (lines 141-186) *)

(** [zip] over the unpacked column list: its rows, as many as the shortest
    column has. *)
Fixpoint zip_star (cols : list (list string)) : list (list string) :=
  match cols with
  | [] => []
  | [c] => (λ x, [x]) <$> c
  | c :: cs => zip_with cons c (zip_star cs)
  end.

Definition join (sep : string) (parts : list string) : string :=
  String.concat sep parts.

Record CovEncoding := {
  ce_values : list string;
  ce_dict : gmap string nat;
  ce_index : list nat;
  ce_count : nat;
}.

Definition encode_covariate (d : AnnData) (cov : string) : res CovEncoding :=
  col ← get_obs d cov;
  values ← rmapM (as_str TypeError) col;
  let names := np_unique values in
  let dict := dict_zip names (seq 0 (length names)) in
  index ← rmapM (lookup_key dict) values;
  index ← torch_stack index;
  Ok {| ce_values := values; ce_dict := dict; ce_index := index;
        ce_count := length names |}.

(** [f"{a}_{b}"] for every row position below [n]. *)
Definition key_rows (n : nat) (left right : nat → res string) : res (list string) :=
  rmapM (λ i, a ← left i; b ← right i; Ok (a +:+ "_" +:+ b)) (seq 0 n).

(** ** [Dataset.__init__] *)

(** The resolved physical column names. *)
Record Keys := {
  k_perturbation : string;
  k_control : string;
  k_dose : string;
  k_covariates : list string;
  k_split : string;
}.

(** Lines 41-88: field resolution, which may add columns to the table. *)
Definition resolve_fields (data : AnnData)
    (perturbation_key control_key dose_key : option string)
    (covariate_keys : cov_arg) (split_key : option string)
    (test_ratio : float) (random_state : Z) : res (AnnData * Keys) :=
  perturbation_key ← resolve_perturbation data perturbation_key;
  control_key ← resolve_control data control_key;
  '(data, dose_key) ← resolve_dose data dose_key;
  '(data, covariate_keys) ← resolve_covariates data covariate_keys;
  '(data, split_key) ← resolve_split data split_key test_ratio random_state;
  Ok (data, {| k_perturbation := perturbation_key; k_control := control_key;
               k_dose := dose_key; k_covariates := covariate_keys;
               k_split := split_key |}).

(** Lines 90-186: the encoded model over the resolved table. *)
Definition Dataset_build (data : AnnData) (keys : Keys)
    (sample_cf : bool) (cf_samples : nat) : res Dataset :=
  let perturbation_key := k_perturbation keys in
  let control_key := k_control keys in
  let dose_key := k_dose keys in
  let covariate_keys := k_covariates keys in
  let split_key := k_split keys in
  (* index catalog *)
  control_col ← get_obs data control_key;
  split_col ← get_obs data split_key;
  let indices : gmap string (list nat) :=
    <["ood" := np_where (eq_str "ood" <$> split_col)]>
    (<["test" := np_where (eq_str "test" <$> split_col)]>
    (<["train" := np_where (eq_str "train" <$> split_col)]>
    (<["treated" := np_where (ne_one <$> control_col)]>
    (<["control" := np_where (eq_one <$> control_col)]>
    (<["all" := seq 0 (n_obs data)]> ∅))))) in
  (* perturbation names; a non-string entry has no [split] *)
  pert_col ← get_obs data perturbation_key;
  dose_values ← get_obs data dose_key;
  pert_names ← rmapM (as_str AttributeError) pert_col;
  let control_names := np_unique (select_rows (eq_one <$> control_col) pert_names) in
  let genes := X data in
  (* vocabulary and encoding *)
  let pert_unique := get_unique_perts pert_names in
  let perts_dict := make_perts_dict pert_unique in
  perturbations ← encode_all perts_dict pert_names dose_values;
  perturbations ← torch_stack perturbations;
  let controls := truthy <$> control_col in
  (* covariates *)
  _ ← (if bool_decide (NoDup covariate_keys) then Ok tt else Raise ValueError);
  encs ← rmapM (encode_covariate data) covariate_keys;
  let covars_dict := dict_zip covariate_keys (ce_dict <$> encs) in
  let cov_names := join "_" <$> zip_star (ce_values <$> encs) in
  (* composite keys *)
  let n := n_obs data in
  let pert_at i := py_str <$> getitem pert_col i in
  let dose_at i := py_str <$> getitem dose_values i in
  cov_pert ← key_rows n (getitem cov_names) pert_at;
  pert_dose ← key_rows n pert_at dose_at;
  cov_pert_dose ← key_rows n (getitem cov_names) (getitem pert_dose);
  Ok {| ds_attrs := {|
          sample_cf := sample_cf;
          cf_samples := cf_samples;
          perturbation_key := perturbation_key;
          control_key := control_key;
          dose_key := dose_key;
          covariate_keys := covariate_keys;
          control_names := control_names;
          perts_dict := perts_dict;
          covars_dict := covars_dict;
          genes := genes;
          perturbations := perturbations;
          controls := controls;
          covariates := ce_index <$> encs;
          pert_names := pert_names;
          doses := dose_values;
          cov_names := cov_names;
          cov_pert := cov_pert;
          pert_dose := pert_dose;
          cov_pert_dose := cov_pert_dose;
          num_covariates := ce_count <$> encs;
          num_outcomes := n_vars data;
          num_treatments := length pert_unique |};
        indices := indices |}.

Definition Dataset_init (data : AnnData)
    (perturbation_key control_key dose_key : option string)
    (covariate_keys : cov_arg) (split_key : option string)
    (test_ratio : float) (random_state : Z)
    (sample_cf : bool) (cf_samples : nat) : res Dataset :=
  '(data, keys) ← resolve_fields data perturbation_key control_key dose_key
                    covariate_keys split_key test_ratio random_state;
  Dataset_build data keys sample_cf cf_samples.

(** ** [Dataset.subset] and [SubDataset] *)

(** [SubDataset.__init__(dataset, indices)]. *)
Definition SubDataset_init (dataset : Attrs) (idx : list nat) : res SubDataset :=
  genes' ← take_rows (genes dataset) idx;
  perturbations' ← take_rows (perturbations dataset) idx;
  controls' ← take_rows (controls dataset) idx;
  covariates' ← rmapM (λ cov, take_rows cov idx) (covariates dataset);
  pert_names' ← take_rows (pert_names dataset) idx;
  doses' ← take_rows (doses dataset) idx;
  cov_names' ← take_rows (cov_names dataset) idx;
  cov_pert' ← take_rows (cov_pert dataset) idx;
  pert_dose' ← take_rows (pert_dose dataset) idx;
  cov_pert_dose' ← take_rows (cov_pert_dose dataset) idx;
  Ok {| sd_attrs := {|
          sample_cf := sample_cf dataset;
          cf_samples := cf_samples dataset;
          perturbation_key := perturbation_key dataset;
          control_key := control_key dataset;
          dose_key := dose_key dataset;
          covariate_keys := covariate_keys dataset;
          control_names := control_names dataset;
          perts_dict := perts_dict dataset;
          covars_dict := covars_dict dataset;
          genes := genes';
          perturbations := perturbations';
          controls := controls';
          covariates := covariates';
          pert_names := pert_names';
          doses := doses';
          cov_names := cov_names';
          cov_pert := cov_pert';
          pert_dose := pert_dose';
          cov_pert_dose := cov_pert_dose';
          num_covariates := num_covariates dataset;
          num_outcomes := num_outcomes dataset;
          num_treatments := num_treatments dataset |};
        cov_pert_dose_idx :=
          if sample_cf dataset then Some (unique_ind cov_pert_dose') else None |}.

(** [list(set(a) & set(b))]: the common positions. A set is enumerated in
    the order of its hash table; an integer hashes to itself, so the row
    positions of a small table come out ascending, and that is the order
    taken here. No statement on [subset] depends on the order. *)
Definition set_intersection (a b : list nat) : list nat :=
  merge_sort (≤) (elements ((list_to_set a : gset nat) ∩ list_to_set b)).

(** The local [idx] of [Dataset.subset]. *)
Definition subset_idx (self : Dataset) (split condition : string) : res (list nat) :=
  a ← lookup_key (indices self) split;
  b ← lookup_key (indices self) condition;
  Ok (set_intersection a b).

Definition subset (self : Dataset) (split condition : string) : res SubDataset :=
  idx ← subset_idx self split condition;
  SubDataset_init self idx.

(** The local [idx] of [SubDataset.subset_condition] for a Boolean [control]. *)
Definition condition_idx (self : SubDataset) (control : bool) : list nat :=
  np_where ((λ c, bool_decide (c = control)) <$> controls self).

(** [SubDataset.subset_condition]; [None] is the argument [None]. *)
Definition subset_condition (self : SubDataset) (control : option bool)
  : res SubDataset :=
  match control with
  | None => Ok self
  | Some b => SubDataset_init self (condition_idx self b)
  end.

(** [SubDataset.__len__]. *)
Definition SubDataset_len (self : SubDataset) : nat := length (genes self).

(** ** [SubDataset.__getitem__] *)

(** The loop condition: some control name occurs in the candidate's name. *)
Definition rejected (names : list string) (cf_pert_dose_name : string) : bool :=
  existsb (λ c, contains c cf_pert_dose_name) names.

(** The [while] loop of lines 264-266, from a state in which the current
    name is [name] and [cf_i] is bound to [cf_i] (or not yet bound). *)
Fixpoint rejection_loop (names pert_dose : list string) (name : string)
    (cf_i : option nat) (t : tape) : outcome (option nat * string) :=
  if rejected names name then
    match length pert_dose with
    | 0 => Threw ValueError
    | S _ =>
        match t with
        | [] => Starved
        | r :: t' =>
            let j := r mod length pert_dose in
            match pert_dose !! j with
            | Some name' => rejection_loop names pert_dose name' (Some j) t'
            | None => Threw IndexError
            end
        end
    end
  else Done (cf_i, name) t.

(** Lines 263-266: the start value [control_names[0]] and the loop. *)
Definition sample_candidate (self : SubDataset) : rand (option nat * string) :=
  name0 ← lift (getitem (control_names self) 0);
  rejection_loop (control_names self) (pert_dose self) name0 None.

(** Lines 268-275: the counterfactual responses. *)
Definition sample_cf_genes (self : SubDataset) (i : nat) (cf_pert_dose_name : string)
  : rand (option (list tensor)) :=
  if sample_cf self then
    covariate_name ← lift (getitem (cov_names self) i);
    let cf_name := covariate_name +:+ "_" +:+ cf_pert_dose_name in
    match cov_pert_dose_idx self with
    | None => lift (Raise AttributeError)
    | Some index =>
        match index !! cf_name with
        | Some cf_inds =>
            picks ← choice_many cf_inds (min (length cf_inds) (cf_samples self));
            rows ← lift (take_rows (genes self) picks);
            mret (Some rows)
        | None => mret None
        end
    end
  else mret None.

(** The returned tuple; the covariate entries come last. *)
Record Item := {
  it_genes : tensor;
  it_perturbation : tensor;
  it_cf_genes : option (list tensor);
  it_cf_perturbation : tensor;
  it_covariates : list nat;
}.

(** A name that was never bound. *)
Definition bound {A} (x : option A) : res A :=
  match x with
  | Some a => Ok a
  | None => Raise NameError
  end.

(** Lines 277-283: the returned tuple, read off the view. *)
Definition return_tuple (self : SubDataset) (i : nat)
    (cf_genes : option (list tensor)) (cf_i : option nat) : res Item :=
  g ← getitem (genes self) i;
  p ← getitem (perturbations self) i;
  cf_i ← bound cf_i;
  cf_p ← getitem (perturbations self) cf_i;
  covs ← rmapM (λ cov, getitem cov i) (covariates self);
  Ok {| it_genes := g; it_perturbation := p; it_cf_genes := cf_genes;
        it_cf_perturbation := cf_p; it_covariates := covs |}.

Definition SubDataset_getitem (self : SubDataset) (i : nat) : rand Item :=
  '(cf_i, cf_pert_dose_name) ← sample_candidate self;
  cf_genes ← sample_cf_genes self i cf_pert_dose_name;
  lift (return_tuple self i cf_genes cf_i).

End dataset.

#[global] Existing Instance wf_data_dec.

(** ** Auxiliary descriptions used in the statements *)

(** The list [dict_fromkeys] builds, described by recursion on the input. *)
Fixpoint first_seen (l : list string) : list string :=
  match l with
  | [] => []
  | x :: l' => x :: filter (λ y, y ≠ x) (first_seen l')
  end.

(** Every per-row attribute has [n] entries. *)
Definition rows_aligned `{F : FloatOps} (a : Attrs) (n : nat) : Prop :=
  length (genes a) = n ∧
  length (perturbations a) = n ∧
  length (controls a) = n ∧
  Forall (λ cov, length cov = n) (covariates a) ∧
  length (pert_names a) = n ∧
  length (doses a) = n ∧
  length (cov_names a) = n ∧
  length (cov_pert a) = n ∧
  length (pert_dose a) = n ∧
  length (cov_pert_dose a) = n.

(** The encoding as the specification words it: the elementwise sum of the
    dose-scaled basis vectors of the agents. *)
Section encoding_spec.
Context `{F : FloatOps}.

(** The place of an agent in the vocabulary. *)
Definition position (a : string) (vocab : list string) : option nat :=
  fst <$> list_find (λ b, b = a) vocab.

Definition zeros (n : nat) : tensor := replicate n fzero.

(** The vocabulary basis vector of agent [a]. *)
Definition basis (vocab : list string) (a : string) : tensor :=
  match position a vocab with
  | Some i => one_hot (length vocab) i
  | None => zeros (length vocab)
  end.

(** The elementwise sum of [x * t] over the terms [(x, t)], taken in order. *)
Definition weighted_sum (n : nat) (terms : list (float * tensor)) : tensor :=
  foldl (λ acc xt, tadd acc (scale xt.1 xt.2)) (zeros n) terms.

(** Agents paired with their doses, in order. *)
Definition spec_encoding (vocab agents : list string) (xs : list float) : tensor :=
  weighted_sum (length vocab) (zip xs (basis vocab <$> agents)).

End encoding_spec.

(** ** Concrete tables

    A small instance of the float interface, and three tables on which the
    model is run. *)

(** The value of a computation known to succeed. *)
Definition from_ok {A} (default : A) (m : res A) : A :=
  match m with
  | Ok a => a
  | Raise _ => default
  end.

Definition no_attrs `{F : FloatOps} : Attrs := {|
  sample_cf := false; cf_samples := 0;
  perturbation_key := ""; control_key := ""; dose_key := "";
  covariate_keys := []; control_names := [];
  perts_dict := ∅; covars_dict := ∅;
  genes := []; perturbations := []; controls := []; covariates := [];
  pert_names := []; doses := []; cov_names := []; cov_pert := [];
  pert_dose := []; cov_pert_dose := [];
  num_covariates := []; num_outcomes := 0; num_treatments := 0 |}.

Definition no_dataset `{F : FloatOps} : Dataset :=
  {| ds_attrs := no_attrs; indices := ∅ |}.

Definition no_view `{F : FloatOps} : SubDataset :=
  {| sd_attrs := no_attrs; cov_pert_dose_idx := None |}.

(** Floats whose value is a non-negative integer, held as that integer. The
    parser accepts the plain forms [digits] and [digits.zeros] and the
    printer writes [digits.0]: this is [float] and [str] on the doses of
    the tables below, and on nothing more (no sign, no fraction, no
    exponent, no rounding). Only the concrete tables use it; every general
    statement is about an arbitrary [FloatOps]. *)
Module IntegralFloats.

Fixpoint find_char (c : ascii) (alphabet : string) (i : Z) : option Z :=
  match alphabet with
  | EmptyString => None
  | String d rest => if Ascii.eqb c d then Some i else find_char c rest (i + 1)%Z
  end.

Definition digit (c : ascii) : option Z := find_char c "0123456789" 0%Z.

Fixpoint digits (acc : Z) (s : string) : option Z :=
  match s with
  | EmptyString => Some acc
  | String c s' =>
      match digit c with
      | Some v => digits (10 * acc + v)%Z s'
      | None => None
      end
  end.

Definition number (s : string) : option Z :=
  match s with
  | EmptyString => None
  | _ => digits 0 s
  end.

Definition parse (s : string) : option Z :=
  match split_on "."%char s with
  | [ip] => number ip
  | [ip; fp] =>
      match digits 0 fp with
      | Some 0%Z => number ip
      | _ => None
      end
  | _ => None
  end.

#[export] Instance ops : FloatOps := {|
  float := Z;
  fzero := 0%Z;
  fone := 1%Z;
  fadd := Z.add;
  fmul := Z.mul;
  float_of_str := parse;
  str_of_float := λ z, show_Z z +:+ ".0";
  float_eqb := Z.eqb;
|}.

(** A splitter that sends the last row to the test part. *)
Definition last_row_split (n : nat) (ratio : float) (seed : Z)
  : list nat * list nat :=
  (seq 0 (n - 1), seq (n - 1) (n - (n - 1))).

End IntegralFloats.

(** *** The scenario of the specification: four samples, one covariate *)
Module Scenario.
Import IntegralFloats.

Definition table : AnnData := {|
  obs := <["perturbation" := [VStr "ctrl"; VStr "drugA"; VStr "drugA"; VStr "drugA+drugB"]]>
        (<["control" := [VInt 1; VInt 0; VInt 0; VInt 0]]>
        (<["dose" := [VStr "1.0"; VStr "1.0"; VStr "1.0"; VStr "1.0+2.0"]]>
        (<["cell_type" := [VStr "X"; VStr "X"; VStr "Y"; VStr "Y"]]>
        (<["split" := [VStr "train"; VStr "train"; VStr "test"; VStr "ood"]]> ∅))));
  n_obs := 4;
  uns_fields := <["covariates" := FNames ["cell_type"]]> ∅;
  X := [[1; 2]; [3; 4]; [5; 6]; [7; 8]]%Z;
  n_vars := 2;
|}.

Definition dataset : Dataset :=
  Eval vm_compute in
    from_ok no_dataset
      (Dataset_init last_row_split table (Some "perturbation") (Some "control")
         (Some "dose") (CovStr "covariates") (Some "split") 0%Z 42%Z false 20).

Definition train_idx : list nat :=
  Eval vm_compute in from_ok [] (subset_idx dataset "train" "all").

Definition train_view : SubDataset :=
  Eval vm_compute in from_ok no_view (subset dataset "train" "all").

Definition control_view : SubDataset :=
  Eval vm_compute in from_ok no_view (subset dataset "all" "control").

Definition empty_view : SubDataset :=
  Eval vm_compute in from_ok no_view (subset dataset "ood" "control").

End Scenario.

(** *** Three samples, the first with fewer dose parts than agents *)
Module Combos.
Import IntegralFloats.

Definition table : AnnData := {|
  obs := <["perturbation" := [VStr "A+B"; VStr "A"; VStr "B"]]>
        (<["control" := [VInt 0; VInt 0; VInt 1]]>
        (<["dose" := [VStr "1.0"; VStr "2.0"; VStr "3.0"]]>
        (<["batch" := [VStr "b1"; VStr "b1"; VStr "b2"]]>
        (<["split" := [VStr "train"; VStr "test"; VStr "train"]]> ∅))));
  n_obs := 3;
  uns_fields := ∅;
  X := [[1]; [2]; [3]]%Z;
  n_vars := 1;
|}.

Definition dataset : Dataset :=
  Eval vm_compute in
    from_ok no_dataset
      (Dataset_init last_row_split table (Some "perturbation") (Some "control")
         (Some "dose") (CovStr "batch") (Some "split") 0%Z 42%Z false 20).

End Combos.

(** *** Three samples of one cell type, two of them sharing a group;
    counterfactual sampling is on *)
Module Pairs.
Import IntegralFloats.

Definition table : AnnData := {|
  obs := <["perturbation" := [VStr "ctrl"; VStr "drugA"; VStr "drugA"]]>
        (<["control" := [VInt 1; VInt 0; VInt 0]]>
        (<["dose" := [VStr "1.0"; VStr "1.0"; VStr "1.0"]]>
        (<["cell_type" := [VStr "X"; VStr "X"; VStr "X"]]>
        (<["split" := [VStr "train"; VStr "train"; VStr "train"]]> ∅))));
  n_obs := 3;
  uns_fields := ∅;
  X := [[10]; [20]; [30]]%Z;
  n_vars := 1;
|}.

Definition dataset : Dataset :=
  Eval vm_compute in
    from_ok no_dataset
      (Dataset_init last_row_split table (Some "perturbation") (Some "control")
         (Some "dose") (CovStr "cell_type") (Some "split") 0%Z 42%Z true 20).

Definition train_idx : list nat :=
  Eval vm_compute in from_ok [] (subset_idx dataset "train" "all").

Definition train_view : SubDataset :=
  Eval vm_compute in from_ok no_view (subset dataset "train" "all").

End Pairs.

(** The order [np.unique] sorts strings by: code point by code point. *)
Definition str_lt (a b : string) : Prop := String.compare a b = Lt.

(** Every composite key of a row is put together from the covariate name,
    the perturbation name and the dose of that same row. *)
Definition keys_consistent `{F : FloatOps} (a : Attrs) : Prop :=
  ∀ i pd, pert_dose a !! i = Some pd →
    ∃ cn p d,
      (cov_names a !! i = Some cn ∧ pert_names a !! i = Some p ∧
       doses a !! i = Some d) ∧
      pd = p +:+ "_" +:+ py_str d ∧
      cov_pert a !! i = Some (cn +:+ "_" +:+ p) ∧
      cov_pert_dose a !! i = Some (cn +:+ "_" +:+ pd).

(** ** [Dataset.__len__] and the loaders (lines 208-209, 288-339) *)

Section loaders.
Context `{F : FloatOps}.
Variable train_test_split : nat → float → Z → list nat * list nat.

(** The float literal [0.2], the default [test_ratio] of [Dataset.__init__];
    the loaders also leave [random_state] and [cf_samples] at their defaults
    [42] and [20]. *)
Variable default_test_ratio : float.

(** [Dataset.__len__]. *)
Definition Dataset_len (self : Dataset) : nat := length (genes self).

(** [load_dataset_splits], given the table that [sc.read(data_path)]
    returns. The result is the dictionary of views, together with the
    dataset when [return_dataset] is set. *)
Definition load_dataset_splits (data : AnnData)
    (perturbation_key control_key dose_key : option string)
    (covariate_keys : cov_arg) (split_key : option string)
    (sample_cf return_dataset : bool)
  : res (gmap string SubDataset * option Dataset) :=
  dataset ← Dataset_init train_test_split data perturbation_key control_key
               dose_key covariate_keys split_key default_test_ratio 42 sample_cf 20;
  train ← subset dataset "train" "all";
  test ← subset dataset "test" "all";
  ood ← subset dataset "ood" "all";
  let splits : gmap string SubDataset :=
    <["ood" := ood]> (<["test" := test]> (<["train" := train]> ∅)) in
  Ok (splits, if return_dataset then Some dataset else None).

(** [load_dataset_train_test]: the same without the ["ood"] view. *)
Definition load_dataset_train_test (data : AnnData)
    (perturbation_key control_key dose_key : option string)
    (covariate_keys : cov_arg) (split_key : option string)
    (sample_cf return_dataset : bool)
  : res (gmap string SubDataset * option Dataset) :=
  dataset ← Dataset_init train_test_split data perturbation_key control_key
               dose_key covariate_keys split_key default_test_ratio 42 sample_cf 20;
  train ← subset dataset "train" "all";
  test ← subset dataset "test" "all";
  let splits : gmap string SubDataset :=
    <["test" := test]> (<["train" := train]> ∅) in
  Ok (splits, if return_dataset then Some dataset else None).

End loaders.

(** The keys of [Dataset.indices]. *)
Definition index_labels : list string :=
  ["all"; "control"; "treated"; "train"; "test"; "ood"].

(** *** The samples of the scenario without dose, covariate and split
    columns: every fallback of field resolution is taken *)
Module Fallbacks.
Import IntegralFloats.

Definition table : AnnData := {|
  obs := <["perturbation" := [VStr "ctrl"; VStr "drugA"; VStr "drugA"; VStr "drugA+drugB"]]>
        (<["control" := [VInt 1; VInt 0; VInt 0; VInt 0]]> ∅);
  n_obs := 4;
  uns_fields := ∅;
  X := [[1; 2]; [3; 4]; [5; 6]; [7; 8]]%Z;
  n_vars := 2;
|}.

Definition dataset : Dataset :=
  Eval vm_compute in
    from_ok no_dataset
      (Dataset_init last_row_split table (Some "perturbation") (Some "control")
         None CovNone None 0%Z 42%Z false 20).

End Fallbacks.

(** *** A view of the scenario's train view *)
Module Nested.
Import IntegralFloats.

Definition view : SubDataset :=
  Eval vm_compute in from_ok no_view (SubDataset_init Scenario.train_view [1]).

End Nested.

(** *** The train view of the scenario, restricted by the control flag *)
Module Restricted.
Import IntegralFloats.

Definition control_rows : SubDataset :=
  Eval vm_compute in
    from_ok no_view (subset_condition Scenario.train_view (Some true)).

Definition treated_rows : SubDataset :=
  Eval vm_compute in
    from_ok no_view (subset_condition Scenario.train_view (Some false)).

End Restricted.

(** *** A table whose registered control name is not one of its columns *)
Module Registered.
Import IntegralFloats.

Definition table : AnnData := {|
  obs := <["perturbation" := [VStr "ctrl"; VStr "drugA"]]>
        (<["dose" := [VStr "1.0"; VStr "1.0"]]>
        (<["batch" := [VStr "b1"; VStr "b1"]]>
        (<["split" := [VStr "train"; VStr "test"]]> ∅)));
  n_obs := 2;
  uns_fields := <["control" := FName "is_ctrl"]> ∅;
  X := [[1]; [2]]%Z;
  n_vars := 1;
|}.

Definition keys : Keys := {|
  k_perturbation := "perturbation"; k_control := "is_ctrl"; k_dose := "dose";
  k_covariates := ["batch"]; k_split := "split" |}.

End Registered.

(** * Properties *)

(** ** The helpers on small inputs *)

Example split_plus_combination : split_plus "drugA+drugB" = ["drugA"; "drugB"].
Proof. reflexivity. Qed.

Example split_plus_single : split_plus "ctrl" = ["ctrl"].
Proof. reflexivity. Qed.

Example split_plus_trailing : split_plus "a+" = ["a"; ""].
Proof. reflexivity. Qed.

Example contains_inside : contains "ctrl" "X_ctrl_1.0" = true.
Proof. reflexivity. Qed.

Example contains_not : contains "ctrl" "drugA_1.0" = false.
Proof. reflexivity. Qed.

Example np_unique_sorted : np_unique ["b"; "a"; "b"; "c"] = ["a"; "b"; "c"].
Proof. reflexivity. Qed.

Example dict_fromkeys_order :
  dict_fromkeys ["b"; "a"; "b"; "c"] = ["b"; "a"; "c"].
Proof. by vm_compute. Qed.

Example dict_zip_last_wins : dict_zip ["a"; "b"; "a"] [1; 2; 3] !! "a" = Some 3.
Proof. by vm_compute. Qed.

Example np_where_positions : np_where [true; false; true] = [0; 2].
Proof. reflexivity. Qed.

Example show_Z_digits :
  show_Z 1205 = "1205" ∧ show_Z (-7) = "-7" ∧ show_Z 0 = "0".
Proof. by vm_compute. Qed.

Example unique_ind_groups :
  unique_ind ["x"; "y"; "x"] !! "x" = Some [0; 2] ∧
  unique_ind ["x"; "y"; "x"] !! "z" = None.
Proof. by vm_compute. Qed.

(** ** The error monad and indexing *)

Ltac split_pair x :=
  try match type of x with (_ * _)%type => destruct x as [? ?] end.

Ltac inv_bind H :=
  let E := fresh "E" in
  let x := fresh "x" in
  cbn in H;
  match type of H with
  | mbind _ ?m = Ok _ =>
      destruct m as [x|] eqn:E; [split_pair x; cbn in H | discriminate H]
  | (match ?m with Ok _ => _ | Raise _ => _ end) = Ok _ =>
      destruct m as [x|] eqn:E; [split_pair x; cbn in H | discriminate H]
  end.

Ltac inv_ok H := injection H as H; subst.

Lemma is_okb_true {A} (m : res A) : is_okb m = true → is_ok m.
Proof. destruct m as [a|]; [by exists a | done]. Qed.

Lemma is_okb_false {A} (m : res A) : is_okb m = false → ¬ is_ok m.
Proof. destruct m; [done | by intros _ [? [=]]]. Qed.

Lemma ok_or_fails {A} (m : res A) : is_ok m ∨ fails m.
Proof. destruct m as [a|e]; [left; by exists a | right; by exists e]. Qed.

Lemma fails_not_ok {A} (m : res A) : fails m ↔ ¬ is_ok m.
Proof.
  destruct m as [a|e]; split.
  - by intros [? [=]].
  - intros H. destruct H. by exists a.
  - by intros _ [? [=]].
  - intros _. by exists e.
Qed.

Lemma getitem_ok {A} (a : list A) i x : getitem a i = Ok x ↔ a !! i = Some x.
Proof.
  unfold getitem. destruct (a !! i); split; intros H; congruence.
Qed.

Lemma getitem_lt {A} (a : list A) i : i < length a → is_ok (getitem a i).
Proof.
  intros Hi. destruct (lookup_lt_is_Some_2 a i Hi) as [x Hx].
  exists x. by apply getitem_ok.
Qed.

Lemma getitem_ge {A} (a : list A) i : length a ≤ i → getitem a i = Raise IndexError.
Proof. intros Hi. unfold getitem. by rewrite lookup_ge_None_2. Qed.

Lemma torch_stack_ok {A} (l l' : list A) :
  torch_stack l = Ok l' ↔ l' = l ∧ l ≠ [].
Proof.
  destruct l; cbn; split; try done; [by intros [_ ?] | by intros [= <-] |].
  by intros [-> _].
Qed.

Ltac inv_stack :=
  match goal with
  | E : torch_stack _ = Ok _ |- _ => apply torch_stack_ok in E as [-> ?]
  end.

Lemma rmapM_ok {A B} (f : A → res B) l ys :
  rmapM f l = Ok ys ↔ Forall2 (λ x y, f x = Ok y) l ys.
Proof.
  revert ys. induction l as [|x l IH]; intros ys; cbn.
  - split; [intros [= <-]; constructor | by inversion 1].
  - split.
    + intros H. destruct (f x) eqn:Ex; [cbn in H | discriminate].
      destruct (rmapM f l) eqn:El; [cbn in H | discriminate].
      inv_ok H. constructor; [done | by apply IH].
    + inversion 1 as [|? y ? ys' Hx Hl]; subst. rewrite Hx. cbn.
      apply IH in Hl. by rewrite Hl.
Qed.

Lemma rmapM_length {A B} (f : A → res B) l ys :
  rmapM f l = Ok ys → length ys = length l.
Proof. intros H%rmapM_ok. symmetry. by eapply Forall2_length. Qed.

Lemma rmapM_lookup {A B} (f : A → res B) l ys i x :
  rmapM f l = Ok ys → l !! i = Some x → ∃ y, ys !! i = Some y ∧ f x = Ok y.
Proof.
  intros H%rmapM_ok Hx.
  destruct (Forall2_lookup_l _ _ _ _ _ H Hx) as (y & ? & ?). eauto.
Qed.

Lemma rmapM_total {A B} (f : A → res B) l :
  Forall (λ x, is_ok (f x)) l → is_ok (rmapM f l).
Proof.
  induction 1 as [|x l [y Hy] _ [ys Hys]]; [by exists []|].
  exists (y :: ys). cbn. by rewrite Hy; cbn; rewrite Hys.
Qed.

Lemma for_enumerate_ok {A B} (f : nat → A → res B) i l ys :
  for_enumerate f i l = Ok ys ↔
  length ys = length l ∧
  ∀ k x, l !! k = Some x → ∃ y, ys !! k = Some y ∧ f (i + k) x = Ok y.
Proof.
  revert i ys. induction l as [|x l IH]; intros i ys; cbn.
  - split.
    + intros [= <-]. split; [done | intros ?? [=]].
    + intros [Hl _]. by destruct ys.
  - split.
    + intros H. destruct (f i x) eqn:Ex; [cbn in H | discriminate].
      destruct (for_enumerate f (S i) l) eqn:El; [cbn in H | discriminate].
      inv_ok H. apply IH in El as [Hlen Hk]. split; [cbn; lia|].
      intros [|k] x' Hx'; cbn in *.
      * inv_ok Hx'. eexists; split; [done|]. by rewrite Nat.add_0_r.
      * destruct (Hk _ _ Hx') as (y & ? & Hy). exists y. split; [done|].
        by replace (i + S k) with (S i + k) by lia.
    + intros [Hlen Hk]. destruct ys as [|y ys]; [discriminate|].
      destruct (Hk 0 x eq_refl) as (y' & [= <-] & Hy).
      rewrite Nat.add_0_r in Hy. rewrite Hy. cbn.
      assert (for_enumerate f (S i) l = Ok ys) as ->; [|done].
      apply IH. split; [cbn in Hlen; lia|].
      intros k x' Hx'. destruct (Hk (S k) x' Hx') as (y' & ? & Hy').
      exists y'. split; [done|]. by replace (S i + k) with (i + S k) by lia.
Qed.

Lemma take_rows_ok {A} (a : list A) idx rows :
  take_rows a idx = Ok rows ↔ Forall2 (λ i r, a !! i = Some r) idx rows.
Proof.
  unfold take_rows. rewrite rmapM_ok.
  split; intros H; eapply Forall2_impl; try exact H; intros ??; by rewrite getitem_ok.
Qed.

Lemma take_rows_length {A} (a : list A) idx rows :
  take_rows a idx = Ok rows → length rows = length idx.
Proof. apply rmapM_length. Qed.

Lemma take_rows_total {A} (a : list A) idx :
  Forall (λ i, i < length a) idx → is_ok (take_rows a idx).
Proof.
  intros H. apply rmapM_total. eapply Forall_impl; [done|].
  intros i Hi. by apply getitem_lt.
Qed.

(** ** Strings *)

Lemma split_on_nonempty sep s : split_on sep s ≠ [].
Proof.
  destruct s as [|c s]; cbn; [done|].
  destruct (Ascii.eqb c sep); [done|]. by destruct (split_on sep s).
Qed.

Lemma split_plus_length_pos s : 0 < length (split_plus s).
Proof.
  pose proof (split_on_nonempty "+"%char s) as H. unfold split_plus.
  destruct (split_on _ s); [done | cbn; lia].
Qed.

Lemma append_nil_l s : "" +:+ s = s.
Proof. reflexivity. Qed.

Lemma append_cons a c s : String a c +:+ s = String a (c +:+ s).
Proof. reflexivity. Qed.

Lemma append_nil_r s : s +:+ "" = s.
Proof. induction s as [|a s IH]; [done|]. by rewrite append_cons, IH. Qed.

Lemma prefix_spec c s : is_prefix c s = true ↔ ∃ post, s = c +:+ post.
Proof.
  revert s. induction c as [|a c IH]; intros s.
  - split; [intros _; by exists s | done].
  - destruct s as [|b s]; cbn.
    + split; [done | by intros [? [=]]].
    + rewrite andb_true_iff, Ascii.eqb_eq, IH. split.
      * intros [-> [post ->]]. by exists post.
      * intros [post Hp]. rewrite append_cons in Hp. inv_ok Hp. eauto.
Qed.

(** [contains] is the substring test. *)
Lemma contains_spec c s :
  contains c s = true ↔ ∃ pre post, s = pre +:+ c +:+ post.
Proof.
  induction s as [|b s IH]; cbn.
  - rewrite orb_false_r, prefix_spec. split.
    + intros [post Hp]. by exists "", post.
    + intros (pre & post & Hp). destruct pre; [by exists post | done].
  - rewrite orb_true_iff, prefix_spec, IH. split.
    + intros [[post Hp] | (pre & post & Hp)].
      * by exists "", post.
      * exists (String b pre), post. by rewrite append_cons, Hp.
    + intros (pre & post & Hp). destruct pre as [|b' pre].
      * left. by exists post.
      * right. exists pre, post. rewrite append_cons in Hp. congruence.
Qed.

Lemma contains_refl c : contains c c = true.
Proof.
  apply contains_spec. exists "", "". by rewrite append_nil_l, append_nil_r.
Qed.

Lemma elem_of_insert_sorted x y l : y ∈ insert_sorted x l ↔ y = x ∨ y ∈ l.
Proof.
  induction l as [|z l IH]; cbn.
  - rewrite list_elem_of_singleton, elem_of_nil. tauto.
  - destruct (String.compare x z) eqn:E.
    + apply String.compare_eq_iff in E as ->. rewrite elem_of_cons. tauto.
    + apply elem_of_cons.
    + rewrite !elem_of_cons, IH. tauto.
Qed.

Lemma elem_of_np_unique x l : x ∈ np_unique l ↔ x ∈ l.
Proof.
  unfold np_unique. induction l as [|y l IH]; cbn; [done|].
  by rewrite elem_of_insert_sorted, IH, elem_of_cons.
Qed.

Lemma np_unique_nil l : np_unique l = [] ↔ l = [].
Proof.
  split; [|by intros ->].
  destruct l as [|x l]; [done|]. intros H.
  assert (x ∈ np_unique (x :: l)) as Hx by (apply elem_of_np_unique; set_solver).
  rewrite H in Hx. by apply elem_of_nil in Hx.
Qed.

(** ** First-seen deduplication *)

Lemma fromkeys_acc acc l :
  foldl fromkeys_step acc l = acc ++ filter (λ y, y ∉ acc) (first_seen l).
Proof.
  revert acc. induction l as [|x l IH]; intros acc; cbn [foldl first_seen].
  - by rewrite filter_nil, app_nil_r.
  - rewrite IH, filter_cons. unfold fromkeys_step.
    destruct (decide (x ∈ acc)) as [Hin|Hnin].
    + rewrite decide_False by tauto. f_equal.
      rewrite list_filter_filter. apply list_filter_iff.
      intros y. split; [|tauto]. intros Hy. split; [done|]. by intros ->.
    + rewrite decide_True by done. rewrite <-app_assoc. cbn. do 2 f_equal.
      rewrite list_filter_filter. apply list_filter_iff.
      intros y. rewrite elem_of_app, list_elem_of_singleton. tauto.
Qed.

Lemma dict_fromkeys_first_seen l : dict_fromkeys l = first_seen l.
Proof.
  unfold dict_fromkeys.
  rewrite fromkeys_acc, app_nil_l.
  induction (first_seen l) as [|y k IH]; [done|].
  rewrite filter_cons, decide_True, IH; [done | apply not_elem_of_nil].
Qed.

Lemma elem_of_first_seen x l : x ∈ first_seen l ↔ x ∈ l.
Proof.
  induction l as [|y l IH]; cbn; [done|].
  rewrite !elem_of_cons, list_elem_of_filter, IH.
  destruct (decide (x = y)); tauto.
Qed.

Lemma NoDup_first_seen l : NoDup (first_seen l).
Proof.
  induction l as [|y l IH]; cbn; [constructor|].
  constructor; [|by apply NoDup_filter].
  rewrite list_elem_of_filter. tauto.
Qed.

Lemma elem_of_dict_fromkeys x l : x ∈ dict_fromkeys l ↔ x ∈ l.
Proof. rewrite dict_fromkeys_first_seen. apply elem_of_first_seen. Qed.

Lemma NoDup_dict_fromkeys l : NoDup (dict_fromkeys l).
Proof. rewrite dict_fromkeys_first_seen. apply NoDup_first_seen. Qed.

(** The number of entries is the number of distinct values. *)
Lemma length_dict_fromkeys l :
  length (dict_fromkeys l) = size (list_to_set l : gset string).
Proof.
  rewrite <-(size_list_to_set (C := gset string)) by apply NoDup_dict_fromkeys.
  f_equal. apply set_eq. intros x.
  by rewrite !elem_of_list_to_set, elem_of_dict_fromkeys.
Qed.

(** ** Dictionaries built by [zip] *)

Lemma dict_zip_acc {V} (m : gmap string V) (kvs : list (string * V)) k :
  k ∉ kvs.*1 → foldl (λ m kv, <[kv.1 := kv.2]> m) m kvs !! k = m !! k.
Proof.
  revert m. induction kvs as [|[k' v'] kvs IH]; intros m Hk; cbn; [done|].
  cbn in Hk. apply not_elem_of_cons in Hk as [Hne Hk].
  rewrite IH by done. by apply lookup_insert_ne.
Qed.

Lemma dict_zip_lookup {V} (keys : list string) (values : list V) i k v :
  NoDup keys → keys !! i = Some k → values !! i = Some v →
  dict_zip keys values !! k = Some v.
Proof.
  unfold dict_zip. generalize (∅ : gmap string V) as m.
  revert values i. induction keys as [|k' keys IH]; intros values i m Hnd Hk Hv.
  - done.
  - destruct values as [|v' values]; [done|].
    apply NoDup_cons in Hnd as [Hnin Hnd]. destruct i as [|i]; cbn in *.
    + inv_ok Hk. inv_ok Hv. rewrite dict_zip_acc.
      * apply lookup_insert_eq.
      * intros Hin. apply Hnin. apply list_elem_of_fmap in Hin as ([a b] & -> & Hin).
        by apply elem_of_zip_l in Hin.
    + by eapply IH.
Qed.

Lemma dict_zip_lookup_None {V} (keys : list string) (values : list V) k :
  k ∉ keys → dict_zip keys values !! k = None.
Proof.
  intros Hk. unfold dict_zip. rewrite dict_zip_acc; [done|].
  intros Hin. apply Hk. apply list_elem_of_fmap in Hin as ([a b] & -> & Hin).
  by apply elem_of_zip_l in Hin.
Qed.

(** ** Positions of a mask *)

Lemma elem_of_where_from start mask i :
  i ∈ where_from start mask ↔ ∃ k, i = start + k ∧ mask !! k = Some true.
Proof.
  revert start. induction mask as [|b mask IH]; intros start; cbn.
  - split; [by intros ?%elem_of_nil | by intros (? & _ & [=])].
  - assert (i ∈ where_from (S start) mask ↔
            ∃ k, i = start + S k ∧ mask !! k = Some true) as IH'.
    { rewrite IH. split; intros (k & -> & ?); exists k; split; (lia || done). }
    destruct b.
    + rewrite elem_of_cons, IH'. split.
      * intros [-> | (k & -> & ?)]; [exists 0 | exists (S k)]; split; (lia || done).
      * intros ([|k] & -> & Hk); [left; lia | right; by exists k].
    + rewrite IH'. split.
      * intros (k & -> & ?). by exists (S k).
      * intros ([|k] & -> & Hk); [done | by exists k].
Qed.

Lemma elem_of_np_where mask i : i ∈ np_where mask ↔ mask !! i = Some true.
Proof.
  unfold np_where. rewrite elem_of_where_from. split.
  - by intros (k & -> & ?).
  - intros ?. by exists i.
Qed.

Lemma where_from_sorted start mask :
  StronglySorted lt (where_from start mask) ∧
  Forall (λ i, start ≤ i) (where_from start mask).
Proof.
  revert start. induction mask as [|b mask IH]; intros start; cbn.
  - split; constructor.
  - destruct (IH (S start)) as [Hs Hf]. destruct b.
    + split; constructor; try done; try lia;
        (eapply Forall_impl; [done | cbn; lia]).
    + split; [done|]. eapply Forall_impl; [done | cbn; lia].
Qed.

Lemma NoDup_np_where mask : NoDup (np_where mask).
Proof.
  unfold np_where. generalize 0 as start.
  induction mask as [|b mask IH]; intros start; cbn; [constructor|].
  destruct b; [|done]. constructor; [|done].
  intros Hin. destruct (where_from_sorted (S start) mask) as [_ Hf].
  rewrite Forall_forall in Hf. apply Hf in Hin. lia.
Qed.

Lemma np_where_lt mask i : i ∈ np_where mask → i < length mask.
Proof. rewrite elem_of_np_where. apply lookup_lt_Some. Qed.

Lemma ne_one_negb `{F : FloatOps} (v : cell) : ne_one v = negb (eq_one v).
Proof. by destruct v. Qed.

(** Complementary masks split the positions. *)
Lemma where_from_partition `{F : FloatOps} start (col : list cell) :
  where_from start (eq_one <$> col) ++ where_from start (ne_one <$> col)
  ≡ₚ seq start (length col).
Proof.
  revert start. induction col as [|v col IH]; intros start; [done|].
  cbn [fmap list_fmap where_from length seq]. rewrite ne_one_negb.
  destruct (eq_one v); cbn [negb].
  - cbn. by rewrite IH.
  - rewrite <-Permutation_middle. by rewrite IH.
Qed.

(** ** Field resolution keeps the table well formed *)

Section resolution.
Context `{F : FloatOps}.
Variable train_test_split : nat → float → Z → list nat * list nat.

Lemma wf_set_obs d k col :
  wf_data d → length col = n_obs d → wf_data (set_obs d k col).
Proof.
  intros [Hcols HX] Hlen. split; [|done]. intros k' col' Hk'. cbn in *.
  destruct (decide (k = k')) as [->|Hne].
  - rewrite lookup_insert_eq in Hk'. by inv_ok Hk'.
  - rewrite lookup_insert_ne in Hk' by done. eauto.
Qed.

Lemma wf_set_obs_const d k v : wf_data d → wf_data (set_obs_const d k v).
Proof. intros. apply wf_set_obs; [done|]. apply length_replicate. Qed.

Lemma length_assign_rows col idx v : length (assign_rows col idx v) = length col.
Proof.
  unfold assign_rows. revert col.
  induction idx as [|i idx IH]; intros col; cbn; [done|].
  by rewrite IH, length_insert.
Qed.

Lemma resolve_dose_wf d key d' k :
  wf_data d → resolve_dose d key = Ok (d', k) → wf_data d' ∧ n_obs d' = n_obs d.
Proof.
  unfold resolve_dose. intros Hwf H.
  destruct (registered d key).
  - inv_bind H. by inv_ok H.
  - destruct key as [k0|].
    + destruct (has_column d (Some k0)); [|done]. by inv_ok H.
    + inv_ok H. split; [by apply wf_set_obs_const | done].
Qed.

Lemma resolve_covariates_wf d arg d' ks :
  wf_data d → resolve_covariates d arg = Ok (d', ks) →
  wf_data d' ∧ n_obs d' = n_obs d.
Proof.
  unfold resolve_covariates. intros Hwf H.
  destruct (cov_registered d arg); [by inv_ok H|].
  destruct (cov_absent arg).
  - inv_ok H. split; [by apply wf_set_obs_const | done].
  - inv_bind H. by inv_ok H.
Qed.

Lemma resolve_split_wf d key ratio seed d' k :
  wf_data d → resolve_split train_test_split d key ratio seed = Ok (d', k) →
  wf_data d' ∧ n_obs d' = n_obs d.
Proof.
  unfold resolve_split. intros Hwf H.
  destruct (registered d key).
  - inv_bind H. by inv_ok H.
  - destruct key as [k0|].
    + destruct (has_column d (Some k0)); [|done]. by inv_ok H.
    + destruct (train_test_split _ _ _) as [idx_train idx_test]. inv_ok H.
      split; [|done]. apply wf_set_obs; [done|].
      by rewrite !length_assign_rows, length_replicate.
Qed.

Lemma resolve_fields_wf d pk ck dk cov sk ratio seed d' keys :
  wf_data d →
  resolve_fields train_test_split d pk ck dk cov sk ratio seed = Ok (d', keys) →
  wf_data d' ∧ n_obs d' = n_obs d.
Proof.
  unfold resolve_fields. intros Hwf H.
  do 5 inv_bind H. inv_ok H.
  match goal with E : resolve_dose _ _ = _ |- _ =>
    apply resolve_dose_wf in E as [? ?]; [|done] end.
  match goal with E : resolve_covariates _ _ = _ |- _ =>
    apply resolve_covariates_wf in E as [? ?]; [|done] end.
  match goal with E : resolve_split _ _ _ _ _ = _ |- _ =>
    apply resolve_split_wf in E as [? ?]; [|done] end.
  split; [done | congruence].
Qed.

Lemma assign_rows_lookup col idx v i x :
  col !! i = Some x →
  assign_rows col idx v !! i = Some (if decide (i ∈ idx) then v else x).
Proof.
  unfold assign_rows. revert col x.
  induction idx as [|j idx IH]; intros col x Hx; cbn [foldl].
  - by rewrite decide_False by apply not_elem_of_nil.
  - destruct (decide (i = j)) as [->|Hne].
    + rewrite (IH _ v).
      * rewrite (decide_True (P := j ∈ j :: idx)) by (by left).
        by destruct (decide (j ∈ idx)).
      * apply list_lookup_insert_eq. by eapply lookup_lt_Some.
    + rewrite (IH _ x) by (by rewrite list_lookup_insert_ne).
      destruct (decide (i ∈ idx)) as [Hin|Hnin].
      * rewrite decide_True; [done | by right].
      * rewrite decide_False; [done|]. rewrite elem_of_cons.
        intros [?|?]; [congruence | done].
Qed.

Lemma registered_None d k :
  uns_fields d !! k = None → registered d (Some k) = None.
Proof. done. Qed.

Lemma has_column_None d k : obs d !! k = None → has_column d (Some k) = false.
Proof.
  intros H. unfold has_column. apply bool_decide_eq_false_2.
  rewrite H. by intros [? [=]].
Qed.

Lemma has_column_Some d k : is_Some (obs d !! k) → has_column d (Some k) = true.
Proof. intros H. unfold has_column. by apply bool_decide_eq_true_2. Qed.

(** C6 (amended). The fallbacks of the dose and the split field are taken
    only when the caller passes no field name ([None]): then a dose column
    of constant 1.0 is added, or a split column holding the train/test
    assignment the external splitter computes at the caller's ratio. A field
    name that is neither registered nor a physical column fails the
    "is missing" assertion, for dose and split as for every other field. *)
Theorem fallback_only_without_key (d : AnnData) (test_ratio : float) (random_state : Z) :
  (∃ d',
     resolve_dose d None = Ok (d', "dummy_dose") ∧
     obs d' !! "dummy_dose" = Some (replicate (n_obs d) (VFloat fone)) ∧
     ∀ k, k ≠ "dummy_dose" → obs d' !! k = obs d !! k) ∧
  (∀ k, uns_fields d !! k = None → obs d !! k = None →
     resolve_dose d (Some k) = Raise (missing "Dose" (Some k))) ∧
  (∀ k, uns_fields d !! k = None → is_Some (obs d !! k) →
     resolve_dose d (Some k) = Ok (d, k)) ∧
  (∃ d' col,
     resolve_split train_test_split d None test_ratio random_state
       = Ok (d', "split") ∧
     obs d' !! "split" = Some col ∧
     length col = n_obs d ∧
     ∀ i, i < n_obs d →
       col !! i
       = Some (VStr (if decide
                          (i ∈ (train_test_split (n_obs d) test_ratio random_state).2)
                     then "test" else "train"))) ∧
  (∀ k, uns_fields d !! k = None → obs d !! k = None →
     resolve_split train_test_split d (Some k) test_ratio random_state
     = Raise (missing "Split" (Some k))) ∧
  (∀ pk ck k cov sk scf cfs,
     uns_fields d !! k = None → obs d !! k = None →
     fails (Dataset_init train_test_split d pk ck (Some k) cov sk
              test_ratio random_state scf cfs)).
Proof.
  split.
  { eexists. split; [reflexivity|]. split.
    - apply lookup_insert_eq.
    - intros k Hk. cbn. by rewrite lookup_insert_ne. }
  split.
  { intros k Hreg Hcol. unfold resolve_dose.
    by rewrite registered_None, has_column_None. }
  split.
  { intros k Hreg Hcol. unfold resolve_dose.
    by rewrite registered_None, has_column_Some. }
  split.
  { unfold resolve_split. cbn [registered mbind option_bind].
    destruct (train_test_split (n_obs d) test_ratio random_state)
      as [idx_train idx_test] eqn:Esplit.
    eexists _, _. split; [reflexivity|]. split; [apply lookup_insert_eq|].
    split; [by rewrite !length_assign_rows, length_replicate|].
    intros i Hi. cbn [snd].
    erewrite assign_rows_lookup; [|erewrite assign_rows_lookup;
      [reflexivity | by apply lookup_replicate_2]].
    by repeat case_decide. }
  split.
  { intros k Hreg Hcol. unfold resolve_split.
    by rewrite registered_None, has_column_None. }
  intros pk ck k cov sk scf cfs Hreg Hcol.
  unfold Dataset_init, resolve_fields.
  destruct (resolve_perturbation d pk) as [p|e]; [cbn | by exists e].
  destruct (resolve_control d ck) as [c|e]; [cbn | by exists e].
  unfold resolve_dose. rewrite registered_None, has_column_None by done.
  by eexists.
Qed.

End resolution.

(** ** What a successful construction looks like *)

Section construction.
Context `{F : FloatOps}.
Variable train_test_split : nat → float → Z → list nat * list nat.

Lemma key_rows_length n l r ks : key_rows n l r = Ok ks → length ks = n.
Proof. intros H%rmapM_length. by rewrite H, length_seq. Qed.

Lemma key_rows_lookup n l r ks i :
  key_rows n l r = Ok ks → i < n →
  ∃ a b, l i = Ok a ∧ r i = Ok b ∧ ks !! i = Some (a +:+ "_" +:+ b).
Proof.
  intros H Hi. unfold key_rows in H.
  destruct (rmapM_lookup _ _ _ i i H) as (k & Hk & Hf).
  { apply lookup_seq. lia. }
  do 2 inv_bind Hf. inv_ok Hf. eauto.
Qed.

Lemma as_str_ok e v s : as_str e v = Ok s ↔ v = VStr s.
Proof. destruct v; cbn; split; congruence. Qed.

Lemma encode_all_length dict names dose_values ts :
  encode_all dict names dose_values = Ok ts → length ts = length names.
Proof. by intros [? _]%for_enumerate_ok. Qed.

Lemma encode_covariate_length data cov enc :
  wf_data data → encode_covariate data cov = Ok enc →
  length (ce_values enc) = n_obs data ∧ length (ce_index enc) = n_obs data.
Proof.
  intros [Hcols _] H. unfold encode_covariate, get_obs in H.
  destruct (obs data !! cov) as [col|] eqn:Ecol; [cbn in H | done].
  do 3 inv_bind H. inv_ok H. inv_stack. cbn.
  repeat match goal with E : rmapM _ _ = Ok _ |- _ =>
    apply rmapM_length in E end.
  apply Hcols in Ecol. split; congruence.
Qed.

Lemma length_zip_star (cols : list (list string)) n :
  cols ≠ [] → Forall (λ c, length c = n) cols → length (zip_star cols) = n.
Proof.
  induction cols as [|c cols IH]; [done|]. intros _ Hall.
  apply Forall_cons in Hall as [Hc Hall]. cbn.
  destruct cols as [|c' cols]; [by rewrite length_fmap|].
  rewrite length_zip_with, IH by done. lia.
Qed.

(** The facts a successful [Dataset_build] establishes. *)
Lemma Dataset_build_inv data keys scf cfs ds :
  Dataset_build data keys scf cfs = Ok ds →
  ∃ control_col split_col pert_col encs,
    (* the columns read *)
    (obs data !! k_control keys = Some control_col ∧
     obs data !! k_split keys = Some split_col ∧
     obs data !! k_perturbation keys = Some pert_col ∧
     obs data !! k_dose keys = Some (doses ds) ∧
     pert_col = VStr <$> pert_names ds) ∧
    (* the settings kept *)
    (control_key ds = k_control keys ∧
     perturbation_key ds = k_perturbation keys ∧
     dose_key ds = k_dose keys ∧
     sample_cf ds = scf ∧ cf_samples ds = cfs) ∧
    (* vocabulary and encoding *)
    (perts_dict ds = make_perts_dict (get_unique_perts (pert_names ds)) ∧
     num_treatments ds = length (get_unique_perts (pert_names ds)) ∧
     encode_all (perts_dict ds) (pert_names ds) (doses ds)
       = Ok (perturbations ds)) ∧
    (* the index catalog *)
    (indices ds !! "all" = Some (seq 0 (n_obs data)) ∧
     indices ds !! "control" = Some (np_where (eq_one <$> control_col)) ∧
     indices ds !! "treated" = Some (np_where (ne_one <$> control_col)) ∧
     indices ds !! "train" = Some (np_where (eq_str "train" <$> split_col)) ∧
     indices ds !! "test" = Some (np_where (eq_str "test" <$> split_col)) ∧
     indices ds !! "ood" = Some (np_where (eq_str "ood" <$> split_col))) ∧
    (* control flags and responses *)
    (control_names ds
       = np_unique (select_rows (eq_one <$> control_col) (pert_names ds)) ∧
     controls ds = truthy <$> control_col ∧
     genes ds = X data) ∧
    (* covariates and composite keys *)
    (rmapM (encode_covariate data) (k_covariates keys) = Ok encs ∧
     covariates ds = ce_index <$> encs ∧
     cov_names ds = join "_" <$> zip_star (ce_values <$> encs) ∧
     n_obs data ≤ length (cov_names ds) ∧
     length (cov_pert ds) = n_obs data ∧
     length (pert_dose ds) = n_obs data ∧
     length (cov_pert_dose ds) = n_obs data).
Proof.
  unfold Dataset_build, get_obs. intros H.
  destruct (obs data !! k_control keys) as [control_col|]; [cbn in H | done].
  destruct (obs data !! k_split keys) as [split_col|]; [cbn in H | done].
  destruct (obs data !! k_perturbation keys) as [pert_col|]; [cbn in H | done].
  destruct (obs data !! k_dose keys) as [dose_values|]; [cbn in H | done].
  inv_bind H. rename x into names. inv_bind H. rename x into encoded.
  inv_bind H. inv_stack.
  destruct (bool_decide (NoDup (k_covariates keys))); [cbn in H | done].
  inv_bind H. rename x into encs.
  do 3 inv_bind H. inv_ok H. cbn.
  exists control_col, split_col, pert_col, encs.
  assert (n_obs data ≤ length (join "_" <$> zip_star (ce_values <$> encs))) as Hcov.
  { destruct (n_obs data) as [|n] eqn:En; [lia|].
    match goal with E : key_rows _ (getitem _) (λ i, _ <$> _) = Ok _ |- _ =>
      destruct (key_rows_lookup _ _ _ _ n E) as (a & b & Ha & _); [lia|] end.
    apply getitem_ok, lookup_lt_Some in Ha. lia. }
  repeat match goal with E : key_rows _ _ _ = Ok _ |- _ =>
    apply key_rows_length in E end.
  repeat split; try done.
  apply rmapM_ok in E. clear -E.
  induction E as [|v s col names Hv _ IH]; [done|].
  apply as_str_ok in Hv as ->. cbn. by rewrite IH.
Qed.

Lemma Dataset_build_aligned data keys scf cfs ds :
  wf_data data → Dataset_build data keys scf cfs = Ok ds →
  rows_aligned ds (n_obs data).
Proof.
  intros Hwf H. pose proof Hwf as [Hcols HX].
  destruct (Dataset_build_inv _ _ _ _ _ H) as
    (control_col & split_col & pert_col & encs & (Hc & Hs & Hp & Hd & Hpn) &
     _ & (Hdict & Hnt & Henc) & _ & (_ & Hctl & Hg) &
     (Hencs & Hcov & Hcn & Hcnle & Hcp & Hpd & Hcpd)).
  apply Hcols in Hc, Hp, Hd.
  assert (length (pert_names ds) = n_obs data) as Hnames.
  { by rewrite <-Hp, Hpn, length_fmap. }
  assert (Forall (λ enc, length (ce_values enc) = n_obs data ∧
                         length (ce_index enc) = n_obs data) encs) as Hall.
  { apply rmapM_ok in Hencs. clear -Hencs Hwf.
    induction Hencs as [|cov enc covs encs Hcov _ IH]; constructor; [|done].
    by eapply encode_covariate_length. }
  repeat split; try done.
  - by rewrite Hg.
  - apply encode_all_length in Henc. congruence.
  - by rewrite Hctl, length_fmap.
  - rewrite Hcov. apply Forall_fmap. eapply Forall_impl; [done|]. by intros ? [_ ?].
  - destruct encs as [|enc encs].
    + rewrite Hcn in *. cbn in *. lia.
    + rewrite Hcn, length_fmap. apply length_zip_star; [done|].
      apply Forall_fmap. eapply Forall_impl; [done|]. by intros ? [? _].
Qed.

Lemma Dataset_init_inv data pk ck dk cov sk ratio seed scf cfs ds :
  Dataset_init train_test_split data pk ck dk cov sk ratio seed scf cfs = Ok ds →
  ∃ data' keys,
    resolve_fields train_test_split data pk ck dk cov sk ratio seed = Ok (data', keys) ∧
    Dataset_build data' keys scf cfs = Ok ds.
Proof. unfold Dataset_init. intros H. inv_bind H. eauto. Qed.

(** C2. In every constructed dataset the index lists [control] and [treated]
    partition [all]: [control] holds the positions whose control flag equals
    1, [treated] the others, neither list repeats a position, and every
    position of [all] lies in exactly one of the two. *)
Theorem control_treated_partition data pk ck dk cov sk ratio seed scf cfs ds :
  wf_data data →
  Dataset_init train_test_split data pk ck dk cov sk ratio seed scf cfs = Ok ds →
  ∃ (flags : list cell) (all control treated : list nat),
    (∃ data' keys,
       resolve_fields train_test_split data pk ck dk cov sk ratio seed
         = Ok (data', keys) ∧
       obs data' !! control_key ds = Some flags) ∧
    indices ds !! "all" = Some all ∧
    indices ds !! "control" = Some control ∧
    indices ds !! "treated" = Some treated ∧
    all = seq 0 (length flags) ∧
    (∀ i, i ∈ control ↔ ∃ v, flags !! i = Some v ∧ eq_one v = true) ∧
    (∀ i, i ∈ treated ↔ ∃ v, flags !! i = Some v ∧ eq_one v = false) ∧
    control ++ treated ≡ₚ all ∧
    NoDup control ∧ NoDup treated ∧
    (∀ i, i ∈ all → (i ∈ control ∧ i ∉ treated) ∨ ((i ∉ control) ∧ i ∈ treated)).
Proof.
  intros Hwf Hinit.
  destruct (Dataset_init_inv _ _ _ _ _ _ _ _ _ _ _ Hinit) as (data' & keys & Hres & Hbuild).
  destruct (resolve_fields_wf _ _ _ _ _ _ _ _ _ _ _ Hwf Hres) as [[Hcols HX] Hn].
  destruct (Dataset_build_inv _ _ _ _ _ Hbuild) as
    (flags & split_col & pert_col & encs & (Hc & _) & (Hck & _) & _ &
     (Hall & Hctl & Htr & _) & _).
  pose proof (Hcols _ _ Hc) as Hlen.
  assert (∀ i, i ∈ np_where (eq_one <$> flags) ↔
               ∃ v, flags !! i = Some v ∧ eq_one v = true) as Hin_c.
  { intros i. rewrite elem_of_np_where, list_lookup_fmap.
    destruct (flags !! i) as [v|]; cbn; [|split; [done | by intros (? & [=] & _)]].
    split; [intros [= ?]; eauto | intros (? & [= <-] & ->); done]. }
  assert (∀ i, i ∈ np_where (ne_one <$> flags) ↔
               ∃ v, flags !! i = Some v ∧ eq_one v = false) as Hin_t.
  { intros i. rewrite elem_of_np_where, list_lookup_fmap.
    destruct (flags !! i) as [v|]; cbn; [|split; [done | by intros (? & [=] & _)]].
    rewrite ne_one_negb. split.
    - intros [= Hv]. exists v. split; [done|]. by destruct (eq_one v).
    - intros (? & [= <-] & ->). done. }
  exists flags, (seq 0 (n_obs data')), (np_where (eq_one <$> flags)),
    (np_where (ne_one <$> flags)).
  split; [exists data', keys; by rewrite Hck|].
  repeat split; try done.
  - by rewrite Hlen.
  - by apply Hin_c.
  - by apply Hin_c.
  - by apply Hin_t.
  - by apply Hin_t.
  - rewrite <-Hlen. apply where_from_partition.
  - apply NoDup_np_where.
  - apply NoDup_np_where.
  - intros i Hi. apply elem_of_seq in Hi as [_ Hi]. rewrite <-Hlen in Hi.
    destruct (lookup_lt_is_Some_2 flags i Hi) as [v Hv].
    rewrite Hin_c, Hin_t. destruct (eq_one v) eqn:Ev; [left | right].
    + split; [by exists v|]. intros (v' & Hv' & Ev'). congruence.
    + split; [|by exists v]. intros (v' & Hv' & Ev'). congruence.
Qed.

End construction.

(** ** Vocabulary and encoding *)

Section encoding.
Context `{F : FloatOps}.
Variable train_test_split : nat → float → Z → list nat * list nat.

Lemma length_one_hot n i : length (one_hot n i) = n.
Proof. unfold one_hot. by rewrite length_fmap, length_seq. Qed.

Lemma one_hot_lookup n i j :
  j < n → one_hot n i !! j = Some (if decide (i = j) then fone else fzero).
Proof.
  intros Hj. unfold one_hot, tensor. rewrite list_lookup_fmap.
  by rewrite (proj2 (lookup_seq 0 n j j)) by (split; [done | lia]).
Qed.

Lemma eye_lookup n i : i < n → eye n !! i = Some (one_hot n i).
Proof.
  intros Hi. unfold eye. rewrite list_lookup_fmap.
  by rewrite (proj2 (lookup_seq 0 n i i)) by (split; [done | lia]).
Qed.

(** Vocabulary member [i] is mapped to row [i] of the identity. *)
Lemma make_perts_dict_lookup vocab i a :
  NoDup vocab → vocab !! i = Some a →
  make_perts_dict vocab !! a = Some (one_hot (length vocab) i).
Proof.
  intros Hnd Ha. unfold make_perts_dict.
  eapply dict_zip_lookup; [done | done |].
  apply eye_lookup. by eapply lookup_lt_Some.
Qed.

Lemma position_Some vocab a :
  a ∈ vocab → ∃ i, position a vocab = Some i ∧ vocab !! i = Some a.
Proof.
  intros Ha. unfold position.
  destruct (list_find_elem_of (λ b, b = a) vocab a Ha eq_refl) as [[i b] Hf].
  rewrite Hf. apply list_find_Some in Hf as (Hi & -> & _). by exists i.
Qed.

Lemma lookup_basis vocab a :
  NoDup vocab → a ∈ vocab →
  lookup_key (make_perts_dict vocab) a = Ok (basis vocab a).
Proof.
  intros Hnd Ha. destruct (position_Some _ _ Ha) as (i & Hp & Hi).
  unfold lookup_key, basis. by rewrite Hp, (make_perts_dict_lookup _ i).
Qed.

Lemma length_basis vocab a : length (basis vocab a) = length vocab.
Proof.
  unfold basis, zeros. destruct (position a vocab);
    [apply length_one_hot | apply length_replicate].
Qed.

Lemma lookup_all_basis vocab agents :
  NoDup vocab → Forall (λ a, a ∈ vocab) agents →
  rmapM (lookup_key (make_perts_dict vocab)) agents = Ok (basis vocab <$> agents).
Proof.
  intros Hnd Hall. apply rmapM_ok.
  induction Hall as [|a agents Ha _ IH]; constructor; [|done].
  by apply lookup_basis.
Qed.

Lemma parse_float_ok d x : parse_float d = Ok x ↔ float_of_str d = Some x.
Proof. unfold parse_float. destruct (float_of_str d); split; congruence. Qed.

(** The inner loop succeeds exactly when every dose part parses and there
    are at least as many agents as dose parts. *)
Lemma weigh_all combos dparts xs :
  Forall2 (λ d x, float_of_str d = Some x) dparts xs →
  length dparts ≤ length combos →
  for_enumerate (weigh combos) 0 dparts = Ok (zip_with scale xs combos).
Proof.
  intros Hparse Hlen. pose proof (Forall2_length _ _ _ Hparse) as Hl.
  apply for_enumerate_ok. split; [rewrite length_zip_with; lia|].
  intros k d Hd. cbn.
  destruct (Forall2_lookup_l _ _ _ _ _ Hparse Hd) as (x & Hx & Hp).
  destruct (lookup_lt_is_Some_2 combos k) as [t Ht].
  { apply lookup_lt_Some in Hd. lia. }
  exists (scale x t). split.
  - rewrite lookup_zip_with, Hx. cbn. by rewrite Ht.
  - unfold weigh. rewrite (proj2 (parse_float_ok _ _) Hp). cbn.
    by rewrite (proj2 (getitem_ok _ _ _) Ht).
Qed.

Lemma weigh_all_inv combos dparts ts :
  for_enumerate (weigh combos) 0 dparts = Ok ts →
  (∃ xs, Forall2 (λ d x, float_of_str d = Some x) dparts xs) ∧
  length dparts ≤ length combos.
Proof.
  intros [Hlen Hk]%for_enumerate_ok. split.
  - clear Hlen. revert Hk. generalize 0 as j. revert ts.
    induction dparts as [|d dparts IH]; intros ts j Hk; [by exists []|].
    destruct (Hk 0 d eq_refl) as (y & _ & Hy).
    unfold weigh in Hy. inv_bind Hy.
    match goal with E : parse_float _ = Ok _ |- _ => apply parse_float_ok in E end.
    destruct (IH (drop 1 ts) (S j)) as [xs Hxs].
    { intros k d' Hd'. destruct (Hk (S k) d' Hd') as (y' & Hy' & Hw).
      exists y'. split; [by rewrite lookup_drop|].
      by replace (S j + k) with (j + S k) by lia. }
    eexists (_ :: xs). by constructor.
  - destruct dparts as [|d0 dparts] using rev_ind; [cbn; lia|].
    destruct (Hk (length dparts) d0) as (y & _ & Hy).
    { by rewrite lookup_app_r, Nat.sub_diag by lia. }
    unfold weigh in Hy. do 2 inv_bind Hy.
    match goal with E : getitem _ _ = Ok _ |- _ =>
      apply getitem_ok, lookup_lt_Some in E end.
    rewrite length_app. cbn in *. lia.
Qed.

(** With a dose part too many, the first dose part without an agent is
    parsed and its agent is then looked up out of range. *)
Lemma weigh_overflow combos j dparts :
  j ≤ length combos → length combos - j < length dparts →
  Forall (λ d, is_Some (float_of_str d)) (take (S (length combos - j)) dparts) →
  for_enumerate (weigh combos) j dparts = Raise IndexError.
Proof.
  revert j. induction dparts as [|d dparts IH]; intros j Hj Hlen Hparse; cbn in *.
  { lia. }
  apply Forall_cons in Hparse as [[x Hx] Hparse].
  apply parse_float_ok in Hx.
  destruct (decide (j = length combos)) as [->|Hne].
  - assert (weigh combos (length combos) d = Raise IndexError) as ->; [|done].
    unfold weigh. rewrite Hx. cbn. by rewrite getitem_ge.
  - destruct (getitem_lt combos j) as [t Ht]; [lia|].
    assert (weigh combos j d = Ok (scale x t)) as ->.
    { unfold weigh. rewrite Hx. cbn. by rewrite Ht. }
    cbn. rewrite IH; [done | lia | lia |].
    replace (length combos - j) with (S (length combos - S j)) in Hparse by lia.
    done.
Qed.

Lemma tadd_zeros t : tadd (zeros (length t)) t = fadd fzero <$> t.
Proof. unfold tadd, zeros. induction t as [|x t IH]; cbn; [done|]. by rewrite IH. Qed.

Lemma length_scale x t : length (scale x t) = length t.
Proof. apply length_fmap. Qed.

Lemma foldl_tadd_zip acc xs (combos : list tensor) :
  foldl tadd acc (zip_with scale xs combos)
  = foldl (λ acc xt, tadd acc (scale xt.1 xt.2)) acc (zip xs combos).
Proof.
  revert combos acc. induction xs as [|x xs IH]; intros combos acc; [done|].
  destruct combos as [|t combos]; [done|]. cbn. apply IH.
Qed.

(** The builtin [sum] agrees with the sum that starts from a zero vector. *)
Lemma py_sum_weighted n xs combos :
  xs ≠ [] → length xs ≤ length combos → Forall (λ t, length t = n) combos →
  py_sum (zip_with scale xs combos) = Ok (weighted_sum n (zip xs combos)).
Proof.
  intros Hne Hlen Hall. destruct xs as [|x xs]; [done|].
  destruct combos as [|t combos]; [cbn in Hlen; lia|].
  apply Forall_cons in Hall as [Ht Hall].
  unfold weighted_sum. cbn [zip_with py_sum foldl fst snd]. f_equal.
  rewrite <-Ht, <-(length_scale x t), tadd_zeros. apply foldl_tadd_zip.
Qed.

(** The per-sample encoding, when it has enough agents for its dose parts. *)
Lemma encode_sample_spec vocab comb dose xs :
  NoDup vocab → Forall (λ a, a ∈ vocab) (split_plus comb) →
  Forall2 (λ d x, float_of_str d = Some x) (split_plus (py_str dose)) xs →
  length (split_plus (py_str dose)) ≤ length (split_plus comb) →
  encode_sample (make_perts_dict vocab) comb dose
  = Ok (spec_encoding vocab (split_plus comb) xs).
Proof.
  intros Hnd Hin Hparse Hlen. unfold encode_sample.
  rewrite lookup_all_basis by done. cbn.
  rewrite (weigh_all _ _ xs) by (by rewrite ?length_fmap). cbn.
  pose proof (Forall2_length _ _ _ Hparse) as Hl.
  apply py_sum_weighted.
  - intros ->. pose proof (split_plus_length_pos (py_str dose)). cbn in Hl. lia.
  - rewrite length_fmap. lia.
  - apply Forall_fmap, Forall_forall. intros a _. apply length_basis.
Qed.

Lemma encode_sample_inv vocab comb dose t :
  NoDup vocab → Forall (λ a, a ∈ vocab) (split_plus comb) →
  encode_sample (make_perts_dict vocab) comb dose = Ok t →
  length (split_plus (py_str dose)) ≤ length (split_plus comb) ∧
  ∃ xs, Forall2 (λ d x, float_of_str d = Some x) (split_plus (py_str dose)) xs ∧
        t = spec_encoding vocab (split_plus comb) xs.
Proof.
  intros Hnd Hin H. pose proof H as H'. unfold encode_sample in H'.
  rewrite lookup_all_basis in H' by done. cbn in H'. inv_bind H'.
  match goal with E : for_enumerate _ _ _ = Ok _ |- _ =>
    apply weigh_all_inv in E as [[xs Hxs] Hlen] end.
  rewrite length_fmap in Hlen. split; [done|]. exists xs. split; [done|].
  rewrite (encode_sample_spec _ _ _ xs) in H by done. by inv_ok H.
Qed.

Lemma agents_in_vocab names comb :
  comb ∈ names → Forall (λ a, a ∈ get_unique_perts names) (split_plus comb).
Proof.
  intros Hc. apply Forall_forall. intros a Ha.
  unfold get_unique_perts. rewrite elem_of_dict_fromkeys.
  apply list_elem_of_bind. eauto.
Qed.

Lemma encode_all_lookup dict names dose_values ts i comb :
  encode_all dict names dose_values = Ok ts → names !! i = Some comb →
  ∃ dose t, dose_values !! i = Some dose ∧ ts !! i = Some t ∧
            encode_sample dict comb dose = Ok t.
Proof.
  intros [_ Hk]%for_enumerate_ok Hc.
  destruct (Hk i comb Hc) as (t & Ht & He). cbn in He. inv_bind He.
  match goal with E : getitem _ _ = Ok _ |- _ => apply getitem_ok in E end.
  eauto.
Qed.

(** Every sample of a constructed dataset, as the constructor encoded it. *)
Lemma Dataset_init_sample data pk ck dk cov sk ratio seed scf cfs ds i comb dose :
  Dataset_init train_test_split data pk ck dk cov sk ratio seed scf cfs = Ok ds →
  pert_names ds !! i = Some comb → doses ds !! i = Some dose →
  let vocab := get_unique_perts (pert_names ds) in
  NoDup vocab ∧ Forall (λ a, a ∈ vocab) (split_plus comb) ∧
  perts_dict ds = make_perts_dict vocab ∧
  num_treatments ds = length vocab ∧
  ∃ t, perturbations ds !! i = Some t ∧
       encode_sample (make_perts_dict vocab) comb dose = Ok t.
Proof.
  intros Hinit Hc Hd vocab.
  apply Dataset_init_inv in Hinit as (data' & keys & _ & Hbuild).
  apply Dataset_build_inv in Hbuild as
    (_ & _ & _ & _ & _ & _ & (Hdict & Hnt & Henc) & _).
  split; [apply NoDup_dict_fromkeys|].
  split; [apply agents_in_vocab; by eapply list_elem_of_lookup_2|].
  split; [done|]. split; [done|].
  rewrite Hdict in Henc.
  destruct (encode_all_lookup _ _ _ _ _ _ Henc Hc) as (dose' & t & Hd' & Ht & He).
  rewrite Hd in Hd'. inv_ok Hd'. eauto.
Qed.

(** C1. For a sample whose perturbation string and dose string split on "+"
    into as many parts, the vector stored in [perturbations] is the
    elementwise sum of [float(d_j) * one_hot(a_j)] over the aligned parts,
    [one_hot(a_j)] being the vocabulary basis vector of agent [a_j]; for a
    sample with a single agent it is [dose * one_hot(perturbation)], the
    sum of that one term. *)
Theorem perturbation_encoding_weighted_sum
    data pk ck dk cov sk ratio seed scf cfs ds i comb dose :
  Dataset_init train_test_split data pk ck dk cov sk ratio seed scf cfs = Ok ds →
  pert_names ds !! i = Some comb → doses ds !! i = Some dose →
  length (split_plus comb) = length (split_plus (py_str dose)) →
  let vocab := get_unique_perts (pert_names ds) in
  ∃ xs,
    length xs = length (split_plus comb) ∧
    Forall2 (λ d x, float_of_str d = Some x) (split_plus (py_str dose)) xs ∧
    perturbations ds !! i = Some (spec_encoding vocab (split_plus comb) xs) ∧
    (∀ a, a ∈ split_plus comb →
       ∃ k, vocab !! k = Some a ∧
            basis vocab a = one_hot (num_treatments ds) k ∧
            perts_dict ds !! a = Some (basis vocab a)) ∧
    (∀ x, split_plus comb = [comb] → xs = [x] →
       perturbations ds !! i = Some (fadd fzero <$> scale x (basis vocab comb)) ∧
       ((∀ y, fadd fzero y = y) →
        perturbations ds !! i = Some (scale x (basis vocab comb)))).
Proof.
  intros Hinit Hc Hd Hlen vocab.
  destruct (Dataset_init_sample _ _ _ _ _ _ _ _ _ _ _ _ _ _ Hinit Hc Hd)
    as (Hnd & Hin & Hdict & Hnt & t & Ht & He).
  fold vocab in Hnd, Hin, Hdict, Hnt, He.
  destruct (encode_sample_inv _ _ _ _ Hnd Hin He) as (_ & xs & Hxs & ->).
  exists xs. split; [by rewrite Hlen, (Forall2_length _ _ _ Hxs)|].
  split; [done|]. split; [done|]. split.
  - intros a Ha. rewrite Forall_forall in Hin.
    destruct (position_Some _ _ (Hin a Ha)) as (k & Hp & Hk).
    exists k. split; [done|]. split.
    + unfold basis. by rewrite Hp, Hnt.
    + rewrite Hdict. unfold basis. rewrite Hp.
      by apply make_perts_dict_lookup.
  - intros x Hsingle ->. rewrite Hsingle in Ht.
    assert (spec_encoding vocab [comb] [x]
            = fadd fzero <$> scale x (basis vocab comb)) as Heq.
    { unfold spec_encoding, weighted_sum.
      cbn [fmap list_fmap zip zip_with foldl fst snd].
      by rewrite <-(length_basis vocab comb), <-(length_scale x), tadd_zeros. }
    rewrite Heq in Ht. split; [exact Ht|]. intros Hid. rewrite Ht. f_equal.
    generalize (scale x (basis vocab comb)). clear -Hid.
    induction t as [|y t IH]; [done|]. by rewrite fmap_cons, Hid, IH.
Qed.

Lemma zip_take_r {A B} (xs : list A) (l : list B) :
  zip xs l = zip xs (take (length xs) l).
Proof.
  revert l. induction xs as [|x xs IH]; intros [|y l]; cbn; try done.
  by rewrite <-IH.
Qed.

Lemma fmap_VStr_lookup (names : list string) i s :
  (VStr <$> names) !! i = Some (VStr s) → names !! i = Some s.
Proof.
  rewrite list_lookup_fmap. destruct (names !! i); cbn; [|done].
  by intros [= ->].
Qed.

(** C4 (amended). The per-sample encoding fails on a length mismatch in one
    direction only. When the dose string has more parts than the perturbation
    string, construction fails, with the out-of-range lookup as soon as the
    dose parts up to the first surplus one parse. When it has fewer parts,
    nothing fails: the dose parts weigh the agents they are aligned with and
    the remaining agents are left out of the sum. *)
Theorem combination_length_mismatch data pk ck dk cov sk ratio seed scf cfs :
  (∀ data' keys pert_col dose_col i comb dose,
     resolve_fields train_test_split data pk ck dk cov sk ratio seed
       = Ok (data', keys) →
     obs data' !! k_perturbation keys = Some pert_col →
     obs data' !! k_dose keys = Some dose_col →
     pert_col !! i = Some (VStr comb) → dose_col !! i = Some dose →
     length (split_plus comb) < length (split_plus (py_str dose)) →
     fails (Dataset_init train_test_split data pk ck dk cov sk ratio seed scf cfs)) ∧
  (∀ vocab comb dose,
     NoDup vocab → Forall (λ a, a ∈ vocab) (split_plus comb) →
     length (split_plus comb) < length (split_plus (py_str dose)) →
     Forall (λ d, is_Some (float_of_str d))
       (take (S (length (split_plus comb))) (split_plus (py_str dose))) →
     encode_sample (make_perts_dict vocab) comb dose = Raise IndexError) ∧
  (∀ ds i comb dose,
     Dataset_init train_test_split data pk ck dk cov sk ratio seed scf cfs = Ok ds →
     pert_names ds !! i = Some comb → doses ds !! i = Some dose →
     let vocab := get_unique_perts (pert_names ds) in
     length (split_plus (py_str dose)) ≤ length (split_plus comb) ∧
     ∃ xs,
       Forall2 (λ d x, float_of_str d = Some x) (split_plus (py_str dose)) xs ∧
       perturbations ds !! i
       = Some (spec_encoding vocab (take (length xs) (split_plus comb)) xs)).
Proof.
  split; [|split].
  - intros data' keys pert_col dose_col i comb dose Hres Hp Hd Hc Hdose Hlen.
    apply fails_not_ok. intros [ds Hinit].
    pose proof Hinit as Hinit'.
    apply Dataset_init_inv in Hinit' as (data'' & keys' & Hres' & Hbuild).
    rewrite Hres in Hres'. inv_ok Hres'.
    apply Dataset_build_inv in Hbuild as
      (_ & _ & pert_col' & _ & (_ & _ & Hp' & Hd' & Hnames) & _).
    rewrite Hp in Hp'. inv_ok Hp'. rewrite Hd in Hd'. inv_ok Hd'.
    apply fmap_VStr_lookup in Hc.
    destruct (Dataset_init_sample _ _ _ _ _ _ _ _ _ _ _ _ _ _ Hinit Hc Hdose)
      as (Hnd & Hin & _ & _ & t & _ & He).
    apply encode_sample_inv in He as [Hle _]; [lia | done | done].
  - intros vocab comb dose Hnd Hin Hlen Hparse. unfold encode_sample.
    rewrite lookup_all_basis by done. cbn.
    rewrite weigh_overflow; [done | lia | | ];
      rewrite length_fmap, Nat.sub_0_r; [lia | done].
  - intros ds i comb dose Hinit Hc Hd vocab.
    destruct (Dataset_init_sample _ _ _ _ _ _ _ _ _ _ _ _ _ _ Hinit Hc Hd)
      as (Hnd & Hin & _ & _ & t & Ht & He).
    destruct (encode_sample_inv _ _ _ _ Hnd Hin He) as (Hle & xs & Hxs & ->).
    split; [done|]. exists xs. split; [done|]. rewrite Ht. f_equal.
    unfold spec_encoding. f_equal.
    by rewrite (zip_take_r xs), <-fmap_take.
Qed.

(** C8. [num_treatments] is the number of distinct single agents, obtained
    by splitting every perturbation string on "+" and keeping each agent at
    its first occurrence; vocabulary member [i] is mapped to the one-hot
    vector of that length with its 1 at position [i]: a vector of
    [num_treatments] entries whose entry [i] is the float 1 and whose every
    other entry is the float 0. *)
Theorem num_treatments_counts_agents data pk ck dk cov sk ratio seed scf cfs ds :
  Dataset_init train_test_split data pk ck dk cov sk ratio seed scf cfs = Ok ds →
  let agents := pert_names ds ≫= split_plus in
  let vocab := get_unique_perts (pert_names ds) in
  (∃ data' keys,
     resolve_fields train_test_split data pk ck dk cov sk ratio seed
       = Ok (data', keys) ∧
     obs data' !! perturbation_key ds = Some (VStr <$> pert_names ds)) ∧
  vocab = first_seen agents ∧
  NoDup vocab ∧
  (∀ a, a ∈ vocab ↔ ∃ comb, comb ∈ pert_names ds ∧ a ∈ split_plus comb) ∧
  num_treatments ds = length vocab ∧
  num_treatments ds = size (list_to_set agents : gset string) ∧
  (∀ i a, vocab !! i = Some a →
     perts_dict ds !! a = Some (one_hot (num_treatments ds) i)) ∧
  (∀ i a, vocab !! i = Some a →
     ∃ t, perts_dict ds !! a = Some t ∧
          length t = num_treatments ds ∧
          t !! i = Some fone ∧
          ∀ j, j < num_treatments ds → j ≠ i → t !! j = Some fzero) ∧
  (∀ a, a ∉ vocab → perts_dict ds !! a = None).
Proof.
  intros Hinit agents vocab.
  apply Dataset_init_inv in Hinit as (data' & keys & Hres & Hbuild).
  apply Dataset_build_inv in Hbuild as
    (_ & _ & pert_col & _ & (_ & _ & Hp & _ & Hnames) & (_ & Hpk & _) &
     (Hdict & Hnt & _) & _).
  fold vocab in Hdict, Hnt.
  split; [exists data', keys; by rewrite Hpk, <-Hnames|].
  split; [apply dict_fromkeys_first_seen|].
  split; [apply NoDup_dict_fromkeys|].
  split.
  { intros a. unfold vocab, get_unique_perts.
    rewrite elem_of_dict_fromkeys, list_elem_of_bind.
    split; intros (c & ? & ?); eauto. }
  split; [done|].
  split; [rewrite Hnt; apply length_dict_fromkeys|].
  assert (∀ i a, vocab !! i = Some a →
            perts_dict ds !! a = Some (one_hot (num_treatments ds) i)) as Hrow.
  { intros i a Ha. rewrite Hdict, Hnt.
    apply make_perts_dict_lookup; [apply NoDup_dict_fromkeys | done]. }
  split; [exact Hrow|]. split.
  - intros i a Ha. exists (one_hot (num_treatments ds) i).
    split; [by apply Hrow|]. split; [apply length_one_hot|].
    assert (i < num_treatments ds) as Hi.
    { rewrite Hnt. by eapply lookup_lt_Some. }
    split.
    + rewrite one_hot_lookup by done. by rewrite decide_True.
    + intros j Hj Hne. rewrite one_hot_lookup by done.
      by rewrite decide_False.
  - intros a Ha. rewrite Hdict. by apply dict_zip_lookup_None.
Qed.

End encoding.

(** ** Views *)

Section views.
Context `{F : FloatOps}.

Lemma select_rows_cons {A} (b : bool) mask (x : A) a :
  select_rows (b :: mask) (x :: a)
  = if b then x :: select_rows mask a else select_rows mask a.
Proof.
  unfold select_rows. cbn [zip zip_with]. rewrite filter_cons.
  destruct b; cbn; [by rewrite decide_True | by rewrite decide_False].
Qed.

(** Indexing by the positions of a mask selects the flagged entries. *)
Lemma take_rows_where {A} (pre a : list A) mask :
  length mask = length a →
  take_rows (pre ++ a) (where_from (length pre) mask) = Ok (select_rows mask a).
Proof.
  revert pre a. induction mask as [|b mask IH]; intros pre [|x a] Hlen; try done.
  cbn in Hlen. rewrite select_rows_cons. cbn [where_from].
  specialize (IH (pre ++ [x]) a). rewrite <-app_assoc, length_app in IH.
  cbn in IH. rewrite Nat.add_1_r in IH.
  destruct b.
  - unfold take_rows in *. cbn [rmapM]. rewrite IH by lia.
    unfold getitem. by rewrite list_lookup_middle.
  - apply IH. lia.
Qed.

Lemma take_rows_np_where {A} (a : list A) mask :
  length mask = length a → take_rows a (np_where mask) = Ok (select_rows mask a).
Proof. intros. by apply (take_rows_where []). Qed.

Lemma length_select_rows {A B} mask (a : list A) (a' : list B) :
  length mask = length a → length mask = length a' →
  length (select_rows mask a) = length (select_rows mask a').
Proof.
  revert a a'.
  induction mask as [|b mask IH]; intros [|x a] [|x' a'] H1 H2; try done.
  cbn in H1, H2. rewrite !select_rows_cons.
  destruct b; cbn; rewrite (IH a a') by lia; done.
Qed.

Lemma select_rows_self (b : bool) (cs : list bool) :
  select_rows ((λ c, bool_decide (c = b)) <$> cs) cs = filter (λ c, c = b) cs.
Proof.
  induction cs as [|c cs IH]; [done|].
  rewrite fmap_cons, select_rows_cons, filter_cons, IH.
  destruct (decide (c = b)) as [->|Hne].
  - by rewrite bool_decide_eq_true_2.
  - by rewrite bool_decide_eq_false_2.
Qed.

(** What a successfully built view holds. *)
Lemma SubDataset_init_inv (a : Attrs) idx (v : SubDataset) :
  SubDataset_init a idx = Ok v →
  (* the re-sliced samples *)
  (take_rows (genes a) idx = Ok (genes v) ∧
   take_rows (perturbations a) idx = Ok (perturbations v) ∧
   take_rows (controls a) idx = Ok (controls v) ∧
   rmapM (λ cov, take_rows cov idx) (covariates a) = Ok (covariates v) ∧
   take_rows (pert_names a) idx = Ok (pert_names v) ∧
   take_rows (doses a) idx = Ok (doses v)) ∧
  (* the re-sliced keys *)
  (take_rows (cov_names a) idx = Ok (cov_names v) ∧
   take_rows (cov_pert a) idx = Ok (cov_pert v) ∧
   take_rows (pert_dose a) idx = Ok (pert_dose v) ∧
   take_rows (cov_pert_dose a) idx = Ok (cov_pert_dose v)) ∧
  (* what is shared with the parent *)
  (sample_cf v = sample_cf a ∧ cf_samples v = cf_samples a ∧
   control_names v = control_names a ∧ perts_dict v = perts_dict a ∧
   covars_dict v = covars_dict a ∧
   num_treatments v = num_treatments a ∧ num_outcomes v = num_outcomes a ∧
   num_covariates v = num_covariates a) ∧
  cov_pert_dose_idx v
  = (if sample_cf a then Some (unique_ind (cov_pert_dose v)) else None).
Proof.
  unfold SubDataset_init. intros H. do 10 inv_bind H. inv_ok H. cbn.
  repeat split; done.
Qed.

Lemma SubDataset_init_aligned (a : Attrs) idx (v : SubDataset) :
  SubDataset_init a idx = Ok v → rows_aligned v (length idx).
Proof.
  intros H. apply SubDataset_init_inv in H as
    ((Hg & Hp & Hc & Hcov & Hpn & Hd) & (Hcn & Hcp & Hpd & Hcpd) & _).
  repeat split; try by eapply take_rows_length.
  apply rmapM_ok in Hcov. clear -Hcov.
  induction Hcov as [|c c' cs cs' Hc _ IH]; constructor; [|done].
  by eapply take_rows_length.
Qed.

(** [SubDataset.__len__] is the length of the index list. *)
Lemma SubDataset_len_idx (a : Attrs) idx (v : SubDataset) :
  SubDataset_init a idx = Ok v → SubDataset_len v = length idx.
Proof. intros H. by apply SubDataset_init_aligned in H as [? _]. Qed.

Lemma SubDataset_init_total (a : Attrs) n idx :
  rows_aligned a n → Forall (λ i, i < n) idx → is_ok (SubDataset_init a idx).
Proof.
  intros (Hg & Hp & Hc & Hcov & Hpn & Hd & Hcn & Hcp & Hpd & Hcpd) Hidx.
  assert (∀ {A} (l : list A), length l = n → is_ok (take_rows l idx)) as Htake.
  { intros A l Hl. apply take_rows_total. by rewrite Hl. }
  unfold SubDataset_init.
  destruct (Htake _ _ Hg) as [? ->]. destruct (Htake _ _ Hp) as [? ->].
  destruct (Htake _ _ Hc) as [? ->]. cbn.
  destruct (rmapM_total (λ cov, take_rows cov idx) (covariates a)) as [? ->].
  { eapply Forall_impl; [exact Hcov|]. intros cov Hl. by apply Htake. }
  destruct (Htake _ _ Hpn) as [? ->]. destruct (Htake _ _ Hd) as [? ->].
  destruct (Htake _ _ Hcn) as [? ->]. destruct (Htake _ _ Hcp) as [? ->].
  destruct (Htake _ _ Hpd) as [? ->]. destruct (Htake _ _ Hcpd) as [? ->].
  cbn. by eexists.
Qed.

Lemma elem_of_set_intersection a b i :
  i ∈ set_intersection a b ↔ i ∈ a ∧ i ∈ b.
Proof.
  unfold set_intersection.
  by rewrite merge_sort_Permutation, elem_of_elements, elem_of_intersection,
    !elem_of_list_to_set.
Qed.

Lemma NoDup_set_intersection a b : NoDup (set_intersection a b).
Proof.
  unfold set_intersection. rewrite merge_sort_Permutation. apply NoDup_elements.
Qed.

Lemma subset_idx_ok (ds : Dataset) split condition a b :
  indices ds !! split = Some a → indices ds !! condition = Some b →
  subset_idx ds split condition = Ok (set_intersection a b).
Proof. intros Ha Hb. unfold subset_idx, lookup_key. by rewrite Ha, Hb. Qed.

Lemma subset_idx_inv (ds : Dataset) split condition idx :
  subset_idx ds split condition = Ok idx →
  ∃ a b, indices ds !! split = Some a ∧ indices ds !! condition = Some b ∧
         idx = set_intersection a b.
Proof.
  unfold subset_idx, lookup_key. intros H.
  destruct (indices ds !! split) as [a|]; [cbn in H | done].
  destruct (indices ds !! condition) as [b|]; [cbn in H | done].
  inv_ok H. eauto.
Qed.

Lemma rmapM_fmap {A B} (f : A → res B) (g : A → B) l ys :
  rmapM f l = Ok ys → Forall (λ x, f x = Ok (g x)) l → ys = g <$> l.
Proof.
  intros H%rmapM_ok Hall. induction H as [|x y l ys Hx _ IH]; [done|].
  apply Forall_cons in Hall as [Hg Hall]. rewrite Hx in Hg. inv_ok Hg.
  cbn. by rewrite IH.
Qed.

(** C9. On any view whose per-row attributes all have [n] entries,
    [subset_condition(None)] returns the view itself; for a Boolean [b],
    [subset_condition(b)] returns a view made of exactly the rows whose
    control flag equals [b], in their order. *)
Theorem subset_condition_restricts (v : SubDataset) n :
  rows_aligned v n →
  subset_condition v None = Ok v ∧
  ∀ b, ∃ v',
    subset_condition v (Some b) = Ok v' ∧
    (∀ i, i ∈ condition_idx v b ↔ controls v !! i = Some b) ∧
    StronglySorted lt (condition_idx v b) ∧
    let mask := (λ c, bool_decide (c = b)) <$> controls v in
    controls v' = filter (λ c, c = b) (controls v) ∧
    Forall (λ c, c = b) (controls v') ∧
    genes v' = select_rows mask (genes v) ∧
    perturbations v' = select_rows mask (perturbations v) ∧
    covariates v' = select_rows mask <$> covariates v ∧
    pert_names v' = select_rows mask (pert_names v) ∧
    doses v' = select_rows mask (doses v) ∧
    cov_names v' = select_rows mask (cov_names v) ∧
    cov_pert v' = select_rows mask (cov_pert v) ∧
    pert_dose v' = select_rows mask (pert_dose v) ∧
    cov_pert_dose v' = select_rows mask (cov_pert_dose v) ∧
    SubDataset_len v' = length (filter (λ c, c = b) (controls v)).
Proof.
  intros Hal. split; [done|]. intros b.
  pose proof Hal as (Hg & Hp & Hc & Hcov & Hpn & Hd & Hcn & Hcp & Hpd & Hcpd).
  set (mask := (λ c, bool_decide (c = b)) <$> controls v).
  assert (length mask = n) as Hmask.
  { unfold mask. by rewrite length_fmap. }
  destruct (SubDataset_init_total v n (condition_idx v b) Hal)
    as [v' Hv'].
  { apply Forall_forall. intros i Hi%np_where_lt. fold mask in Hi. lia. }
  exists v'. split; [done|].
  assert (∀ {A} (l l' : list A), length l = n →
            take_rows l (condition_idx v b) = Ok l' → l' = select_rows mask l)
    as Hsel.
  { intros A l l' Hl Ht. unfold condition_idx in Ht. fold mask in Ht.
    rewrite take_rows_np_where in Ht by lia. by inv_ok Ht. }
  apply SubDataset_init_inv in Hv' as
    ((Hg' & Hp' & Hc' & Hcov' & Hpn' & Hd') & (Hcn' & Hcp' & Hpd' & Hcpd') & _).
  apply Hsel in Hg', Hp', Hc', Hpn', Hd', Hcn', Hcp', Hpd', Hcpd'; try done.
  unfold mask in Hc'. rewrite select_rows_self in Hc'.
  split.
  { intros i. unfold condition_idx. rewrite elem_of_np_where, list_lookup_fmap.
    destruct (controls v !! i) as [c|]; cbn; [|naive_solver].
    split.
    - intros [= Hb]. by apply bool_decide_eq_true_1 in Hb as ->.
    - intros [= ->]. by rewrite bool_decide_eq_true_2. }
  split; [apply where_from_sorted|].
  split; [done|]. split.
  { rewrite Hc'. apply Forall_forall. by intros c [? _]%list_elem_of_filter. }
  split; [done|]. split; [done|]. split.
  { apply (rmapM_fmap _ _ _ _ Hcov'). eapply Forall_impl; [exact Hcov|].
    intros cov Hl. cbn in Hl. unfold condition_idx. fold mask.
    apply take_rows_np_where. lia. }
  repeat (split; [done|]).
  unfold SubDataset_len. rewrite Hg', <-(select_rows_self b).
  apply length_select_rows; fold mask; lia.
Qed.

End views.

(** ** [Dataset.subset] *)

Section subsets.
Context `{F : FloatOps}.
Variable train_test_split : nat → float → Z → list nat * list nat.

Lemma subset_inv (ds : Dataset) split condition (v : SubDataset) :
  subset ds split condition = Ok v →
  ∃ idx, subset_idx ds split condition = Ok idx ∧
         SubDataset_init ds idx = Ok v ∧
         take_rows (genes ds) idx = Ok (genes v).
Proof.
  unfold subset. intros H. inv_bind H. eexists. split; [done|]. split; [done|].
  by apply SubDataset_init_inv in H as [[? _] _].
Qed.


End subsets.

(** ** [SubDataset.__getitem__]: the rejection loop *)

Section sampling.
Context `{F : FloatOps}.

Lemma rejected_spec names name :
  rejected names name = true ↔
  ∃ c, c ∈ names ∧ ∃ pre post, name = pre +:+ c +:+ post.
Proof.
  unfold rejected. rewrite existsb_exists. split.
  - intros (c & Hc%list_elem_of_In & Hs%contains_spec). eauto.
  - intros (c & Hc%list_elem_of_In & Hs%contains_spec). eauto.
Qed.

Lemma rejected_first names name0 :
  names !! 0 = Some name0 → rejected names name0 = true.
Proof.
  intros H. destruct names as [|c names]; [done|]. cbn in H. inv_ok H.
  unfold rejected. cbn. by rewrite contains_refl.
Qed.

Lemma loop_accept names pd name cf_i t :
  rejected names name = false →
  rejection_loop names pd name cf_i t = Done (cf_i, name) t.
Proof. intros H. destruct t; cbn; by rewrite H. Qed.

Lemma loop_step names pd name cf_i r t name' :
  rejected names name = true → pd !! (r mod length pd) = Some name' →
  rejection_loop names pd name cf_i (r :: t)
  = rejection_loop names pd name' (Some (r mod length pd)) t.
Proof.
  intros Hr Hn. cbn [rejection_loop]. rewrite Hr.
  destruct (length pd) eqn:El; [|by rewrite Hn].
  apply lookup_lt_Some in Hn. lia.
Qed.

Lemma loop_starved names pd name cf_i :
  rejected names name = true → pd ≠ [] →
  rejection_loop names pd name cf_i [] = Starved.
Proof. intros Hr Hpd. cbn. rewrite Hr. by destruct pd. Qed.

Lemma loop_empty names name cf_i t :
  rejected names name = true →
  rejection_loop names [] name cf_i t = Threw ValueError.
Proof. intros Hr. destruct t; cbn; by rewrite Hr. Qed.

Lemma mod_lookup {A} (pd : list A) r :
  pd ≠ [] → is_Some (pd !! (r mod length pd)).
Proof.
  intros Hpd. apply lookup_lt_is_Some_2, Nat.mod_upper_bound.
  by destruct pd.
Qed.

(** When every row is rejected, no sequence of draws ends the loop. *)
Lemma loop_never names pd :
  pd ≠ [] → (∀ nm, nm ∈ pd → rejected names nm = true) →
  ∀ t name cf_i, rejected names name = true →
    rejection_loop names pd name cf_i t = Starved.
Proof.
  intros Hpd Hall t. induction t as [|r t IH]; intros name cf_i Hr.
  - by apply loop_starved.
  - destruct (mod_lookup pd r Hpd) as [name' Hn].
    rewrite (loop_step _ _ _ _ _ _ name') by done.
    apply IH, Hall. by eapply list_elem_of_lookup_2.
Qed.

(** The loop returns only a name it accepts: the start name, or the name of
    the row drawn last. *)
Lemma loop_done_inv names pd t :
  ∀ name cf_i c nm t',
    rejection_loop names pd name cf_i t = Done (c, nm) t' →
    rejected names nm = false ∧
    ((c, nm, t') = (cf_i, name, t) ∨
     ∃ j, c = Some j ∧ pd !! j = Some nm ∧ length t' < length t).
Proof.
  induction t as [|r t IH]; intros name cf_i c nm t' H.
  - cbn in H. destruct (rejected names name) eqn:Hr.
    + by destruct (length pd).
    + inv_ok H. split; [done | by left].
  - cbn [rejection_loop] in H. destruct (rejected names name) eqn:Hr.
    + destruct (length pd) eqn:El; [done|]. rewrite <-El in H.
      destruct (pd !! (r mod length pd)) as [name'|] eqn:Hn; [|done].
      apply IH in H as [Hacc [[= -> -> ->] | (j & -> & Hj & Hlt)]].
      * split; [done|]. right. exists (r mod length pd). cbn. eauto with lia.
      * split; [done|]. right. exists j. cbn. eauto with lia.
    + inv_ok H. split; [done | by left].
Qed.

(** The number of rejected draws before an accepted one is not bounded. *)
Lemma loop_unbounded names pd a b na nb :
  pd !! a = Some na → rejected names na = true →
  pd !! b = Some nb → rejected names nb = false →
  ∀ n name cf_i rest, rejected names name = true →
    rejection_loop names pd name cf_i (replicate n a ++ b :: rest)
    = Done (Some b, nb) rest ∧
    rejection_loop names pd name cf_i (replicate n a) = Starved.
Proof.
  intros Ha Hra Hb Hrb.
  assert (pd ≠ []) as Hpd by (by destruct pd).
  pose proof (lookup_lt_Some _ _ _ Ha) as Hla.
  pose proof (lookup_lt_Some _ _ _ Hb) as Hlb.
  induction n as [|n IH]; intros name cf_i rest Hr; cbn [replicate app].
  - split; [|by apply loop_starved].
    rewrite (loop_step _ _ _ _ _ _ nb); rewrite ?Nat.mod_small by done;
      [by apply loop_accept | done | done].
  - rewrite !(loop_step _ _ _ _ _ _ na); rewrite ?Nat.mod_small by done;
      try done.
    by apply IH.
Qed.

Lemma sample_candidate_unfold (v : SubDataset) name0 t :
  control_names v !! 0 = Some name0 →
  sample_candidate v t
  = rejection_loop (control_names v) (pert_dose v) name0 None t.
Proof.
  intros H. unfold sample_candidate, getitem. rewrite H.
  reflexivity.
Qed.

Lemma names_first (names : list string) : names ≠ [] → is_Some (names !! 0).
Proof. destruct names; [done | by eexists]. Qed.

Lemma getitem_unfold (v : SubDataset) i t :
  SubDataset_getitem v i t
  = match sample_candidate v t with
    | Done (cf_i, name) t1 =>
        match sample_cf_genes v i name t1 with
        | Done cf_genes t2 => lift (return_tuple v i cf_genes cf_i) t2
        | Threw e => Threw e
        | Starved => Starved
        end
    | Threw e => Threw e
    | Starved => Starved
    end.
Proof.
  unfold SubDataset_getitem, mbind, rand_bind.
  destruct (sample_candidate v t) as [[cf_i name] t1| |]; reflexivity.
Qed.

Lemma sample_candidate_done (v : SubDataset) t c nm t' :
  sample_candidate v t = Done (c, nm) t' →
  rejected (control_names v) nm = false ∧
  ∃ j, c = Some j ∧ pert_dose v !! j = Some nm ∧ length t' < length t.
Proof.
  intros H. destruct (control_names v !! 0) as [name0|] eqn:E0.
  - rewrite (sample_candidate_unfold _ name0) in H by done.
    apply loop_done_inv in H as [Hacc [[= -> -> ->] | Hj]]; [|done].
    apply rejected_first in E0. congruence.
  - unfold sample_candidate, getitem in H. by rewrite E0 in H.
Qed.

(** C3 (amended). The loop of [__getitem__] accepts a candidate exactly when
    no control name occurs in its [pert_dose] string. The number of its
    iterations has no bound. On a view that has rows, none of them
    acceptable, it never ends, whatever is drawn. On a view without rows the
    first draw raises instead. *)
Theorem rejection_sampling_loop (v : SubDataset) :
  let names := control_names v in
  let pd := pert_dose v in
  (∀ name, rejected names name = true ↔
           ∃ c, c ∈ names ∧ ∃ pre post, name = pre +:+ c +:+ post) ∧
  (∀ name cf_i t, rejected names name = false →
     rejection_loop names pd name cf_i t = Done (cf_i, name) t) ∧
  (∀ name cf_i r t name',
     rejected names name = true → pd !! (r mod length pd) = Some name' →
     rejection_loop names pd name cf_i (r :: t)
     = rejection_loop names pd name' (Some (r mod length pd)) t) ∧
  (∀ t c nm t', sample_candidate v t = Done (c, nm) t' →
     rejected names nm = false ∧
     ∃ j, c = Some j ∧ pd !! j = Some nm ∧ length t' < length t) ∧
  (∀ a b na nb,
     names ≠ [] →
     pd !! a = Some na → rejected names na = true →
     pd !! b = Some nb → rejected names nb = false →
     ∀ n rest,
       sample_candidate v (replicate n a ++ b :: rest) = Done (Some b, nb) rest ∧
       sample_candidate v (replicate n a) = Starved) ∧
  (names ≠ [] → pd ≠ [] → (∀ nm, nm ∈ pd → rejected names nm = true) →
   ∀ t i, sample_candidate v t = Starved ∧ SubDataset_getitem v i t = Starved) ∧
  (names ≠ [] → pd = [] →
   ∀ t i, sample_candidate v t = Threw ValueError ∧
          SubDataset_getitem v i t = Threw ValueError).
Proof.
  intros names pd.
  split; [apply rejected_spec|].
  split; [intros; by apply loop_accept|].
  split; [intros; by apply loop_step|].
  split; [intros; by eapply sample_candidate_done|].
  split.
  { intros a b na nb Hnames Ha Hra Hb Hrb n rest.
    destruct (names_first _ Hnames) as [name0 H0].
    rewrite !(sample_candidate_unfold _ name0) by done.
    eapply loop_unbounded; eauto using rejected_first. }
  split.
  { intros Hnames Hpd Hall t i.
    destruct (names_first _ Hnames) as [name0 H0].
    assert (sample_candidate v t = Starved) as Hs.
    { rewrite (sample_candidate_unfold _ name0) by done.
      apply loop_never; eauto using rejected_first. }
    split; [done|]. by rewrite getitem_unfold, Hs. }
  intros Hnames Hpd t i.
  destruct (names_first _ Hnames) as [name0 H0].
  assert (sample_candidate v t = Threw ValueError) as Hs.
  { rewrite (sample_candidate_unfold _ name0) by done. fold pd. rewrite Hpd.
    apply loop_empty. eauto using rejected_first. }
  split; [done|]. by rewrite getitem_unfold, Hs.
Qed.

Lemma return_tuple_inv (v : SubDataset) i cf_genes cf_i item :
  return_tuple v i cf_genes cf_i = Ok item →
  ∃ j, cf_i = Some j ∧
    genes v !! i = Some (it_genes item) ∧
    perturbations v !! i = Some (it_perturbation item) ∧
    it_cf_genes item = cf_genes ∧
    perturbations v !! j = Some (it_cf_perturbation item) ∧
    Forall2 (λ cov c, cov !! i = Some c) (covariates v) (it_covariates item).
Proof.
  unfold return_tuple. intros H. do 2 inv_bind H.
  destruct cf_i as [j|]; [cbn in H | done]. do 2 inv_bind H. inv_ok H. cbn.
  repeat match goal with E : getitem _ _ = Ok _ |- _ => apply getitem_ok in E end.
  exists j. repeat split; try done.
  match goal with E : rmapM _ _ = Ok _ |- _ => apply rmapM_ok in E end.
  eapply Forall2_impl; [done|]. intros ??. by rewrite getitem_ok.
Qed.

(** C10. [__getitem__] runs the rejection loop and returns the accepted
    candidate's encoding vector whether or not [sample_cf] is set; only the
    counterfactual responses, the third entry, depend on [sample_cf], and
    they are [None] when it is off. *)
Theorem candidate_sampling_not_gated (v : SubDataset) (i : nat) (t : tape) :
  (∀ name0, control_names v !! 0 = Some name0 →
     rejected (control_names v) name0 = true ∧
     sample_candidate v t
     = rejection_loop (control_names v) (pert_dose v) name0 None t) ∧
  (sample_cf v = false →
     SubDataset_getitem v i t
     = match sample_candidate v t with
       | Done (cf_i, _) t1 => lift (return_tuple v i None cf_i) t1
       | Threw e => Threw e
       | Starved => Starved
       end) ∧
  (∀ item t', SubDataset_getitem v i t = Done item t' →
     ∃ cf_i name t1,
       sample_candidate v t = Done (Some cf_i, name) t1 ∧
       length t1 < length t ∧
       rejected (control_names v) name = false ∧
       pert_dose v !! cf_i = Some name ∧
       perturbations v !! cf_i = Some (it_cf_perturbation item) ∧
       genes v !! i = Some (it_genes item) ∧
       perturbations v !! i = Some (it_perturbation item) ∧
       (sample_cf v = false → it_cf_genes item = None ∧ t' = t1)).
Proof.
  split; [|split].
  - intros name0 H0. split; [by apply rejected_first|].
    by apply sample_candidate_unfold.
  - intros Hcf. rewrite getitem_unfold.
    destruct (sample_candidate v t) as [[cf_i name] t1| |]; try done.
    unfold sample_cf_genes. by rewrite Hcf.
  - intros item t' H. rewrite getitem_unfold in H.
    destruct (sample_candidate v t) as [[cf_i name] t1| |] eqn:Hs; try done.
    destruct (sample_candidate_done _ _ _ _ _ Hs) as (Hacc & j & -> & Hj & Hlt).
    destruct (sample_cf_genes v i name t1) as [cf_genes t2| |] eqn:Hg; try done.
    unfold lift in H.
    destruct (return_tuple v i cf_genes (Some j)) as [item'|] eqn:Hr; [|done].
    inv_ok H.
    apply return_tuple_inv in Hr as (j' & [= <-] & Hgi & Hpi & Hcg & Hpj & _).
    exists j, name, t1. do 7 (split; [done|]).
    intros Hcf. unfold sample_cf_genes in Hg. rewrite Hcf in Hg.
    cbv [mret rand_ret] in Hg. by inv_ok Hg.
Qed.

(** *** The grouping index and the counterfactual draws *)

Lemma foldr_insert_lookup {V} (f : string → V) (l : list string) k :
  foldr (λ k m, <[k := f k]> m) (∅ : gmap string V) l !! k
  = if decide (k ∈ l) then Some (f k) else None.
Proof.
  induction l as [|x l IH]; cbn.
  - rewrite lookup_empty. by rewrite decide_False by apply not_elem_of_nil.
  - destruct (decide (x = k)) as [->|Hne].
    + rewrite lookup_insert_eq. rewrite decide_True; [done | by left].
    + rewrite lookup_insert_ne, IH by done.
      destruct (decide (k ∈ l)) as [Hin|Hnin].
      * rewrite decide_True; [done | by right].
      * rewrite decide_False; [done|]. rewrite elem_of_cons.
        intros [?|?]; [congruence | done].
Qed.

Lemma unique_ind_lookup records k :
  unique_ind records !! k
  = if decide (k ∈ records) then Some (positions_of k records) else None.
Proof. apply (foldr_insert_lookup (λ k, positions_of k records)). Qed.

Lemma elem_of_positions_of k records i :
  i ∈ positions_of k records ↔ records !! i = Some k.
Proof.
  unfold positions_of. rewrite elem_of_np_where, list_lookup_fmap.
  destruct (records !! i) as [s|]; cbn; [|naive_solver].
  split.
  - intros [= Hb]. by apply bool_decide_eq_true_1 in Hb as ->.
  - intros [= ->]. by rewrite bool_decide_eq_true_2.
Qed.

Lemma positions_of_nonempty k records :
  k ∈ records → positions_of k records ≠ [].
Proof.
  intros [i Hi]%list_elem_of_lookup_1 Hnil.
  apply elem_of_positions_of in Hi. rewrite Hnil in Hi.
  by apply elem_of_nil in Hi.
Qed.

Lemma choice_cons n r t : n ≠ 0 → choice n (r :: t) = Done (r mod n) t.
Proof. intros Hn. unfold choice. by destruct n. Qed.

(** [size] draws are read off the tape one by one; every pick is decided by
    its own draw alone. *)
Lemma choice_many_draws (group : list nat) draws rest :
  group ≠ [] →
  ∃ picks,
    choice_many group (length draws) (draws ++ rest) = Done picks rest ∧
    Forall2 (λ r p, group !! (r mod length group) = Some p) draws picks.
Proof.
  intros Hne. induction draws as [|r draws (picks & Hc & Hp)].
  - by exists [].
  - destruct (mod_lookup group r Hne) as [p Hr].
    exists (p :: picks). split; [|by constructor].
    cbn [length choice_many app]. unfold mbind, rand_bind.
    rewrite choice_cons by (by destruct group).
    unfold lift, getitem. by rewrite Hr, Hc.
Qed.

(** C5 (amended). With counterfactual sampling enabled and the candidate
    group key present in the grouping index, [min(group size, cf_samples)]
    row positions are drawn from that group independently of each other,
    that is, with replacement, and their response rows are gathered; a row of
    the group may be gathered more than once and another not at all. When the
    key is absent, and when counterfactual sampling is off, the
    counterfactual response is [None]. *)
Theorem counterfactual_responses (a : Attrs) idx (v : SubDataset) i name :
  SubDataset_init a idx = Ok v →
  (sample_cf v = false → ∀ t, sample_cf_genes v i name t = Done None t) ∧
  (sample_cf v = true → ∀ cname, cov_names v !! i = Some cname →
     let cf_name := cname +:+ "_" +:+ name in
     let group := positions_of cf_name (cov_pert_dose v) in
     let size := min (length group) (cf_samples v) in
     (cf_name ∉ cov_pert_dose v →
        ∀ t, sample_cf_genes v i name t = Done None t) ∧
     (cf_name ∈ cov_pert_dose v →
        group ≠ [] ∧
        (∀ p, p ∈ group ↔ cov_pert_dose v !! p = Some cf_name) ∧
        (∀ draws rest, length draws = size →
           ∃ picks rows,
             sample_cf_genes v i name (draws ++ rest) = Done (Some rows) rest ∧
             Forall2 (λ r p, group !! (r mod length group) = Some p) draws picks ∧
             Forall2 (λ p row, genes v !! p = Some row) picks rows) ∧
        (∀ r rest, ∃ p row,
             group !! (r mod length group) = Some p ∧
             genes v !! p = Some row ∧
             sample_cf_genes v i name (replicate size r ++ rest)
             = Done (Some (replicate size row)) rest))).
Proof.
  intros Hv. split.
  { intros Hcf t. unfold sample_cf_genes. by rewrite Hcf. }
  intros Hcf cname Hcn cf_name group size.
  pose proof (SubDataset_init_aligned _ _ _ Hv) as (Hg & _ & _ & _ & _ & _ & _ & _ & _ & Hcpd).
  apply SubDataset_init_inv in Hv as
    (_ & _ & (Hscf & _) & Hidx).
  rewrite <-Hscf, Hcf in Hidx.
  assert (∀ t, sample_cf_genes v i name t
             = match unique_ind (cov_pert_dose v) !! cf_name with
               | Some cf_inds =>
                   (picks ← choice_many cf_inds (min (length cf_inds) (cf_samples v));
                    rows ← lift (take_rows (genes v) picks);
                    mret (Some rows)) t
               | None => Done None t
               end) as Hunfold.
  { intros t. unfold sample_cf_genes. rewrite Hcf, Hidx.
    unfold mbind at 1, rand_bind at 1, lift at 1.
    rewrite (proj2 (getitem_ok _ _ _) Hcn). fold cf_name.
    by destruct (unique_ind (cov_pert_dose v) !! cf_name). }
  split.
  { intros Hnin t. rewrite Hunfold, unique_ind_lookup. by rewrite decide_False. }
  intros Hin.
  assert (group ≠ []) as Hne by (by apply positions_of_nonempty).
  assert (∀ draws rest, length draws = size →
           ∃ picks rows,
             sample_cf_genes v i name (draws ++ rest) = Done (Some rows) rest ∧
             Forall2 (λ r p, group !! (r mod length group) = Some p) draws picks ∧
             Forall2 (λ p row, genes v !! p = Some row) picks rows) as Hdraw.
  { intros draws rest Hlen.
    destruct (choice_many_draws group draws rest Hne) as (picks & Hc & Hp).
    destruct (take_rows_total (genes v) picks) as [rows Hrows].
    { apply Forall_forall. intros p Hp'.
      apply list_elem_of_lookup_1 in Hp' as [k Hk].
      destruct (Forall2_lookup_r _ _ _ _ _ Hp Hk) as (r & _ & Hr).
      apply list_elem_of_lookup_2, elem_of_positions_of, lookup_lt_Some in Hr.
      lia. }
    exists picks, rows. split; [|split; [done | by apply take_rows_ok]].
    rewrite Hunfold, unique_ind_lookup, decide_True by done.
    fold group size. rewrite <-Hlen.
    unfold mbind at 1, rand_bind at 1. rewrite Hc.
    unfold mbind, rand_bind, lift. by rewrite Hrows. }
  split; [done|]. split; [apply elem_of_positions_of|]. split; [done|].
  intros r rest.
  destruct (Hdraw (replicate size r) rest) as (picks & rows & Hs & Hp & Hrows).
  { apply length_replicate. }
  destruct (mod_lookup group r Hne) as [p Hr].
  assert (picks = replicate size p) as ->.
  { clear -Hp Hr. revert picks Hp. induction size as [|n IH]; intros picks Hp.
    - by inversion Hp.
    - inversion Hp as [|? p' ? picks' Hp' Hrest]; subst. cbn.
      rewrite Hr in Hp'. inv_ok Hp'. by rewrite (IH picks'). }
  destruct (lookup_lt_is_Some_2 (genes v) p) as [row Hrow].
  { apply list_elem_of_lookup_2, elem_of_positions_of, lookup_lt_Some in Hr.
    lia. }
  exists p, row. split; [done|]. split; [done|].
  rewrite Hs. do 2 f_equal.
  clear -Hrows Hrow. revert rows Hrows.
  induction size as [|n IH]; intros rows Hrows.
  - by inversion Hrows.
  - inversion Hrows as [|? row' ? rows' Hrow' Hrest]; subst. cbn.
    rewrite Hrow in Hrow'. inv_ok Hrow'. by rewrite (IH rows').
Qed.

End sampling.

(** ** Sorted distinct values *)

Lemma str_lt_trans a b c : str_lt a b → str_lt b c → str_lt a c.
Proof.
  unfold str_lt.
  rewrite !(OrderedTypeEx.String_as_OT.cmp_lt).
  apply OrderedTypeEx.String_as_OT.lt_trans.
Qed.

Lemma str_lt_irrefl a : ¬ str_lt a a.
Proof.
  unfold str_lt. intros H.
  assert (String.compare a a = Eq) as E.
  { by apply OrderedTypeEx.String_as_OT.cmp_eq. }
  congruence.
Qed.

Lemma str_lt_flip a b : String.compare a b = Gt → str_lt b a.
Proof.
  unfold str_lt. intros H. rewrite String.compare_antisym, H. done.
Qed.

Lemma insert_sorted_sorted x l :
  StronglySorted str_lt l → StronglySorted str_lt (insert_sorted x l).
Proof.
  induction 1 as [|y l Hl IH Hy]; cbn; [repeat constructor|].
  destruct (String.compare x y) eqn:E.
  - by constructor.
  - constructor; [by constructor|]. constructor; [done|].
    eapply Forall_impl; [done|]. intros z Hz. by eapply str_lt_trans.
  - constructor; [done|]. apply Forall_forall.
    intros z [->|Hz]%elem_of_insert_sorted; [by apply str_lt_flip|].
    by eapply Forall_forall in Hy.
Qed.

Lemma np_unique_ascending l : StronglySorted str_lt (np_unique l).
Proof.
  induction l as [|x l IH]; cbn; [constructor|]. by apply insert_sorted_sorted.
Qed.

Lemma sorted_NoDup l : StronglySorted str_lt l → NoDup l.
Proof.
  induction 1 as [|y l Hl IH Hy]; constructor; [|done].
  intros Hin. eapply Forall_forall in Hy; [|done]. by apply str_lt_irrefl in Hy.
Qed.

Lemma NoDup_np_unique l : NoDup (np_unique l).
Proof. apply sorted_NoDup, np_unique_ascending. Qed.

(** Two strictly ascending lists with the same members are the same list. *)
Lemma sorted_ext l1 l2 :
  StronglySorted str_lt l1 → StronglySorted str_lt l2 →
  (∀ x, x ∈ l1 ↔ x ∈ l2) → l1 = l2.
Proof.
  intros H1. revert l2. induction H1 as [|a l1 H1 IH Ha]; intros l2 H2 Hext.
  - destruct l2 as [|b l2]; [done|].
    assert (b ∈ []) as Hb by (apply Hext; left). by apply elem_of_nil in Hb.
  - destruct H2 as [|b l2 H2 Hb].
    { assert (a ∈ []) as Hx by (apply Hext; left). by apply elem_of_nil in Hx. }
    assert (a = b) as ->.
    { assert (a ∈ b :: l2) as Ha2 by (apply Hext; left).
      assert (b ∈ a :: l1) as Hb1 by (apply Hext; left).
      apply elem_of_cons in Ha2 as [?|Ha2]; [done|].
      apply elem_of_cons in Hb1 as [?|Hb1]; [done|].
      eapply Forall_forall in Ha; [|done]. eapply Forall_forall in Hb; [|done].
      destruct (str_lt_irrefl a). by eapply str_lt_trans. }
    f_equal. apply IH; [done|]. intros x. split; intros Hx.
    + assert (x ∈ b :: l2) as Hx2 by (apply Hext; by right).
      apply elem_of_cons in Hx2 as [->|?]; [|done].
      eapply Forall_forall in Ha; [|done]. by apply str_lt_irrefl in Ha.
    + assert (x ∈ b :: l1) as Hx1 by (apply Hext; by right).
      apply elem_of_cons in Hx1 as [->|?]; [|done].
      eapply Forall_forall in Hb; [|done]. by apply str_lt_irrefl in Hb.
Qed.

Lemma elem_of_select_rows {A} mask (a : list A) x :
  x ∈ select_rows mask a ↔ ∃ i, mask !! i = Some true ∧ a !! i = Some x.
Proof.
  unfold select_rows. rewrite list_elem_of_fmap. split.
  - intros ([b y] & -> & Hin). apply list_elem_of_filter in Hin as [Hb Hin].
    cbn in Hb. subst b. apply list_elem_of_lookup in Hin as [i Hi].
    apply lookup_zip_with_Some in Hi as (b & y' & [= <- <-] & Hm & Ha). eauto.
  - intros (i & Hm & Ha). exists (true, x). split; [done|].
    apply list_elem_of_filter. split; [done|].
    apply list_elem_of_lookup. exists i.
    apply lookup_zip_with_Some. eauto.
Qed.

Lemma dict_zip_acc_Some {V} (m : gmap string V) (kvs : list (string * V)) k v :
  foldl (λ m kv, <[kv.1 := kv.2]> m) m kvs !! k = Some v →
  m !! k = Some v ∨ (k, v) ∈ kvs.
Proof.
  revert m. induction kvs as [|[k' v'] kvs IH]; intros m H; cbn in *; [by left|].
  apply IH in H as [H|H]; [|right; by right].
  destruct (decide (k' = k)) as [->|Hne].
  - rewrite lookup_insert_eq in H. injection H as ->. right. left.
  - rewrite lookup_insert_ne in H by done. by left.
Qed.

Lemma dict_zip_lookup_Some {V} (keys : list string) (values : list V) k v :
  dict_zip keys values !! k = Some v →
  ∃ i, keys !! i = Some k ∧ values !! i = Some v.
Proof.
  intros [H|H]%dict_zip_acc_Some; [by rewrite lookup_empty in H|].
  apply list_elem_of_lookup in H as [i Hi].
  apply lookup_zip_with_Some in Hi as (k' & v' & [= <- <-] & ? & ?). eauto.
Qed.

(** ** Covariates and composite keys *)

Section covariates.
Context `{F : FloatOps}.
Variable train_test_split : nat → float → Z → list nat * list nat.

Lemma encode_covariate_inv data cov enc :
  encode_covariate data cov = Ok enc →
  let names := np_unique (ce_values enc) in
  obs data !! cov = Some (VStr <$> ce_values enc) ∧
  ce_dict enc = dict_zip names (seq 0 (length names)) ∧
  ce_count enc = length names ∧
  Forall2 (λ v k, names !! k = Some v) (ce_values enc) (ce_index enc).
Proof.
  intros H. unfold encode_covariate, get_obs in H.
  destruct (obs data !! cov) as [col|] eqn:Ecol; [cbn in H | done].
  inv_bind H. rename x into values. inv_bind H. rename x into index.
  inv_bind H. inv_stack. inv_ok H. cbn. repeat split.
  - f_equal. apply rmapM_ok in E. clear -E.
    induction E as [|v s col values Hv _ IH]; [done|].
    apply as_str_ok in Hv as ->. cbn. by rewrite IH.
  - apply rmapM_ok in E0. eapply Forall2_impl; [done|].
    intros v k Hk. cbn in Hk. unfold lookup_key in Hk.
    destruct (dict_zip _ _ !! v) as [k'|] eqn:Ed; [|done]. inv_ok Hk.
    apply dict_zip_lookup_Some in Ed as (i & Hi & Hs).
    apply lookup_seq in Hs as [-> _]. done.
Qed.

(** The covariate part of a successful [Dataset_build], and its keys row
    by row. *)
Lemma Dataset_build_covs data keys scf cfs ds :
  Dataset_build data keys scf cfs = Ok ds →
  ∃ encs,
    (covariate_keys ds = k_covariates keys ∧
     NoDup (k_covariates keys) ∧
     rmapM (encode_covariate data) (k_covariates keys) = Ok encs) ∧
    (covariates ds = ce_index <$> encs ∧
     covars_dict ds = dict_zip (k_covariates keys) (ce_dict <$> encs) ∧
     num_covariates ds = ce_count <$> encs ∧
     num_outcomes ds = n_vars data) ∧
    length (pert_dose ds) = n_obs data ∧
    keys_consistent ds.
Proof.
  unfold Dataset_build, get_obs. intros H.
  destruct (obs data !! k_control keys) as [control_col|]; [cbn in H | done].
  destruct (obs data !! k_split keys) as [split_col|]; [cbn in H | done].
  destruct (obs data !! k_perturbation keys) as [pert_col|]; [cbn in H | done].
  destruct (obs data !! k_dose keys) as [dose_values|]; [cbn in H | done].
  inv_bind H. rename x into names. inv_bind H. rename x into encoded.
  inv_bind H. inv_stack.
  destruct (bool_decide (NoDup (k_covariates keys))) eqn:Hnd; [cbn in H | done].
  apply bool_decide_eq_true in Hnd.
  inv_bind H. rename x into encs.
  inv_bind H. rename x into cp. inv_bind H. rename x into pd.
  inv_bind H. rename x into cpd. inv_ok H. cbn.
  exists encs. repeat split; try done.
  - by eapply key_rows_length.
  - unfold keys_consistent. cbn. intros i s Hs.
    assert (i < n_obs data) as Hi.
    { apply lookup_lt_Some in Hs. by erewrite key_rows_length in Hs. }
    assert (pert_col = VStr <$> names) as ->.
    { apply rmapM_ok in E. clear -E.
      induction E as [|v s' col names' Hv _ IH]; [done|].
      apply as_str_ok in Hv as ->. cbn. by rewrite IH. }
    destruct (key_rows_lookup _ _ _ _ i E2 Hi) as (cn & p & Hcn & Hp & Hcp).
    destruct (key_rows_lookup _ _ _ _ i E3 Hi) as (p' & d & Hp' & Hd & Hpd).
    destruct (key_rows_lookup _ _ _ _ i E4 Hi) as (cn' & pd' & Hcn' & Hpd' & Hcpd).
    rewrite Hcn in Hcn'. inv_ok Hcn'.
    rewrite Hp in Hp'. inv_ok Hp'.
    apply getitem_ok in Hcn, Hpd'. rewrite Hpd in Hpd'. inv_ok Hpd'.
    rewrite Hs in Hpd. inv_ok Hpd.
    destruct (getitem (VStr <$> names) i) as [v|] eqn:Ev; [|done].
    cbn in Hp. inv_ok Hp.
    apply getitem_ok in Ev. rewrite list_lookup_fmap in Ev.
    destruct (names !! i) as [nm|] eqn:Enm; [|done]. cbn in Ev. inv_ok Ev.
    destruct (getitem dose_values i) as [dv|] eqn:Edv; [|done].
    cbn in Hd. inv_ok Hd. apply getitem_ok in Edv.
    exists cn', nm, dv. cbn in *. done.
Qed.

Lemma take_rows_lookup {A} (a : list A) idx rows j i :
  take_rows a idx = Ok rows → idx !! j = Some i → rows !! j = a !! i.
Proof.
  intros H%take_rows_ok Hj.
  destruct (Forall2_lookup_l _ _ _ _ _ H Hj) as (r & Hr & Ha). congruence.
Qed.

Lemma take_rows_lookup_r {A} (a : list A) idx rows j r :
  take_rows a idx = Ok rows → rows !! j = Some r →
  ∃ i, idx !! j = Some i ∧ a !! i = Some r.
Proof.
  intros H%take_rows_ok Hj.
  destruct (Forall2_lookup_r _ _ _ _ _ H Hj) as (i & Hi & Ha). eauto.
Qed.

(** A view keeps the composite keys in step with its rows. *)
Lemma SubDataset_init_keys (a : Attrs) idx (v : SubDataset) :
  keys_consistent a → SubDataset_init a idx = Ok v → keys_consistent v.
Proof.
  intros Ha Hv.
  destruct (SubDataset_init_inv _ _ _ Hv) as
    ((_ & _ & _ & _ & Hpn & Hd) & (Hcn & Hcp & Hpd & Hcpd) & _).
  intros j s Hs.
  destruct (take_rows_lookup_r _ _ _ _ _ Hpd Hs) as (i & Hi & Hsi).
  destruct (Ha _ _ Hsi) as (cn & p & d & (H1 & H2 & H3) & H4 & H5 & H6).
  exists cn, p, d.
  rewrite (take_rows_lookup _ _ _ _ _ Hcn Hi), (take_rows_lookup _ _ _ _ _ Hpn Hi),
    (take_rows_lookup _ _ _ _ _ Hd Hi), (take_rows_lookup _ _ _ _ _ Hcp Hi),
    (take_rows_lookup _ _ _ _ _ Hcpd Hi).
  done.
Qed.

End covariates.

(** ** Field resolution, step by step *)

Section fields.
Context `{F : FloatOps}.
Variable train_test_split : nat → float → Z → list nat * list nat.

Lemma resolve_fields_steps d pk ck dk covs sk ratio seed d' keys :
  resolve_fields train_test_split d pk ck dk covs sk ratio seed = Ok (d', keys) ↔
  ∃ d1 d2,
    (resolve_perturbation d pk = Ok (k_perturbation keys) ∧
     resolve_control d ck = Ok (k_control keys)) ∧
    resolve_dose d dk = Ok (d1, k_dose keys) ∧
    resolve_covariates d1 covs = Ok (d2, k_covariates keys) ∧
    resolve_split train_test_split d2 sk ratio seed = Ok (d', k_split keys).
Proof.
  unfold resolve_fields. split.
  - intros H. do 5 inv_bind H. inv_ok H. cbn. eauto 10.
  - intros (d1 & d2 & [H1 H2] & H3 & H4 & H5).
    rewrite H1. cbn. rewrite H2. cbn. rewrite H3. cbn. rewrite H4. cbn.
    rewrite H5. cbn. by destruct keys.
Qed.

Lemma resolve_dose_frame d key d' k :
  resolve_dose d key = Ok (d', k) →
  uns_fields d' = uns_fields d ∧ n_obs d' = n_obs d ∧
  ∀ c, c ≠ "dummy_dose" → obs d' !! c = obs d !! c.
Proof.
  unfold resolve_dose. intros H.
  destruct (registered d key).
  - inv_bind H. by inv_ok H.
  - destruct key as [k0|].
    + destruct (has_column d (Some k0)); [|done]. by inv_ok H.
    + inv_ok H. cbn. repeat split. intros c Hc. by rewrite lookup_insert_ne.
Qed.

Lemma resolve_covariates_frame d arg d' ks :
  resolve_covariates d arg = Ok (d', ks) →
  uns_fields d' = uns_fields d ∧ n_obs d' = n_obs d ∧
  ∀ c, c ≠ "dummy_covar" → obs d' !! c = obs d !! c.
Proof.
  unfold resolve_covariates. intros H.
  destruct (cov_registered d arg); [by inv_ok H|].
  destruct (cov_absent arg).
  - inv_ok H. cbn. repeat split. intros c Hc. by rewrite lookup_insert_ne.
  - inv_bind H. by inv_ok H.
Qed.

Lemma resolve_split_frame d key ratio seed d' k :
  resolve_split train_test_split d key ratio seed = Ok (d', k) →
  uns_fields d' = uns_fields d ∧ n_obs d' = n_obs d ∧
  ∀ c, c ≠ "split" → obs d' !! c = obs d !! c.
Proof.
  unfold resolve_split. intros H.
  destruct (registered d key).
  - inv_bind H. by inv_ok H.
  - destruct key as [k0|].
    + destruct (has_column d (Some k0)); [|done]. by inv_ok H.
    + destruct (train_test_split _ _ _) as [idx_train idx_test]. inv_ok H.
      cbn. repeat split. intros c Hc. by rewrite lookup_insert_ne.
Qed.

Lemma assert_columns_ok d keys :
  assert_columns d keys = Ok tt ↔ Forall (λ k, has_column d (Some k) = true) keys.
Proof.
  induction keys as [|k keys IH]; cbn [assert_columns]; [done|].
  rewrite Forall_cons. destruct (has_column d (Some k)); [|split; [done|]].
  - rewrite IH. naive_solver.
  - by intros [? _].
Qed.

Lemma resolve_covariates_list d l d' ks :
  l ≠ [] → resolve_covariates d (CovList l) = Ok (d', ks) →
  d' = d ∧ ks = l ∧ Forall (λ k, has_column d (Some k) = true) l.
Proof.
  intros Hl H. unfold resolve_covariates in H. cbn in H.
  rewrite bool_decide_eq_false_2 in H by done.
  destruct (assert_columns d l) as [[]|] eqn:E; [|done]. cbn in H. inv_ok H.
  by apply assert_columns_ok in E.
Qed.

Lemma resolve_covariates_list_ok d l :
  l ≠ [] → Forall (λ k, has_column d (Some k) = true) l →
  resolve_covariates d (CovList l) = Ok (d, l).
Proof.
  intros Hl H. unfold resolve_covariates. cbn.
  rewrite bool_decide_eq_false_2 by done.
  apply assert_columns_ok in H. by rewrite H.
Qed.

End fields.

(** ** Control names, covariate codes and composite keys of a dataset *)

Section vocabularies.
Context `{F : FloatOps}.
Variable train_test_split : nat → float → Z → list nat * list nat.

#[local] Instance VStr_inj : Inj (=) (=) VStr.
Proof. by intros s1 s2 [=]. Qed.

Lemma np_unique_replicate n s : np_unique (replicate (S n) s) = [s].
Proof.
  induction n as [|n IH]; [done|].
  change (np_unique (replicate (S (S n)) s))
    with (insert_sorted s (np_unique (replicate (S n) s))).
  rewrite IH. cbn.
  assert (String.compare s s = Eq) as ->; [|done].
  by apply OrderedTypeEx.String_as_OT.cmp_eq.
Qed.

Lemma join_singleton sep x : join sep [x] = x.
Proof. done. Qed.

(** X1 (lines 104-106). The control names of a constructed dataset are the
    perturbation names found on the rows whose control flag equals 1, each
    once and in strictly ascending order; on a well-formed table there is no
    control name exactly when the [control] index list is empty. *)
Theorem control_names_ascending data pk ck dk covs sk ratio seed scf cfs ds :
  wf_data data →
  Dataset_init train_test_split data pk ck dk covs sk ratio seed scf cfs = Ok ds →
  ∃ flags,
    (∃ data' keys,
       resolve_fields train_test_split data pk ck dk covs sk ratio seed
         = Ok (data', keys) ∧
       obs data' !! control_key ds = Some flags) ∧
    StronglySorted str_lt (control_names ds) ∧
    NoDup (control_names ds) ∧
    (∀ c, c ∈ control_names ds ↔
          ∃ i f, flags !! i = Some f ∧ eq_one f = true ∧
                 pert_names ds !! i = Some c) ∧
    (control_names ds = [] ↔ indices ds !! "control" = Some []).
Proof.
  intros Hwf Hinit.
  destruct (Dataset_init_inv _ _ _ _ _ _ _ _ _ _ _ _ Hinit)
    as (data' & keys & Hres & Hbuild).
  destruct (resolve_fields_wf _ _ _ _ _ _ _ _ _ _ _ Hwf Hres) as [Hwf' Hn].
  pose proof (Dataset_build_aligned _ _ _ _ _ Hwf' Hbuild)
    as (_ & _ & _ & _ & Hlen & _).
  destruct (Dataset_build_inv _ _ _ _ _ Hbuild) as
    (flags & split_col & pert_col & encs & (Hc & _) & (Hck & _) & _ &
     (_ & Hctl & _) & (Hnames & _) & _).
  pose proof (proj1 Hwf' _ _ Hc) as Hflags.
  assert (∀ c, c ∈ control_names ds ↔
            ∃ i f, flags !! i = Some f ∧ eq_one f = true ∧
                   pert_names ds !! i = Some c) as Hin.
  { intros c. rewrite Hnames, elem_of_np_unique, elem_of_select_rows.
    split.
    - intros (i & Hm & Hp). rewrite list_lookup_fmap in Hm.
      destruct (flags !! i) as [f|] eqn:Ef; [|done].
      injection Hm as Hm. by exists i, f.
    - intros (i & f & Hf & Hone & Hp). exists i.
      by rewrite list_lookup_fmap, Hf; cbn; rewrite Hone. }
  exists flags. split; [exists data', keys; by rewrite Hck|].
  split; [rewrite Hnames; apply np_unique_ascending|].
  split; [rewrite Hnames; apply NoDup_np_unique|].
  split; [exact Hin|].
  rewrite Hctl. split.
  - intros Hnil. f_equal.
    destruct (np_where (eq_one <$> flags)) as [|i l] eqn:Ew; [done|].
    assert (i ∈ np_where (eq_one <$> flags)) as Hi by (rewrite Ew; left).
    apply elem_of_np_where in Hi. rewrite list_lookup_fmap in Hi.
    destruct (flags !! i) as [f|] eqn:Ef; [|done]. injection Hi as Hi.
    destruct (lookup_lt_is_Some_2 (pert_names ds) i) as [c Hcn].
    { apply lookup_lt_Some in Ef. lia. }
    assert (c ∈ control_names ds) as Hcin by (apply Hin; eauto).
    rewrite Hnil in Hcin. by apply elem_of_nil in Hcin.
  - intros [= Hw].
    destruct (control_names ds) as [|c l] eqn:Ec; [done|].
    assert (c ∈ c :: l) as Hcin by left.
    apply Hin in Hcin as (i & f & Hf & Hone & _).
    assert (i ∈ np_where (eq_one <$> flags)) as Hi.
    { apply elem_of_np_where. by rewrite list_lookup_fmap, Hf; cbn; rewrite Hone. }
    rewrite Hw in Hi. by apply elem_of_nil in Hi.
Qed.

(** X2 (lines 141-163). For every covariate key of a constructed dataset the
    category names are the sorted distinct values of its column, the
    dictionary sends each name to its place in that order, and the stored
    index of a row is the code of the row's value: decoding it gives the
    value back. *)
Theorem covariate_codes_round_trip data pk ck dk covs sk ratio seed scf cfs ds :
  Dataset_init train_test_split data pk ck dk covs sk ratio seed scf cfs = Ok ds →
  ∃ data' keys,
    resolve_fields train_test_split data pk ck dk covs sk ratio seed
      = Ok (data', keys) ∧
    covariate_keys ds = k_covariates keys ∧
    NoDup (covariate_keys ds) ∧
    length (covariates ds) = length (covariate_keys ds) ∧
    length (num_covariates ds) = length (covariate_keys ds) ∧
    ∀ j c, covariate_keys ds !! j = Some c →
      ∃ values index dict,
        let names := np_unique values in
        (obs data' !! c = Some (VStr <$> values) ∧
         covariates ds !! j = Some index ∧
         covars_dict ds !! c = Some dict ∧
         num_covariates ds !! j = Some (length names)) ∧
        StronglySorted str_lt names ∧
        (∀ v, v ∈ names ↔ v ∈ values) ∧
        (∀ v k, dict !! v = Some k ↔ names !! k = Some v) ∧
        Forall2 (λ v k, names !! k = Some v ∧ dict !! v = Some k) values index.
Proof.
  intros Hinit.
  destruct (Dataset_init_inv _ _ _ _ _ _ _ _ _ _ _ _ Hinit)
    as (data' & keys & Hres & Hbuild).
  destruct (Dataset_build_covs _ _ _ _ _ Hbuild)
    as (encs & (Hck & Hnd & Hencs) & (Hcov & Hdict & Hnum & _) & _).
  pose proof (rmapM_length _ _ _ Hencs) as Hlen.
  exists data', keys. split; [done|]. split; [done|].
  split; [by rewrite Hck|].
  split; [by rewrite Hcov, Hck, length_fmap|].
  split; [by rewrite Hnum, Hck, length_fmap|].
  intros j c Hj. rewrite Hck in Hj.
  destruct (rmapM_lookup _ _ _ _ _ Hencs Hj) as (enc & Henc & Hc).
  destruct (encode_covariate_inv _ _ _ Hc) as (Hcol & Hd & Hcount & Hidx).
  assert (∀ v k, ce_dict enc !! v = Some k ↔
                 np_unique (ce_values enc) !! k = Some v) as Hcode.
  { intros v k. rewrite Hd. split.
    - intros (i & Hi & Hs)%dict_zip_lookup_Some.
      apply lookup_seq in Hs as [-> _]. done.
    - intros Hk. eapply dict_zip_lookup; [apply NoDup_np_unique | done |].
      apply lookup_seq. split; [done|]. by apply lookup_lt_Some in Hk. }
  exists (ce_values enc), (ce_index enc), (ce_dict enc). cbn.
  split; [|split; [apply np_unique_ascending|split; [intros v; apply elem_of_np_unique|]]].
  - split; [done|]. split; [by rewrite Hcov, list_lookup_fmap, Henc|].
    split; [|by rewrite Hnum, list_lookup_fmap, Henc, <-Hcount].
    rewrite Hdict. eapply dict_zip_lookup; [done..|].
    by rewrite list_lookup_fmap, Henc.
  - split; [done|]. eapply Forall2_impl; [done|].
    intros v k Hk. split; [done|]. by apply Hcode.
Qed.

(** X3 (lines 141-143). A list of covariate keys that repeats a key never
    gives a dataset; when the same call with the repetitions removed
    succeeds, the call with them raises [ValueError]. *)
Theorem duplicate_covariate_keys data pk ck dk l sk ratio seed scf cfs :
  ¬ NoDup l →
  fails (Dataset_init train_test_split data pk ck dk (CovList l) sk
           ratio seed scf cfs) ∧
  (is_ok (Dataset_init train_test_split data pk ck dk (CovList (remove_dups l))
            sk ratio seed scf cfs) →
   Dataset_init train_test_split data pk ck dk (CovList l) sk ratio seed scf cfs
   = Raise ValueError).
Proof.
  intros Hdup.
  assert (l ≠ []) as Hl by (intros ->; apply Hdup; constructor).
  split.
  - apply fails_not_ok. intros [ds Hinit].
    destruct (Dataset_init_inv _ _ _ _ _ _ _ _ _ _ _ _ Hinit)
      as (data' & keys & Hres & Hbuild).
    apply resolve_fields_steps in Hres as (d1 & d2 & _ & _ & Hcovs & _).
    apply resolve_covariates_list in Hcovs as (_ & Hks & _); [|done].
    destruct (Dataset_build_covs _ _ _ _ _ Hbuild) as (encs & (_ & Hnd & _) & _).
    apply Hdup. by rewrite <-Hks.
  - intros [ds Hinit].
    destruct (Dataset_init_inv _ _ _ _ _ _ _ _ _ _ _ _ Hinit)
      as (data' & keys & Hres & Hbuild).
    apply resolve_fields_steps in Hres
      as (d1 & d2 & Hpc & Hdose & Hcovs & Hsplit).
    assert (remove_dups l ≠ []) as Hl'.
    { destruct l as [|x l]; [done|]. intros Hnil.
      assert (x ∈ remove_dups (x :: l)) as Hx by (apply elem_of_remove_dups; left).
      rewrite Hnil in Hx. by apply elem_of_nil in Hx. }
    apply resolve_covariates_list in Hcovs as (-> & Hks & Hcols); [|done].
    pose (keys' := {| k_perturbation := k_perturbation keys;
                      k_control := k_control keys; k_dose := k_dose keys;
                      k_covariates := l; k_split := k_split keys |}).
    assert (resolve_fields train_test_split data pk ck dk (CovList l) sk ratio seed
            = Ok (data', keys')) as Hres'.
    { apply resolve_fields_steps. exists d1, d1. split; [done|]. split; [done|].
      split; [|done]. apply resolve_covariates_list_ok; [done|].
      apply Forall_forall. intros k Hk.
      eapply Forall_forall in Hcols; [done|]. by apply elem_of_remove_dups. }
    unfold Dataset_init. rewrite Hres'. cbn.
    revert Hbuild. unfold Dataset_build. cbn.
    destruct (get_obs data' (k_control keys)); [cbn | done].
    destruct (get_obs data' (k_split keys)); [cbn | done].
    destruct (get_obs data' (k_perturbation keys)); [cbn | done].
    destruct (get_obs data' (k_dose keys)); [cbn | done].
    destruct (rmapM (as_str AttributeError) _); [cbn | done].
    destruct (encode_all _ _ _); [cbn | done].
    destruct (torch_stack _); [cbn | done].
    intros _. by rewrite bool_decide_eq_false_2.
Qed.

(** X4 (lines 173-186, 239-242). In a constructed dataset, in every view
    [subset] gives and in every view [subset_condition] derives from one,
    the three composite keys of a row are put together from the covariate
    name, the perturbation name and the dose of that row. *)
Theorem composite_keys_row_by_row data pk ck dk covs sk ratio seed scf cfs ds :
  Dataset_init train_test_split data pk ck dk covs sk ratio seed scf cfs = Ok ds →
  keys_consistent ds ∧
  ∀ split condition v, subset ds split condition = Ok v →
    keys_consistent v ∧
    ∀ control v', subset_condition v control = Ok v' → keys_consistent v'.
Proof.
  intros Hinit.
  destruct (Dataset_init_inv _ _ _ _ _ _ _ _ _ _ _ _ Hinit)
    as (data' & keys & Hres & Hbuild).
  destruct (Dataset_build_covs _ _ _ _ _ Hbuild) as (encs & _ & _ & _ & Hkeys).
  split; [done|]. intros split condition v Hv.
  destruct (subset_inv _ _ _ _ Hv) as (idx & _ & Hview & _).
  assert (keys_consistent v) as Hkv by by eapply SubDataset_init_keys.
  split; [done|]. intros [b|] v' Hv'; cbn in Hv'.
  - by eapply SubDataset_init_keys.
  - by inv_ok Hv'.
Qed.

(** X5 (lines 64-67, 148-163). When no covariate key is given, the one
    covariate of the constructed dataset is the added column: every row has
    the covariate name "dummy-covar" and code 0, and every composite key of
    a row starts with that name. *)
Theorem dummy_covariate_fallback data pk ck dk covs sk ratio seed scf cfs ds :
  cov_registered data covs = None → cov_absent covs = true →
  Dataset_init train_test_split data pk ck dk covs sk ratio seed scf cfs = Ok ds →
  let n := n_obs data in
  covariate_keys ds = ["dummy_covar"] ∧
  cov_names ds = replicate n "dummy-covar" ∧
  covariates ds = [replicate n 0] ∧
  (0 < n → num_covariates ds = [1] ∧
           covars_dict ds = {["dummy_covar" := {["dummy-covar" := 0]}]}) ∧
  (∀ i pd, pert_dose ds !! i = Some pd →
           cov_pert_dose ds !! i = Some ("dummy-covar_" +:+ pd)).
Proof.
  intros Hreg Habs Hinit n.
  destruct (Dataset_init_inv _ _ _ _ _ _ _ _ _ _ _ _ Hinit)
    as (data' & keys & Hres & Hbuild).
  apply resolve_fields_steps in Hres as (d1 & d2 & _ & Hdose & Hcovs & Hsplit).
  apply resolve_dose_frame in Hdose as (Huns & Hn1 & _).
  apply resolve_split_frame in Hsplit as (_ & Hn2 & Hobs).
  assert (cov_registered d1 covs = None) as Hreg1.
  { unfold cov_registered in *. by rewrite Huns. }
  unfold resolve_covariates in Hcovs. rewrite Hreg1, Habs in Hcovs.
  injection Hcovs as <- Hks.
  destruct (Dataset_build_covs _ _ _ _ _ Hbuild)
    as (encs & (Hck & _ & Hencs) & (Hcov & Hdict & Hnum & _) & _ & Hkeys).
  destruct (Dataset_build_inv _ _ _ _ _ Hbuild) as
    (_ & _ & _ & encs' & _ & _ & _ & _ & _ & (Hencs' & _ & Hcn & _)).
  rewrite Hencs in Hencs'. injection Hencs' as <-.
  rewrite <-Hks in *. cbn in Hencs.
  destruct (encode_covariate data' "dummy_covar") as [enc|] eqn:Eenc; [|done].
  cbn in Hencs. injection Hencs as <-.
  destruct (encode_covariate_inv _ _ _ Eenc) as (Hcol & Hd & Hcount & Hidx).
  rewrite Hobs in Hcol by done. cbn in Hcol, Hn2.
  rewrite lookup_insert_eq in Hcol. injection Hcol as Hcol.
  rewrite Hn1 in Hcol. fold n in Hcol.
  rewrite <-(fmap_replicate VStr) in Hcol. apply (inj (fmap VStr)) in Hcol.
  assert (cov_names ds = replicate n "dummy-covar") as Hnames.
  { rewrite Hcn. cbn. rewrite <-list_fmap_compose, <-Hcol.
    rewrite <-(list_fmap_id (replicate n _)) at 2. by apply list_fmap_ext. }
  assert (ce_index enc = replicate n 0) as Hzero.
  { rewrite <-Hcol in Hidx. clear -Hidx. destruct n as [|n].
    - by apply Forall2_nil_inv_l in Hidx.
    - rewrite np_unique_replicate in Hidx.
      apply Forall2_length in Hidx as Hlen. rewrite length_replicate in Hlen.
      apply (list_eq_same_length _ _ (S n)); [by rewrite length_replicate | done|].
      intros i x y Hi Hx Hy. apply lookup_replicate in Hy as [-> _].
      destruct (Forall2_lookup_r _ _ _ _ _ Hidx Hx) as (v & _ & Hv).
      destruct x; [done|]. by rewrite lookup_cons in Hv. }
  split; [by rewrite Hck|]. split; [done|].
  split; [by rewrite Hcov; cbn; rewrite Hzero|]. split.
  - intros Hpos. rewrite Hnum, Hdict. cbn. rewrite Hcount, Hd, <-Hcol.
    destruct n as [|n']; [lia|]. by rewrite np_unique_replicate.
  - intros i pd Hpd.
    destruct (Hkeys _ _ Hpd) as (cn & p & d & (Hcni & _) & _ & _ & Hcpd).
    rewrite Hnames in Hcni. apply lookup_replicate in Hcni as [-> _]. done.
Qed.

End vocabularies.

(** ** Views of views *)

Section nesting.
Context `{F : FloatOps}.

Lemma take_rows_raise {A} (a : list A) idx e :
  take_rows a idx = Raise e → e = IndexError ∧ Exists (λ i, length a ≤ i) idx.
Proof.
  unfold take_rows. revert e. induction idx as [|i idx IH]; intros e; [done|].
  cbn [rmapM]. destruct (getitem a i) as [x|e'] eqn:Ei; cbn.
  - destruct (rmapM (getitem a) idx) as [rows|e''] eqn:Er; cbn; [done|].
    intros [= <-]. destruct (IH _ eq_refl) as [-> Hex]. split; [done|].
    by apply Exists_cons_tl.
  - intros [= <-]. unfold getitem in Ei.
    destruct (a !! i) eqn:Eai; [done|]. injection Ei as <-.
    split; [done|]. apply Exists_cons_hd. by apply lookup_ge_None.
Qed.

Lemma take_rows_compose {A} (a : list A) idx rows idx2 idx' rows2 :
  take_rows a idx = Ok rows → take_rows idx idx2 = Ok idx' →
  take_rows rows idx2 = Ok rows2 → take_rows a idx' = Ok rows2.
Proof.
  intros Ha Hi Hr. apply take_rows_ok.
  apply take_rows_ok in Hi, Hr.
  apply Forall2_same_length_lookup. split.
  { apply Forall2_length in Hi, Hr. congruence. }
  intros k i r Hk Hrk.
  destruct (Forall2_lookup_r _ _ _ _ _ Hi Hk) as (j & Hj & Hji).
  destruct (Forall2_lookup_l _ _ _ _ _ Hr Hj) as (r' & Hr' & Hjr).
  rewrite Hrk in Hr'. injection Hr' as <-.
  by rewrite <-(take_rows_lookup _ _ _ _ _ Ha Hji).
Qed.

Lemma take_columns_compose {A} (cols : list (list A)) idx cols1 idx2 idx' cols2 :
  rmapM (λ c, take_rows c idx) cols = Ok cols1 →
  take_rows idx idx2 = Ok idx' →
  rmapM (λ c, take_rows c idx2) cols1 = Ok cols2 →
  rmapM (λ c, take_rows c idx') cols = Ok cols2.
Proof.
  intros H1%rmapM_ok Hi H2%rmapM_ok. apply rmapM_ok.
  revert cols2 H2. induction H1 as [|c c1 cols cols1 Hc _ IH]; intros cols2 H2.
  - by apply Forall2_nil_inv_l in H2 as ->.
  - apply Forall2_cons_inv_l in H2 as (c2 & cols2' & Hc2 & H2 & ->).
    constructor; [by eapply take_rows_compose | by apply IH].
Qed.

(** X6 (lines 217-252). On a parent all of whose per-row attributes have [n]
    entries, a view exists exactly when every position of the index list is
    below [n]; otherwise the constructor raises [IndexError]. The view has
    one row per position of the list. *)
Theorem view_needs_rows_in_range (a : Attrs) n idx :
  rows_aligned a n →
  (is_ok (SubDataset_init a idx) ↔ Forall (λ i, i < n) idx) ∧
  (¬ Forall (λ i, i < n) idx → SubDataset_init a idx = Raise IndexError) ∧
  (∀ v, SubDataset_init a idx = Ok v →
        SubDataset_len v = length idx ∧ rows_aligned v (length idx)).
Proof.
  intros Hal.
  assert (¬ Forall (λ i, i < n) idx → SubDataset_init a idx = Raise IndexError)
    as Hbad.
  { intros Hno. destruct Hal as (Hg & _). unfold SubDataset_init.
    destruct (take_rows (genes a) idx) as [rows|e] eqn:Eg.
    - destruct Hno. apply take_rows_ok in Eg. apply Forall_forall. intros i Hi.
      apply list_elem_of_lookup in Hi as [j Hj].
      destruct (Forall2_lookup_l _ _ _ _ _ Eg Hj) as (r & _ & Hr).
      apply lookup_lt_Some in Hr. lia.
    - cbn. by apply take_rows_raise in Eg as [-> _]. }
  split; [split|split; [exact Hbad|]].
  - intros [v Hv]. destruct (decide (Forall (λ i, i < n) idx)) as [|Hno]; [done|].
    by rewrite (Hbad Hno) in Hv.
  - by apply SubDataset_init_total.
  - intros v Hv. split; [by eapply SubDataset_len_idx|].
    by eapply SubDataset_init_aligned.
Qed.

(** X7 (lines 217-252). A view taken of a view is the view of the parent
    over the composed index list: the positions the second list selects from
    the first. *)
Theorem view_of_view_is_a_view (a : Attrs) idx (v : SubDataset) idx2 (w : SubDataset) :
  SubDataset_init a idx = Ok v → SubDataset_init v idx2 = Ok w →
  ∃ idx', take_rows idx idx2 = Ok idx' ∧ SubDataset_init a idx' = Ok w.
Proof.
  intros Hv Hw.
  destruct (take_rows_total idx idx2) as [idx' Hidx'].
  { pose proof (SubDataset_len_idx _ _ _ Hv) as Hlen.
    apply SubDataset_init_inv in Hw as ((Hg & _) & _).
    apply take_rows_ok in Hg. apply Forall_forall. intros i Hi.
    apply list_elem_of_lookup in Hi as [j Hj].
    destruct (Forall2_lookup_l _ _ _ _ _ Hg Hj) as (r & _ & Hr).
    apply lookup_lt_Some in Hr. unfold SubDataset_len in Hlen. lia. }
  exists idx'. split; [done|].
  unfold SubDataset_init in Hv. do 10 inv_bind Hv. inv_ok Hv.
  unfold SubDataset_init in Hw. cbn in Hw. do 10 inv_bind Hw. inv_ok Hw.
  unfold SubDataset_init.
  repeat match goal with
  | E1 : take_rows ?col idx = Ok ?r, E2 : take_rows ?r idx2 = Ok _ |- _ =>
      rewrite (take_rows_compose _ _ _ _ _ _ E1 Hidx' E2); clear E2
  | E1 : rmapM _ ?cols = Ok ?r, E2 : rmapM _ ?r = Ok _ |- _ =>
      rewrite (take_columns_compose _ _ _ _ _ _ E1 Hidx' E2); clear E2
  end.
  done.
Qed.

Lemma select_rows_all {A} mask (a : list A) :
  Forall (λ b, b = true) mask → length mask = length a → select_rows mask a = a.
Proof.
  intros Hall. revert a. induction Hall as [|b mask -> _ IH]; intros [|x a] Hlen;
    try done.
  rewrite select_rows_cons. f_equal. apply IH. cbn in Hlen. lia.
Qed.

Lemma take_rows_all_true {A} mask (a : list A) :
  Forall (λ b, b = true) mask → length mask = length a →
  take_rows a (np_where mask) = Ok a.
Proof.
  intros Hall Hlen. rewrite take_rows_np_where by done.
  by rewrite select_rows_all.
Qed.

Lemma length_where_from_split {A} (f : A → bool) start l :
  length (where_from start (f <$> l))
  + length (where_from start ((λ x, negb (f x)) <$> l)) = length l.
Proof.
  revert start. induction l as [|x l IH]; intros start; [done|]. cbn.
  destruct (f x); cbn; rewrite <-(IH (S start)); lia.
Qed.

(** X8 (lines 254-259). On any view whose per-row attributes all have [n]
    entries, the views [subset_condition(True)] and
    [subset_condition(False)] exist and split its rows between them;
    restricting either of them again to its own flag changes nothing, and
    restricting it to the other flag leaves no row. *)
Theorem condition_views_split_the_view (v : SubDataset) n :
  rows_aligned v n →
  ∃ vt vf,
    subset_condition v (Some true) = Ok vt ∧
    subset_condition v (Some false) = Ok vf ∧
    SubDataset_len vt + SubDataset_len vf = SubDataset_len v ∧
    subset_condition vt (Some true) = Ok vt ∧
    subset_condition vf (Some false) = Ok vf ∧
    (∀ w, subset_condition vt (Some false) = Ok w → SubDataset_len w = 0) ∧
    (∀ w, subset_condition vf (Some true) = Ok w → SubDataset_len w = 0).
Proof.
  intros Hal.
  assert (length (controls v) = n) as Hc by apply Hal.
  assert (SubDataset_len v = n) as Hlenv by apply Hal.
  assert (∀ b, ∃ v', SubDataset_init v (condition_idx v b) = Ok v') as Hex.
  { intros b. apply (SubDataset_init_total v n); [done|].
    apply Forall_forall. intros i Hi%np_where_lt.
    rewrite length_fmap in Hi. lia. }
  assert (∀ b v', SubDataset_init v (condition_idx v b) = Ok v' →
            Forall (λ c, c = b) (controls v')) as Hflags.
  { intros b v' Hv'. apply SubDataset_init_inv in Hv' as ((_ & _ & Hc' & _) & _).
    apply Forall_forall. intros c Hin.
    apply list_elem_of_lookup in Hin as [j Hj].
    destruct (take_rows_lookup_r _ _ _ _ _ Hc' Hj) as (i & Hi & Hci).
    apply list_elem_of_lookup_2 in Hi. apply elem_of_np_where in Hi.
    rewrite list_lookup_fmap, Hci in Hi. injection Hi as Hi.
    by apply bool_decide_eq_true_1 in Hi. }
  assert (∀ b v', SubDataset_init v (condition_idx v b) = Ok v' →
            SubDataset_init v' (condition_idx v' b) = Ok v') as Hsame.
  { intros b v' Hv'. pose proof (Hflags _ _ Hv') as Hb.
    pose proof (SubDataset_init_aligned _ _ _ Hv') as Hal'.
    set (n' := length (condition_idx v b)) in *.
    destruct Hal' as (Hg & Hp & Hc' & Hcov & Hrest).
    destruct Hrest as (Hpn & Hd & Hcn & Hcp & Hpd & Hcpd).
    assert (∀ {A} (l : list A), length l = n' →
              take_rows l (condition_idx v' b) = Ok l) as Htake.
    { intros A l Hl. apply take_rows_all_true.
      - apply Forall_fmap. eapply Forall_impl; [exact Hb|].
        intros c ->. cbn. by apply bool_decide_eq_true_2.
      - rewrite length_fmap. congruence. }
    assert (rmapM (λ cov, take_rows cov (condition_idx v' b)) (covariates v')
            = Ok (covariates v')) as Hcovs.
    { apply rmapM_ok. clear -Hcov Htake.
      induction Hcov as [|c cs Hc _ IH]; constructor; [by apply Htake | done]. }
    unfold SubDataset_init.
    rewrite (Htake _ _ Hg), (Htake _ _ Hp), (Htake _ _ Hc'), Hcovs,
      (Htake _ _ Hpn), (Htake _ _ Hd), (Htake _ _ Hcn), (Htake _ _ Hcp),
      (Htake _ _ Hpd), (Htake _ _ Hcpd). cbn.
    unfold SubDataset_init in Hv'. do 10 inv_bind Hv'. inv_ok Hv'. done. }
  assert (∀ b v' w, SubDataset_init v (condition_idx v b) = Ok v' →
            SubDataset_init v' (condition_idx v' (negb b)) = Ok w →
            SubDataset_len w = 0) as Hnone.
  { intros b v' w Hv' Hw. pose proof (Hflags _ _ Hv') as Hb.
    rewrite (SubDataset_len_idx _ _ _ Hw).
    destruct (condition_idx v' (negb b)) as [|i l] eqn:Ei; [done|].
    assert (i ∈ condition_idx v' (negb b)) as Hi by (rewrite Ei; left).
    apply elem_of_np_where in Hi. rewrite list_lookup_fmap in Hi.
    destruct (controls v' !! i) as [c|] eqn:Eci; [|done]. injection Hi as Hi.
    apply bool_decide_eq_true_1 in Hi.
    apply list_elem_of_lookup_2 in Eci. eapply Forall_forall in Hb; [|done].
    subst c. by destruct b. }
  destruct (Hex true) as [vt Hvt]. destruct (Hex false) as [vf Hvf].
  exists vt, vf. cbn. split; [done|]. split; [done|]. split.
  { rewrite (SubDataset_len_idx _ _ _ Hvt), (SubDataset_len_idx _ _ _ Hvf),
      Hlenv, <-Hc.
    unfold condition_idx, np_where.
    assert ((λ c, bool_decide (c = false)) <$> controls v
            = (λ c, negb (bool_decide (c = true))) <$> controls v) as ->.
    { apply list_fmap_ext. by intros _ [] _. }
    apply length_where_from_split. }
  split; [by apply Hsame|]. split; [by apply Hsame|].
  split; intros w Hw; [by eapply (Hnone true) | by eapply (Hnone false)].
Qed.

End nesting.

(** ** The index catalog, [subset] and the loaders *)

Section catalog.
Context `{F : FloatOps}.
Variable train_test_split : nat → float → Z → list nat * list nat.

Lemma eq_str_lookup s (col : list cell) i :
  (eq_str s <$> col) !! i = Some true ↔ col !! i = Some (VStr s).
Proof.
  rewrite list_lookup_fmap. destruct (col !! i) as [v|]; cbn; [|done].
  destruct v; cbn; try (split; congruence).
  split.
  - intros [= H]. by apply bool_decide_eq_true_1 in H as ->.
  - intros [= ->]. by rewrite bool_decide_eq_true_2.
Qed.

Lemma elem_of_split_list s (col : list cell) i :
  i ∈ np_where (eq_str s <$> col) ↔ col !! i = Some (VStr s).
Proof. by rewrite elem_of_np_where, eq_str_lookup. Qed.

Lemma set_intersection_all a n :
  NoDup a → Forall (λ i, i < n) a → set_intersection a (seq 0 n) ≡ₚ a.
Proof.
  intros Hnd Hall. apply NoDup_Permutation; [apply NoDup_set_intersection | done|].
  intros i. rewrite elem_of_set_intersection, elem_of_seq. split; [by intros [? _]|].
  intros Hi. split; [done|]. eapply Forall_forall in Hall; [|done]. lia.
Qed.

Lemma Dataset_build_labels data keys scf cfs ds k :
  Dataset_build data keys scf cfs = Ok ds →
  is_Some (indices ds !! k) ↔ k ∈ index_labels.
Proof.
  intros H. split.
  - revert H. unfold Dataset_build, get_obs. intros H.
    destruct (obs data !! k_control keys) as [control_col|]; [cbn in H | done].
    destruct (obs data !! k_split keys) as [split_col|]; [cbn in H | done].
    destruct (obs data !! k_perturbation keys) as [pert_col|]; [cbn in H | done].
    destruct (obs data !! k_dose keys) as [dose_values|]; [cbn in H | done].
    do 3 inv_bind H.
    destruct (bool_decide (NoDup (k_covariates keys))); [cbn in H | done].
    do 4 inv_bind H. inv_ok H. cbn. unfold index_labels.
    rewrite !lookup_insert_is_Some, lookup_empty, !elem_of_cons.
    intros Hk. repeat (destruct Hk as [<-|[_ Hk]]; [auto 10|]).
    by destruct Hk.
  - destruct (Dataset_build_inv _ _ _ _ _ H) as
      (c & s & p & e & _ & _ & _ & (H1 & H2 & H3 & H4 & H5 & H6) & _).
    unfold index_labels. rewrite !elem_of_cons.
    intros [->|[->|[->|[->|[->|[->|Hk]]]]]]; try by eexists.
    by apply elem_of_nil in Hk.
Qed.

Lemma Dataset_build_in_range data keys scf cfs ds k l :
  wf_data data → Dataset_build data keys scf cfs = Ok ds →
  indices ds !! k = Some l → NoDup l ∧ Forall (λ i, i < n_obs data) l.
Proof.
  intros [Hcols _] H Hk.
  assert (k ∈ index_labels) as Hin by (eapply Dataset_build_labels; eauto).
  destruct (Dataset_build_inv _ _ _ _ _ H) as
    (c & s & p & e & (Hc & Hs & _) & _ & _ & (H1 & H2 & H3 & H4 & H5 & H6) & _).
  apply Hcols in Hc, Hs.
  assert (∀ (f : cell → bool) col, length col = n_obs data →
            NoDup (np_where (f <$> col)) ∧
            Forall (λ i, i < n_obs data) (np_where (f <$> col))) as Hw.
  { intros f col Hlen. split; [apply NoDup_np_where|].
    apply Forall_forall. intros i Hi%np_where_lt.
    rewrite length_fmap in Hi. lia. }
  unfold index_labels in Hin. rewrite !elem_of_cons in Hin.
  destruct Hin as [->|[->|[->|[->|[->|[->|Hin]]]]]];
    [| | | | | |by apply elem_of_nil in Hin];
    match goal with
    | E : indices ds !! ?lab = Some ?x |- _ =>
        rewrite Hk in E; injection E as ->
    end; try by apply Hw.
  split; [apply NoDup_seq|]. apply Forall_forall. intros i Hi%elem_of_seq. lia.
Qed.

(** X9 (lines 90-97, 204-206). On a dataset constructed from a well-formed
    table, [subset] returns a view exactly when both of its arguments are
    among the six labels of the index catalog; with any other label it
    raises [KeyError]. *)
Theorem subset_defined_on_the_six_labels
    data pk ck dk covs sk ratio seed scf cfs ds split condition :
  wf_data data →
  Dataset_init train_test_split data pk ck dk covs sk ratio seed scf cfs = Ok ds →
  (is_ok (subset ds split condition) ↔
   split ∈ index_labels ∧ condition ∈ index_labels) ∧
  (¬ (split ∈ index_labels ∧ condition ∈ index_labels) →
   subset ds split condition = Raise KeyError).
Proof.
  intros Hwf Hinit.
  destruct (Dataset_init_inv _ _ _ _ _ _ _ _ _ _ _ _ Hinit)
    as (data' & keys & Hres & Hbuild).
  destruct (resolve_fields_wf _ _ _ _ _ _ _ _ _ _ _ Hwf Hres) as [Hwf' Hn].
  pose proof (Dataset_build_aligned _ _ _ _ _ Hwf' Hbuild) as Hal.
  assert (¬ (split ∈ index_labels ∧ condition ∈ index_labels) →
          subset ds split condition = Raise KeyError) as Hbad.
  { intros Hno. unfold subset, subset_idx, lookup_key.
    destruct (indices ds !! split) as [a|] eqn:Ea; [cbn | done].
    destruct (indices ds !! condition) as [b|] eqn:Eb; [cbn | done].
    destruct Hno. split; eapply Dataset_build_labels; eauto. }
  split; [split|exact Hbad].
  - intros [v Hv].
    destruct (decide (split ∈ index_labels ∧ condition ∈ index_labels))
      as [|Hno]; [done|].
    by rewrite (Hbad Hno) in Hv.
  - intros [Hs Hc].
    apply (Dataset_build_labels _ _ _ _ _ _ Hbuild) in Hs as [a Ha].
    apply (Dataset_build_labels _ _ _ _ _ _ Hbuild) in Hc as [b Hb].
    unfold subset. rewrite (subset_idx_ok _ _ _ _ _ Ha Hb). cbn.
    apply (SubDataset_init_total _ _ _ Hal).
    destruct (Dataset_build_in_range _ _ _ _ _ _ _ Hwf' Hbuild Ha) as [_ Hlt].
    apply Forall_forall. intros i [Hi _]%elem_of_set_intersection.
    by eapply Forall_forall in Hlt.
Qed.

Lemma split_lists_apart (col : list cell) :
  NoDup (np_where (eq_str "train" <$> col) ++ np_where (eq_str "test" <$> col)
         ++ np_where (eq_str "ood" <$> col)).
Proof.
  apply NoDup_app. split; [apply NoDup_np_where|]. split.
  - intros i Htr%elem_of_split_list Hi.
    apply elem_of_app in Hi as [Hi%elem_of_split_list|Hi%elem_of_split_list];
      congruence.
  - apply NoDup_app. split; [apply NoDup_np_where|].
    split; [|apply NoDup_np_where].
    intros i Hte%elem_of_split_list Hoo%elem_of_split_list. congruence.
Qed.

Lemma split_lists_bound (col : list cell) :
  length (np_where (eq_str "train" <$> col))
  + length (np_where (eq_str "test" <$> col))
  + length (np_where (eq_str "ood" <$> col)) ≤ length col.
Proof.
  rewrite <-Nat.add_assoc, <-!length_app.
  rewrite <-(length_seq (length col) 0) at 1.
  apply submseteq_length, NoDup_submseteq; [apply split_lists_apart|].
  intros i Hi. apply elem_of_seq. split; [lia|]. cbn.
  rewrite !elem_of_app in Hi.
  destruct Hi as [Hi|[Hi|Hi]]; apply np_where_lt in Hi;
    by rewrite length_fmap in Hi.
Qed.

Lemma split_lists_cover (col : list cell) :
  Forall (λ v, v ∈ [VStr "train"; VStr "test"; VStr "ood"]) col →
  np_where (eq_str "train" <$> col) ++ np_where (eq_str "test" <$> col)
    ++ np_where (eq_str "ood" <$> col) ≡ₚ seq 0 (length col).
Proof.
  intros Hall. apply NoDup_Permutation; [apply split_lists_apart | apply NoDup_seq|].
  intros i. rewrite !elem_of_app, !elem_of_split_list, elem_of_seq. split.
  - intros [Hi|[Hi|Hi]]; apply lookup_lt_Some in Hi; lia.
  - intros [_ Hi]. destruct (lookup_lt_is_Some_2 col i Hi) as [v Hv].
    eapply Forall_forall in Hall; [|by eapply list_elem_of_lookup_2].
    rewrite !elem_of_cons in Hall.
    destruct Hall as [->|[->|[->|Hnil]]]; auto.
    by apply elem_of_nil in Hnil.
Qed.

(** X10 (lines 74-75, 94-96). When the split key is not registered as a list
    of columns, so that the split entries are those of one column, the index
    lists [train], [test] and [ood] of a constructed dataset hold the rows
    whose split entry is that very string, in ascending order; no row is in
    two of them, and a row with any other entry is in none. They cover all
    rows exactly when every entry is one of the three strings. *)
Theorem split_lists_disjoint data pk ck dk covs sk ratio seed scf cfs ds :
  wf_data data →
  (∀ l, registered data sk ≠ Some (FNames l)) →
  Dataset_init train_test_split data pk ck dk covs sk ratio seed scf cfs = Ok ds →
  ∃ split_col train test ood,
    (∃ data' keys,
       resolve_fields train_test_split data pk ck dk covs sk ratio seed
         = Ok (data', keys) ∧
       obs data' !! k_split keys = Some split_col) ∧
    (indices ds !! "train" = Some train ∧ indices ds !! "test" = Some test ∧
     indices ds !! "ood" = Some ood) ∧
    (∀ i, (i ∈ train ↔ split_col !! i = Some (VStr "train")) ∧
          (i ∈ test ↔ split_col !! i = Some (VStr "test")) ∧
          (i ∈ ood ↔ split_col !! i = Some (VStr "ood"))) ∧
    (StronglySorted lt train ∧ StronglySorted lt test ∧ StronglySorted lt ood) ∧
    NoDup (train ++ test ++ ood) ∧
    length train + length test + length ood ≤ n_obs data ∧
    (Forall (λ v, v ∈ [VStr "train"; VStr "test"; VStr "ood"]) split_col ↔
     train ++ test ++ ood ≡ₚ seq 0 (n_obs data)).
Proof.
  intros Hwf _ Hinit.
  destruct (Dataset_init_inv _ _ _ _ _ _ _ _ _ _ _ _ Hinit)
    as (data' & keys & Hres & Hbuild).
  destruct (resolve_fields_wf _ _ _ _ _ _ _ _ _ _ _ Hwf Hres) as [Hwf' Hn].
  destruct (Dataset_build_inv _ _ _ _ _ Hbuild) as
    (c & col & p & e & (_ & Hs & _) & _ & _ & (_ & _ & _ & H4 & H5 & H6) & _).
  pose proof (proj1 Hwf' _ _ Hs) as Hlen. rewrite Hn in Hlen.
  exists col, (np_where (eq_str "train" <$> col)),
    (np_where (eq_str "test" <$> col)), (np_where (eq_str "ood" <$> col)).
  split; [by exists data', keys|]. split; [done|].
  split; [intros i; by rewrite !elem_of_split_list|].
  split; [repeat split; apply where_from_sorted|].
  split; [apply split_lists_apart|].
  split; [rewrite <-Hlen; apply split_lists_bound|].
  rewrite <-Hlen. split.
  - apply split_lists_cover.
  - intros Hperm. apply Forall_forall. intros v Hv.
    apply list_elem_of_lookup in Hv as [i Hi].
    assert (i ∈ seq 0 (length col)) as Hin.
    { apply elem_of_seq. apply lookup_lt_Some in Hi. lia. }
    rewrite <-Hperm, !elem_of_app, !elem_of_split_list in Hin.
    rewrite !elem_of_cons.
    destruct Hin as [Hin|[Hin|Hin]]; rewrite Hi in Hin; injection Hin as ->; auto.
Qed.

Lemma resolve_split_automatic d ratio seed d' k :
  resolve_split train_test_split d None ratio seed = Ok (d', k) →
  k = "split" ∧
  ∃ col, obs d' !! "split" = Some col ∧ length col = n_obs d ∧
    ∀ i, i < n_obs d →
      col !! i
      = Some (VStr (if decide (i ∈ (train_test_split (n_obs d) ratio seed).2)
                    then "test" else "train")).
Proof.
  unfold resolve_split. cbn [registered mbind option_bind].
  destruct (train_test_split (n_obs d) ratio seed) as [idx_train idx_test].
  intros H. inv_ok H. split; [done|]. eexists. split; [apply lookup_insert_eq|].
  split; [by rewrite !length_assign_rows, length_replicate|].
  intros i Hi. cbn [snd].
  erewrite assign_rows_lookup; [|erewrite assign_rows_lookup;
    [reflexivity | by apply lookup_replicate_2]].
  by repeat case_decide.
Qed.

(** X11 (lines 76-86, 94-96). When the split key is [None], the constructed
    dataset has every row in exactly one of [train] and [test]: in [test]
    when the external splitter returned its label in the test part, in
    [train] otherwise, whatever the splitter returned as the train part.
    [ood] is empty. *)
Theorem automatic_split_covers_all_rows data pk ck dk covs ratio seed scf cfs ds :
  Dataset_init train_test_split data pk ck dk covs None ratio seed scf cfs = Ok ds →
  let n := n_obs data in
  let test_part := (train_test_split n ratio seed).2 in
  ∃ train test,
    (indices ds !! "train" = Some train ∧ indices ds !! "test" = Some test ∧
     indices ds !! "ood" = Some []) ∧
    (∀ i, i ∈ test ↔ i < n ∧ i ∈ test_part) ∧
    (∀ i, i ∈ train ↔ i < n ∧ i ∉ test_part) ∧
    train ++ test ≡ₚ seq 0 n.
Proof.
  intros Hinit n test_part.
  destruct (Dataset_init_inv _ _ _ _ _ _ _ _ _ _ _ _ Hinit)
    as (data' & keys & Hres & Hbuild).
  apply resolve_fields_steps in Hres as (d1 & d2 & _ & Hdose & Hcovs & Hsplit).
  apply resolve_dose_frame in Hdose as (_ & Hn1 & _).
  apply resolve_covariates_frame in Hcovs as (_ & Hn2 & _).
  apply resolve_split_automatic in Hsplit as (Hk & col & Hcol & Hlen & Hrows).
  rewrite Hn2, Hn1 in Hlen, Hrows. fold n in Hlen, Hrows. fold test_part in Hrows.
  destruct (Dataset_build_inv _ _ _ _ _ Hbuild) as
    (c & col' & p & e & (_ & Hs & _) & _ & _ & (_ & _ & _ & H4 & H5 & H6) & _).
  rewrite Hk, Hcol in Hs. injection Hs as <-.
  assert (∀ i, i ∈ np_where (eq_str "test" <$> col) ↔ i < n ∧ i ∈ test_part)
    as Hte.
  { intros i. rewrite elem_of_split_list. split.
    - intros Hi. assert (i < n) as Hlt by (apply lookup_lt_Some in Hi; lia).
      split; [done|]. rewrite (Hrows _ Hlt) in Hi. by case_decide.
    - intros [Hlt Hi]. rewrite (Hrows _ Hlt). by rewrite decide_True. }
  assert (∀ i, i ∈ np_where (eq_str "train" <$> col) ↔ i < n ∧ i ∉ test_part)
    as Htr.
  { intros i. rewrite elem_of_split_list. split.
    - intros Hi. assert (i < n) as Hlt by (apply lookup_lt_Some in Hi; lia).
      split; [done|]. rewrite (Hrows _ Hlt) in Hi. by case_decide.
    - intros [Hlt Hi]. rewrite (Hrows _ Hlt). by rewrite decide_False. }
  exists (np_where (eq_str "train" <$> col)), (np_where (eq_str "test" <$> col)).
  split; [split; [done|split; [done|]]|split; [done|split; [done|]]].
  - rewrite H6. f_equal.
    destruct (np_where (eq_str "ood" <$> col)) as [|i l] eqn:Eo; [done|].
    assert (i ∈ np_where (eq_str "ood" <$> col)) as Hi by (rewrite Eo; left).
    apply elem_of_split_list in Hi.
    assert (i < n) as Hlt by (apply lookup_lt_Some in Hi; lia).
    rewrite (Hrows _ Hlt) in Hi. by case_decide.
  - apply NoDup_Permutation; [|apply NoDup_seq|].
    + apply NoDup_app. split; [apply NoDup_np_where|].
      split; [|apply NoDup_np_where]. intros i [_ H1]%Htr [_ H2]%Hte. done.
    + intros i. rewrite elem_of_app, Htr, Hte, elem_of_seq.
      destruct (decide (i ∈ test_part)); split; intros; try lia; tauto.
Qed.

End catalog.

(** ** The loaders *)

Section loading.
Context `{F : FloatOps}.
Variable train_test_split : nat → float → Z → list nat * list nat.
Variable default_test_ratio : float.

Lemma subset_of_all (ds : Dataset) n label l :
  rows_aligned ds n → indices ds !! "all" = Some (seq 0 n) →
  indices ds !! label = Some l → NoDup l → Forall (λ i, i < n) l →
  ∃ v, subset ds label "all" = Ok v ∧ SubDataset_len v = length l.
Proof.
  intros Hal Hall Hl Hnd Hlt. unfold subset.
  rewrite (subset_idx_ok _ _ _ _ _ Hl Hall). cbn.
  pose proof (set_intersection_all _ _ Hnd Hlt) as Hperm.
  destruct (SubDataset_init_total ds n (set_intersection l (seq 0 n)) Hal)
    as [v Hv].
  { by rewrite Hperm. }
  exists v. split; [done|].
  by rewrite (SubDataset_len_idx _ _ _ Hv), Hperm.
Qed.

(** X12 (lines 288-339). When the split key is not registered as a list of
    columns: both loaders fail with the error of the constructor when it
    fails. When it succeeds on a well-formed table they succeed too: their
    views are [subset(label, "all")] for the split labels, the dataset has
    one row per row of the table, and the views together have no more rows
    than it; with the automatic split the train and test views have exactly
    its rows between them. *)
Theorem loaders_follow_the_constructor data pk ck dk covs sk scf ret :
  wf_data data →
  (∀ l, registered data sk ≠ Some (FNames l)) →
  let init := Dataset_init train_test_split data pk ck dk covs sk
                default_test_ratio 42 scf 20 in
  let splits := load_dataset_splits train_test_split default_test_ratio
                  data pk ck dk covs sk scf ret in
  let train_test := load_dataset_train_test train_test_split default_test_ratio
                      data pk ck dk covs sk scf ret in
  (∀ e, init = Raise e → splits = Raise e ∧ train_test = Raise e) ∧
  (∀ ds, init = Ok ds →
     ∃ train test ood,
       (subset ds "train" "all" = Ok train ∧ subset ds "test" "all" = Ok test ∧
        subset ds "ood" "all" = Ok ood) ∧
       splits = Ok (<["ood" := ood]> (<["test" := test]> (<["train" := train]> ∅)),
                    if ret then Some ds else None) ∧
       train_test = Ok (<["test" := test]> (<["train" := train]> ∅),
                        if ret then Some ds else None) ∧
       Dataset_len ds = n_obs data ∧
       SubDataset_len train + SubDataset_len test + SubDataset_len ood
         ≤ Dataset_len ds ∧
       (sk = None →
        SubDataset_len train + SubDataset_len test = Dataset_len ds ∧
        SubDataset_len ood = 0)).
Proof.
  intros Hwf _ init splits train_test.
  unfold splits, train_test, load_dataset_splits, load_dataset_train_test.
  fold init. split; [by intros e ->|]. intros ds Hinit. rewrite Hinit. cbn.
  destruct (Dataset_init_inv _ _ _ _ _ _ _ _ _ _ _ _ Hinit)
    as (data' & keys & Hres & Hbuild).
  destruct (resolve_fields_wf _ _ _ _ _ _ _ _ _ _ _ Hwf Hres) as [Hwf' Hn].
  pose proof (Dataset_build_aligned _ _ _ _ _ Hwf' Hbuild) as Hal.
  destruct (Dataset_build_inv _ _ _ _ _ Hbuild) as
    (c & col & p & e & (_ & Hs & _) & _ & _ & (H1 & _ & _ & H4 & H5 & H6) & _).
  pose proof (proj1 Hwf' _ _ Hs) as Hlen.
  destruct (Dataset_build_in_range _ _ _ _ _ _ _ Hwf' Hbuild H4) as [Hnd4 Hlt4].
  destruct (Dataset_build_in_range _ _ _ _ _ _ _ Hwf' Hbuild H5) as [Hnd5 Hlt5].
  destruct (Dataset_build_in_range _ _ _ _ _ _ _ Hwf' Hbuild H6) as [Hnd6 Hlt6].
  destruct (subset_of_all _ _ _ _ Hal H1 H4 Hnd4 Hlt4) as (tr & Htr & Hltr).
  destruct (subset_of_all _ _ _ _ Hal H1 H5 Hnd5 Hlt5) as (te & Hte & Hlte).
  destruct (subset_of_all _ _ _ _ Hal H1 H6 Hnd6 Hlt6) as (oo & Hoo & Hloo).
  assert (Dataset_len ds = n_obs data) as Hds.
  { unfold Dataset_len. destruct Hal as [Hg _]. congruence. }
  exists tr, te, oo. rewrite Htr, Hte, Hoo. cbn.
  split; [done|]. split; [done|]. split; [done|]. split; [done|].
  rewrite Hltr, Hlte, Hloo, Hds, <-Hn, <-Hlen. split; [apply split_lists_bound|].
  intros ->.
  apply resolve_fields_steps in Hres as (d1 & d2 & _ & _ & _ & Hsplit).
  apply resolve_split_automatic in Hsplit as (Hk & col' & Hcol & Hlen' & Hrows).
  rewrite Hk, Hcol in Hs. injection Hs as ->.
  assert (Forall (λ v, v = VStr "train" ∨ v = VStr "test") col) as Htt.
  { apply Forall_forall. intros v Hv. apply list_elem_of_lookup in Hv as [i Hi].
    rewrite Hrows in Hi by (apply lookup_lt_Some in Hi; lia).
    injection Hi as <-. case_decide; auto. }
  assert (np_where (eq_str "ood" <$> col) = []) as Hood.
  { destruct (np_where (eq_str "ood" <$> col)) as [|i l] eqn:Eo; [done|].
    assert (i ∈ np_where (eq_str "ood" <$> col)) as Hi by (rewrite Eo; left).
    apply elem_of_split_list, list_elem_of_lookup_2 in Hi.
    eapply Forall_forall in Htt; [|done]. by destruct Htt. }
  split; [|by rewrite Hood].
  rewrite <-(length_seq (length col) 0), <-(split_lists_cover col).
  - by rewrite Hood, app_nil_r, length_app.
  - eapply Forall_impl; [exact Htt|]. intros v [-> | ->]; rewrite !elem_of_cons; auto.
Qed.

End loading.

(** ** What [__getitem__] returns, and when *)

Section items.
Context `{F : FloatOps}.
Variable train_test_split : nat → float → Z → list nat * list nat.

Lemma str_app_assoc a b c : (a +:+ b) +:+ c = a +:+ b +:+ c.
Proof.
  induction a as [|x a IH]; [by rewrite !append_nil_l|].
  by rewrite !append_cons, IH.
Qed.

Lemma contains_app c p s : contains c p = true → contains c (p +:+ s) = true.
Proof.
  rewrite !contains_spec. intros (pre & post & ->).
  exists pre, (post +:+ s). by rewrite !str_app_assoc.
Qed.

Lemma length_weighted_sum n (terms : list (float * tensor)) :
  Forall (λ xt, length xt.2 = n) terms → length (weighted_sum n terms) = n.
Proof.
  intros Hall. unfold weighted_sum.
  assert (length (zeros n) = n) as Hacc by apply length_replicate.
  revert Hacc. generalize (zeros n).
  induction Hall as [|[x t] terms Ht _ IH]; intros acc Hacc; [done|].
  cbn [foldl fst snd]. apply IH. cbn in Ht. unfold tadd.
  rewrite length_zip_with, length_scale. lia.
Qed.

Lemma length_spec_encoding vocab agents xs :
  length (spec_encoding vocab agents xs) = length vocab.
Proof.
  apply length_weighted_sum, Forall_forall. intros [x t] Hin. cbn.
  apply elem_of_zip_r in Hin. cbn in Hin.
  apply list_elem_of_fmap in Hin as (a & -> & _). apply length_basis.
Qed.

Lemma choice_many_length (group : list nat) size t picks t' :
  choice_many group size t = Done picks t' → length picks = size.
Proof.
  revert t picks t'. induction size as [|size IH]; intros t picks t' H.
  - cbv [choice_many mret rand_ret] in H. by inv_ok H.
  - cbn [choice_many] in H. unfold mbind, rand_bind in H.
    destruct (choice (length group) t) as [j t1| |]; [|done..].
    unfold lift in H at 1. destruct (getitem group j) as [x|]; [|done].
    destruct (choice_many group size t1) as [xs t2| |] eqn:E; [|done..].
    cbv [mret rand_ret] in H. inv_ok H. cbn. f_equal. by eapply IH.
Qed.

Lemma getitem_done_inv (v : SubDataset) i t item t' :
  SubDataset_getitem v i t = Done item t' →
  ∃ j nm t1,
    sample_candidate v t = Done (Some j, nm) t1 ∧
    sample_cf_genes v i nm t1 = Done (it_cf_genes item) t' ∧
    return_tuple v i (it_cf_genes item) (Some j) = Ok item.
Proof.
  intros H. rewrite getitem_unfold in H.
  destruct (sample_candidate v t) as [[cf_i name] t1| |] eqn:Hs; try done.
  destruct (sample_candidate_done _ _ _ _ _ Hs) as (Hacc & j & -> & Hj & Hlt).
  destruct (sample_cf_genes v i name t1) as [cf_genes t2| |] eqn:Hg; try done.
  unfold lift in H.
  destruct (return_tuple v i cf_genes (Some j)) as [item'|] eqn:Hr; [|done].
  inv_ok H. exists j, name, t1.
  pose proof (return_tuple_inv _ _ _ _ _ Hr) as (_ & _ & _ & _ & <- & _).
  done.
Qed.

(** X13 (lines 104-106, 178-182, 264-266). On a view of a constructed
    dataset the loop never accepts a control row: the accepted row has a
    control flag other than 1, and no control name occurs in its
    perturbation name. *)
Theorem control_rows_never_accepted
    data pk ck dk covs sk ratio seed scf cfs ds idx (v : SubDataset) t c nm t' :
  wf_data data →
  Dataset_init train_test_split data pk ck dk covs sk ratio seed scf cfs = Ok ds →
  SubDataset_init ds idx = Ok v →
  sample_candidate v t = Done (c, nm) t' →
  ∃ j i p flags f,
    (c = Some j ∧ idx !! j = Some i ∧ pert_names v !! j = Some p ∧
     pert_names ds !! i = Some p) ∧
    (∃ data' keys,
       resolve_fields train_test_split data pk ck dk covs sk ratio seed
         = Ok (data', keys) ∧
       obs data' !! control_key ds = Some flags) ∧
    flags !! i = Some f ∧ eq_one f = false ∧
    ∀ cn, cn ∈ control_names ds → contains cn p = false.
Proof.
  intros Hwf Hinit Hv Hs.
  destruct (sample_candidate_done _ _ _ _ _ Hs) as (Hacc & j & -> & Hj & _).
  destruct (Dataset_init_inv _ _ _ _ _ _ _ _ _ _ _ _ Hinit)
    as (data' & keys & Hres & Hbuild).
  destruct (resolve_fields_wf _ _ _ _ _ _ _ _ _ _ _ Hwf Hres) as [Hwf' Hn].
  pose proof (Dataset_build_aligned _ _ _ _ _ Hwf' Hbuild)
    as (_ & _ & _ & _ & Hlen & _).
  destruct (Dataset_build_covs _ _ _ _ _ Hbuild) as (encs & _ & _ & _ & Hkeys).
  destruct (Dataset_build_inv _ _ _ _ _ Hbuild) as
    (flags & split_col & pert_col & encs' & (Hc & _) & (Hck & _) & _ & _ &
     (Hnames & _) & _).
  pose proof (SubDataset_init_keys _ _ _ Hkeys Hv) as Hkv.
  destruct (Hkv _ _ Hj) as (cn & p & d & (_ & Hp & _) & -> & _).
  pose proof (SubDataset_init_inv _ _ _ Hv)
    as ((_ & _ & _ & _ & Hpn & _) & _ & (_ & _ & Hcn & _) & _).
  destruct (take_rows_lookup_r _ _ _ _ _ Hpn Hp) as (i & Hi & Hpi).
  destruct (lookup_lt_is_Some_2 flags i) as [f Hf].
  { rewrite (proj1 Hwf' _ _ Hc), <-Hlen. by eapply lookup_lt_Some. }
  assert (∀ cn', cn' ∈ control_names ds → contains cn' p = false) as Hnone.
  { intros cn' Hin. destruct (contains cn' p) eqn:Ec; [|done].
    apply (contains_app _ _ ("_" +:+ py_str d)) in Ec.
    assert (rejected (control_names v) (p +:+ "_" +:+ py_str d) = true) as Hrej.
    { apply existsb_exists. exists cn'. split; [|done].
      apply list_elem_of_In. by rewrite Hcn. }
    congruence. }
  exists j, i, p, flags, f.
  split; [done|]. split; [exists data', keys; by rewrite Hck|].
  split; [done|]. split; [|done].
  destruct (eq_one f) eqn:Eone; [|done].
  assert (p ∈ control_names ds) as Hin.
  { rewrite Hnames. apply elem_of_np_unique, elem_of_select_rows. exists i.
    by rewrite list_lookup_fmap, Hf; cbn; rewrite Eone. }
  apply Hnone in Hin. by rewrite contains_refl in Hin.
Qed.

(** X14 (lines 119-137, 171, 277-283). Every encoded perturbation of a
    constructed dataset has [num_treatments] entries, and so have both
    perturbation vectors of every item a view returns; the item carries one
    covariate code per covariate key. *)
Theorem item_shapes data pk ck dk covs sk ratio seed scf cfs ds :
  Dataset_init train_test_split data pk ck dk covs sk ratio seed scf cfs = Ok ds →
  Forall (λ p, length p = num_treatments ds) (perturbations ds) ∧
  ∀ idx (v : SubDataset), SubDataset_init ds idx = Ok v →
    Forall (λ p, length p = num_treatments v) (perturbations v) ∧
    ∀ i t item t', SubDataset_getitem v i t = Done item t' →
      length (it_perturbation item) = num_treatments ds ∧
      length (it_cf_perturbation item) = num_treatments ds ∧
      length (it_covariates item) = length (covariate_keys ds).
Proof.
  intros Hinit.
  destruct (Dataset_init_inv _ _ _ _ _ _ _ _ _ _ _ _ Hinit)
    as (data' & keys & Hres & Hbuild).
  destruct (Dataset_build_covs _ _ _ _ _ Hbuild)
    as (encs & (Hck & _ & Hencs) & (Hcov & _) & _).
  destruct (Dataset_build_inv _ _ _ _ _ Hbuild) as
    (_ & _ & _ & _ & _ & _ & (Hdict & Hnt & Henc) & _).
  assert (Forall (λ p, length p = num_treatments ds) (perturbations ds)) as Hall.
  { apply Forall_forall. intros p Hp. apply list_elem_of_lookup in Hp as [i Hi].
    destruct (lookup_lt_is_Some_2 (pert_names ds) i) as [comb Hcomb].
    { rewrite <-(encode_all_length _ _ _ _ Henc). by eapply lookup_lt_Some. }
    destruct (encode_all_lookup _ _ _ _ _ _ Henc Hcomb) as (dose & p' & _ & Hp' & He).
    pose proof (eq_trans (eq_sym Hi) Hp') as [= ->]. rewrite Hdict in He.
    apply encode_sample_inv in He as (_ & xs & _ & ->).
    - by rewrite length_spec_encoding.
    - apply NoDup_dict_fromkeys.
    - apply agents_in_vocab. by eapply list_elem_of_lookup_2. }
  split; [done|]. intros idx v Hv.
  pose proof (SubDataset_init_inv _ _ _ Hv)
    as ((_ & Hp & _ & Hcovs & _) & _ & (_ & _ & _ & _ & _ & Hntv & _) & _).
  assert (Forall (λ p, length p = num_treatments ds) (perturbations v)) as Hallv.
  { apply Forall_forall. intros p Hin. apply list_elem_of_lookup in Hin as [j Hj].
    destruct (take_rows_lookup_r _ _ _ _ _ Hp Hj) as (i & _ & Hi).
    eapply Forall_forall in Hall; [done|]. by eapply list_elem_of_lookup_2. }
  split; [by rewrite Hntv|]. intros i t item t' Hget.
  destruct (getitem_done_inv _ _ _ _ _ Hget) as (j & nm & t1 & _ & _ & Hr).
  apply return_tuple_inv in Hr as (j' & [= <-] & _ & Hpi & _ & Hpj & Hc).
  split; [|split].
  - eapply Forall_forall in Hallv; [done|]. by eapply list_elem_of_lookup_2.
  - eapply Forall_forall in Hallv; [done|]. by eapply list_elem_of_lookup_2.
  - apply Forall2_length in Hc. apply rmapM_length in Hcovs, Hencs.
    rewrite <-Hc, Hcovs, Hcov, length_fmap, Hencs. by rewrite Hck.
Qed.

(** X15 (lines 261-283). With a position beyond the last row of the view,
    [__getitem__] never returns: it first runs the rejection loop, with all
    its draws, and raises [IndexError] only once the loop has accepted a
    candidate. *)
Theorem getitem_out_of_range (a : Attrs) idx (v : SubDataset) i t :
  SubDataset_init a idx = Ok v → length idx ≤ i →
  SubDataset_getitem v i t
  = match sample_candidate v t with
    | Done _ _ => Threw IndexError
    | Threw e => Threw e
    | Starved => Starved
    end.
Proof.
  intros Hv Hi. rewrite getitem_unfold.
  destruct (sample_candidate v t) as [[cf_i name] t1| |] eqn:Hs; try done.
  pose proof (SubDataset_init_aligned _ _ _ Hv) as (Hg & _ & _ & _ & _ & _ & Hcn & _).
  pose proof (SubDataset_init_inv _ _ _ Hv) as (_ & _ & _ & Hidx).
  unfold sample_cf_genes. destruct (sample_cf v) eqn:Hcf.
  - unfold mbind, rand_bind, lift.
    by rewrite (getitem_ge (cov_names v) i) by lia.
  - cbv [mret rand_ret]. unfold lift, return_tuple.
    by rewrite (getitem_ge (genes v) i) by lia.
Qed.

(** X16 (lines 261-283). On a view without counterfactual sampling, a first
    draw that lands on an acceptable row is enough: [__getitem__] returns,
    after that one draw, the responses and encoding of the requested row,
    the encoding of the drawn row, and the covariate codes of the requested
    row. *)
Theorem getitem_returns_after_one_draw (a : Attrs) idx (v : SubDataset) i r rest nm :
  SubDataset_init a idx = Ok v → sample_cf v = false →
  i < length idx → control_names v ≠ [] →
  let j := r mod length idx in
  pert_dose v !! j = Some nm → rejected (control_names v) nm = false →
  ∃ g p cfp covs,
    (genes v !! i = Some g ∧ perturbations v !! i = Some p ∧
     perturbations v !! j = Some cfp ∧
     Forall2 (λ cov c, cov !! i = Some c) (covariates v) covs) ∧
    SubDataset_getitem v i (r :: rest)
    = Done {| it_genes := g; it_perturbation := p; it_cf_genes := None;
              it_cf_perturbation := cfp; it_covariates := covs |} rest.
Proof.
  intros Hv Hcf Hi Hnames j Hj Hacc.
  pose proof (SubDataset_init_aligned _ _ _ Hv)
    as (Hg & Hp & _ & Hcov & _ & _ & _ & _ & Hpd & _).
  destruct (names_first _ Hnames) as [name0 H0].
  destruct (lookup_lt_is_Some_2 (genes v) i) as [g Hgi]; [lia|].
  destruct (lookup_lt_is_Some_2 (perturbations v) i) as [p Hpi]; [lia|].
  destruct (lookup_lt_is_Some_2 (perturbations v) j) as [cfp Hpj].
  { rewrite Hp. by apply lookup_lt_Some in Hj as Hlt; rewrite Hpd in Hlt. }
  destruct (rmapM_total (λ cov : list nat, getitem cov i) (covariates v))
    as [covs Hcovs].
  { eapply Forall_impl; [exact Hcov|]. intros cov Hl. apply getitem_lt.
    cbn in Hl. lia. }
  exists g, p, cfp, covs. split.
  { repeat split; try done. apply rmapM_ok in Hcovs.
    eapply Forall2_impl; [done|]. intros cov c Hc. by apply getitem_ok. }
  rewrite getitem_unfold, (sample_candidate_unfold _ name0) by done.
  rewrite (loop_step _ _ _ _ _ _ nm) by
    (try (by apply rejected_first); by rewrite Hpd).
  rewrite loop_accept by done. rewrite Hpd. fold j.
  unfold sample_cf_genes. rewrite Hcf. cbv [mret rand_ret].
  unfold lift, return_tuple.
  apply getitem_ok in Hgi, Hpi, Hpj. rewrite Hgi. cbn. rewrite Hpi. cbn.
  rewrite Hpj. cbn. by rewrite Hcovs.
Qed.

(** X17 (lines 173-186, 252, 268-275). With counterfactual sampling on, the
    item of a view of a constructed dataset has no counterfactual responses
    exactly when no row of the view carries the composite key built from the
    requested row's covariate name and the accepted name. When the accepted
    row has the covariate name of the requested row, that key is the
    accepted row's own: the responses are there, as many as the smaller of
    the group size and [cf_samples]. *)
Theorem counterfactual_found_for_same_covariate
    data pk ck dk covs sk ratio seed scf cfs ds idx (v : SubDataset) i t item t' :
  Dataset_init train_test_split data pk ck dk covs sk ratio seed scf cfs = Ok ds →
  SubDataset_init ds idx = Ok v → sample_cf v = true →
  SubDataset_getitem v i t = Done item t' →
  ∃ j nm t1 cn,
    sample_candidate v t = Done (Some j, nm) t1 ∧
    cov_names v !! i = Some cn ∧
    let cf_name := cn +:+ "_" +:+ nm in
    let group := positions_of cf_name (cov_pert_dose v) in
    (it_cf_genes item = None ↔ cf_name ∉ cov_pert_dose v) ∧
    (∀ rows, it_cf_genes item = Some rows →
       length rows = min (length group) (cf_samples v) ∧
       Forall (λ row, ∃ k, k ∈ group ∧ genes v !! k = Some row) rows) ∧
    (cov_names v !! j = Some cn →
       j ∈ group ∧ ∃ rows, it_cf_genes item = Some rows).
Proof.
  intros Hinit Hv Hcf Hget.
  destruct (getitem_done_inv _ _ _ _ _ Hget) as (j & nm & t1 & Hs & Hg & _).
  destruct (sample_candidate_done _ _ _ _ _ Hs) as (_ & j' & [= <-] & Hj & _).
  destruct (Dataset_init_inv _ _ _ _ _ _ _ _ _ _ _ _ Hinit)
    as (data' & keys & _ & Hbuild).
  destruct (Dataset_build_covs _ _ _ _ _ Hbuild) as (encs & _ & _ & _ & Hkeys).
  pose proof (SubDataset_init_keys _ _ _ Hkeys Hv) as Hkv.
  pose proof (SubDataset_init_inv _ _ _ Hv) as (_ & _ & (Hscf & _) & Hidx).
  rewrite <-Hscf, Hcf in Hidx.
  unfold sample_cf_genes in Hg. rewrite Hcf, Hidx in Hg.
  unfold mbind, rand_bind, lift in Hg.
  destruct (getitem (cov_names v) i) as [cn|] eqn:Ecn; [|done].
  apply getitem_ok in Ecn. exists j, nm, t1, cn.
  split; [done|]. split; [done|]. cbn zeta.
  rewrite unique_ind_lookup in Hg.
  set (cf_name := cn +:+ "_" +:+ nm) in *.
  set (group := positions_of cf_name (cov_pert_dose v)) in *.
  destruct (decide (cf_name ∈ cov_pert_dose v)) as [Hin|Hout].
  - destruct (choice_many group _ t1) as [picks t2| |] eqn:Ep; [|done..].
    destruct (take_rows (genes v) picks) as [rows|] eqn:Er; [|done].
    cbv [mret rand_ret] in Hg. injection Hg as Hitem _.
    rewrite <-Hitem. split; [split; [done|by intros []]|]. split.
    + intros rows' [= <-]. split.
      * rewrite (take_rows_length _ _ _ Er). by eapply choice_many_length.
      * apply take_rows_ok in Er. apply Forall_forall. intros row Hrow.
        apply list_elem_of_lookup in Hrow as [k Hk].
        destruct (Forall2_lookup_r _ _ _ _ _ Er Hk) as (pk' & Hpk & Hrow).
        exists pk'. split; [|done].
        clear -Ep Hpk. revert t1 picks t2 k Ep Hpk.
        induction (min (length group) (cf_samples v)) as [|size IH];
          intros t1 picks t2 k Ep Hpk.
        { cbv [choice_many mret rand_ret] in Ep. injection Ep as <- _. done. }
        cbn [choice_many] in Ep. unfold mbind, rand_bind in Ep.
        destruct (choice (length group) t1) as [c t3| |]; [|done..].
        unfold lift in Ep at 1.
        destruct (getitem group c) as [x|] eqn:Ex; [|done].
        destruct (choice_many group size t3) as [xs t4| |] eqn:E; [|done..].
        cbv [mret rand_ret] in Ep. injection Ep as <- _.
        destruct k as [|k]; cbn in Hpk.
        -- injection Hpk as <-. apply getitem_ok in Ex.
           by eapply list_elem_of_lookup_2.
        -- by eapply IH.
    + intros Hjc. split; [|by eexists].
      apply elem_of_positions_of.
      destruct (Hkv _ _ Hj) as (cn' & p & d & (Hcn' & _) & _ & _ & Hcpd).
      rewrite Hjc in Hcn'. injection Hcn' as <-. done.
  - cbv [mret rand_ret] in Hg. injection Hg as Hitem _. rewrite <-Hitem.
    split; [done|]. split; [done|]. intros Hjc. destruct Hout.
    destruct (Hkv _ _ Hj) as (cn' & p & d & (Hcn' & _) & _ & _ & Hcpd).
    rewrite Hjc in Hcn'. injection Hcn' as <-.
    by eapply list_elem_of_lookup_2.
Qed.

End items.

(** ** The vocabulary, the dummy dose and the errors of field resolution *)

Section fallbacks.
Context `{F : FloatOps}.
Variable train_test_split : nat → float → Z → list nat * list nat.

Lemma split_on_parts sep s : Forall (λ p, split_on sep p = [p]) (split_on sep s).
Proof.
  induction s as [|c s IH]; cbn; [by constructor|].
  destruct (Ascii.eqb c sep) eqn:Ec; [by constructor|].
  destruct (split_on sep s) as [|p ps]; [by constructor; cbn; rewrite ?Ec|].
  apply Forall_cons in IH as [Hp Hps]. constructor; [|done].
  cbn. by rewrite Ec, Hp.
Qed.

Lemma split_on_sep_inside sep pre post :
  2 ≤ length (split_on sep (pre +:+ String sep post)).
Proof.
  induction pre as [|c pre IH].
  - rewrite append_nil_l. cbn. rewrite Ascii.eqb_refl. cbn.
    pose proof (split_on_nonempty sep post). destruct (split_on sep post); [done|].
    cbn. lia.
  - rewrite append_cons. cbn. destruct (Ascii.eqb c sep); [cbn; lia|].
    destruct (split_on sep (pre +:+ String sep post)); cbn in *; lia.
Qed.

Lemma filter_absent (x : string) (l : list string) : x ∉ l → filter (λ y, y ≠ x) l = l.
Proof.
  induction l as [|y l IH]; intros Hx; [done|].
  apply not_elem_of_cons in Hx as [Hne Hx].
  rewrite filter_cons_True by done. f_equal. by apply IH.
Qed.

Lemma first_seen_NoDup l : NoDup l → first_seen l = l.
Proof.
  induction 1 as [|x l Hx _ IH]; [done|]. cbn. rewrite IH. f_equal.
  by apply filter_absent.
Qed.

Lemma bind_singletons {A} (f : A → list A) l :
  Forall (λ a, f a = [a]) l → l ≫= f = l.
Proof. induction 1 as [|a l Ha _ IH]; [done|]. cbn. by rewrite Ha, IH. Qed.

(** X18 (lines 198-202). No agent of the vocabulary [get_unique_perts]
    returns contains the separator: each is a single agent, and the function
    gives the vocabulary back when applied to it. *)
Theorem vocabulary_is_closed (all_perts : list string) :
  let vocab := get_unique_perts all_perts in
  Forall (λ a, split_plus a = [a]) vocab ∧
  (∀ a, a ∈ vocab → contains "+" a = false) ∧
  get_unique_perts vocab = vocab ∧
  get_unique_perts (all_perts ++ vocab) = vocab.
Proof.
  intros vocab.
  assert (Forall (λ a, split_plus a = [a]) vocab) as Hall.
  { apply Forall_forall. intros a Ha. unfold vocab, get_unique_perts in Ha.
    apply elem_of_dict_fromkeys, list_elem_of_bind in Ha as (s & Ha & _).
    pose proof (split_on_parts "+"%char s) as Hs.
    by eapply Forall_forall in Hs. }
  assert (get_unique_perts vocab = vocab) as Hfix.
  { unfold get_unique_perts at 1. rewrite bind_singletons by done.
    rewrite dict_fromkeys_first_seen. apply first_seen_NoDup.
    apply NoDup_dict_fromkeys. }
  split; [done|]. split; [|split; [done|]].
  - intros a Ha. eapply Forall_forall in Hall; [|done].
    destruct (contains "+" a) eqn:Ec; [|done].
    apply contains_spec in Ec as (pre & post & ->).
    pose proof (split_on_sep_inside "+"%char pre post) as Hlen.
    unfold split_plus in Hall. rewrite append_cons, append_nil_l in Hall.
    rewrite Hall in Hlen. cbn in Hlen. lia.
  - unfold get_unique_perts at 1. rewrite bind_app, (bind_singletons split_plus vocab) by done.
    unfold dict_fromkeys at 1. rewrite foldl_app.
    change (foldl fromkeys_step [] (all_perts ≫= split_plus)) with vocab.
    rewrite fromkeys_acc.
    assert (filter (λ y, y ∉ vocab) (first_seen vocab) = []) as ->.
    { apply elem_of_nil_inv. intros x [Hout Hin]%list_elem_of_filter.
      rewrite elem_of_first_seen in Hin. by destruct Hout. }
    by rewrite app_nil_r.
Qed.

(** X19 (lines 55-58, 128-137, 178-182). When the dose key is [None], every
    row of the constructed dataset carries the dose 1.0 of the added column:
    its [pert_dose] key ends in the printed 1.0, and its encoding weighs
    only as many leading agents of its combination as the printed 1.0 has
    parts. *)
Theorem dummy_dose_fallback data pk ck covs sk ratio seed scf cfs ds :
  Dataset_init train_test_split data pk ck None covs sk ratio seed scf cfs = Ok ds →
  dose_key ds = "dummy_dose" ∧
  doses ds = replicate (n_obs data) (VFloat fone) ∧
  (∀ i pd, pert_dose ds !! i = Some pd →
     ∃ p, pert_names ds !! i = Some p ∧ pd = p +:+ "_" +:+ str_of_float fone) ∧
  (∀ i comb, pert_names ds !! i = Some comb →
     let vocab := get_unique_perts (pert_names ds) in
     ∃ xs,
       Forall2 (λ d x, float_of_str d = Some x) (split_plus (str_of_float fone)) xs ∧
       length xs ≤ length (split_plus comb) ∧
       perturbations ds !! i = Some (spec_encoding vocab (split_plus comb) xs)).
Proof.
  intros Hinit.
  destruct (Dataset_init_inv _ _ _ _ _ _ _ _ _ _ _ _ Hinit)
    as (data' & keys & Hres & Hbuild).
  apply resolve_fields_steps in Hres as (d1 & d2 & _ & Hdose & Hcovs & Hsplit).
  unfold resolve_dose in Hdose. cbn in Hdose. injection Hdose as <- Hk.
  apply resolve_covariates_frame in Hcovs as (_ & _ & Hobs2).
  apply resolve_split_frame in Hsplit as (_ & _ & Hobs3).
  destruct (Dataset_build_covs _ _ _ _ _ Hbuild) as (encs & _ & _ & _ & Hkeys).
  destruct (Dataset_build_inv _ _ _ _ _ Hbuild) as
    (_ & _ & _ & _ & (_ & _ & _ & Hd & _) & (_ & _ & Hdk & _) &
     (Hdict & _ & Henc) & _).
  rewrite <-Hk, Hobs3, Hobs2 in Hd by done. cbn in Hd.
  rewrite lookup_insert_eq in Hd. injection Hd as Hd.
  split; [by rewrite Hdk|]. split; [done|]. split.
  - intros i pd Hpd.
    destruct (Hkeys _ _ Hpd) as (cn & p & d & (_ & Hp & Hdi) & -> & _).
    rewrite <-Hd in Hdi. apply lookup_replicate in Hdi as [-> _]. by exists p.
  - intros i comb Hcomb vocab.
    destruct (encode_all_lookup _ _ _ _ _ _ Henc Hcomb) as (dose & p & Hdi & Hp & He).
    rewrite <-Hd in Hdi. apply lookup_replicate in Hdi as [-> _].
    rewrite Hdict in He. apply encode_sample_inv in He as (Hle & xs & Hxs & ->).
    + exists xs. split; [done|]. split; [|done].
      apply Forall2_length in Hxs. cbn in Hle, Hxs. lia.
    + apply NoDup_dict_fromkeys.
    + apply agents_in_vocab. by eapply list_elem_of_lookup_2.
Qed.

Lemma resolve_required_missing role d key :
  registered d key = None → has_column d key = false →
  resolve_required role d key = Raise (missing role key).
Proof.
  intros Hreg Hcol. unfold resolve_required. rewrite Hreg.
  destruct key; by rewrite ?Hcol.
Qed.

Lemma assert_columns_first d l1 k l2 :
  Forall (λ c, has_column d (Some c) = true) l1 →
  has_column d (Some k) = false →
  assert_columns d (l1 ++ k :: l2) = Raise (missing "Covariate" (Some k)).
Proof.
  induction 1 as [|c l1 Hc _ IH]; intros Hk; cbn [app assert_columns];
    [by rewrite Hk|].
  rewrite Hc. by apply IH.
Qed.

(** X20 (lines 42-50, 68-72). A perturbation key that is neither registered
    nor a column stops the constructor with the perturbation assertion,
    whatever the other arguments are; once the perturbation key resolves,
    the same holds for the control key; and of a list of covariate keys the
    first one that is not a column is the one reported. *)
Theorem missing_fields_reported_in_order d pk ck dk covs sk ratio seed scf cfs :
  (registered d pk = None → has_column d pk = false →
   Dataset_init train_test_split d pk ck dk covs sk ratio seed scf cfs
   = Raise (missing "Perturbation" pk)) ∧
  (is_ok (resolve_perturbation d pk) →
   registered d ck = None → has_column d ck = false →
   Dataset_init train_test_split d pk ck dk covs sk ratio seed scf cfs
   = Raise (missing "Control" ck)) ∧
  (∀ d1 dose l1 k l2,
     is_ok (resolve_perturbation d pk) → is_ok (resolve_control d ck) →
     resolve_dose d dk = Ok (d1, dose) →
     Forall (λ c, has_column d1 (Some c) = true) l1 →
     has_column d1 (Some k) = false →
     Dataset_init train_test_split d pk ck dk (CovList (l1 ++ k :: l2)) sk
       ratio seed scf cfs
     = Raise (missing "Covariate" (Some k))).
Proof.
  unfold Dataset_init, resolve_fields. split; [|split].
  - intros Hreg Hcol. unfold resolve_perturbation.
    by rewrite resolve_required_missing.
  - intros [p ->] Hreg Hcol. cbn. unfold resolve_control.
    by rewrite resolve_required_missing.
  - intros d1 dose l1 k l2 [p ->] [c ->] -> Hl1 Hk. cbn.
    unfold resolve_covariates. cbn.
    rewrite bool_decide_eq_false_2 by by destruct l1.
    by rewrite assert_columns_first.
Qed.


End fallbacks.

(** ** The control flags and the control index *)

Section flags.
Context `{F : FloatOps}.
Variable train_test_split : nat → float → Z → list nat * list nat.

Lemma eq_one_truthy (v : cell) :
  (∀ x, float_eqb x fone = true → float_eqb x fzero = false) →
  eq_one v = true → truthy v = true.
Proof.
  intros Hlaw. destruct v as [s|z|b|x]; cbn; try done.
  - intros Hz%Z.eqb_eq. by subst z.
  - intros Hx. by rewrite (Hlaw _ Hx).
Qed.

(** X22 (lines 92-93, 139, 204-206, 233). The [control] index list compares
    the flag with 1 and the [controls] mask converts it to a Boolean. When
    1.0 does not compare equal to 0.0, every row of the [control] list has a
    true mask entry, every row with a false mask entry is in [treated], and
    every view [subset(split, "control")] holds rows with a true mask entry
    only. *)
Theorem control_index_within_control_mask
    data pk ck dk covs sk ratio seed scf cfs ds :
  wf_data data →
  (∀ x, float_eqb x fone = true → float_eqb x fzero = false) →
  Dataset_init train_test_split data pk ck dk covs sk ratio seed scf cfs = Ok ds →
  ∃ control treated,
    (indices ds !! "control" = Some control ∧
     indices ds !! "treated" = Some treated) ∧
    (∀ i, i ∈ control → controls ds !! i = Some true) ∧
    (∀ i, controls ds !! i = Some false → i ∈ treated) ∧
    (∀ split (v : SubDataset), subset ds split "control" = Ok v →
       Forall (λ c, c = true) (controls v)).
Proof.
  intros Hwf Hlaw Hinit.
  destruct (Dataset_init_inv _ _ _ _ _ _ _ _ _ _ _ _ Hinit)
    as (data' & keys & Hres & Hbuild).
  destruct (Dataset_build_inv _ _ _ _ _ Hbuild) as
    (flags & split_col & pert_col & encs & _ & _ & _ &
     (_ & Hctl & Htr & _) & (_ & Hmask & _) & _).
  assert (∀ i, i ∈ np_where (eq_one <$> flags) → controls ds !! i = Some true)
    as Hin.
  { intros i Hi%elem_of_np_where. rewrite list_lookup_fmap in Hi.
    rewrite Hmask, list_lookup_fmap.
    destruct (flags !! i) as [f|]; [|done]. cbn in *. injection Hi as Hi.
    by rewrite (eq_one_truthy _ Hlaw Hi). }
  exists (np_where (eq_one <$> flags)), (np_where (ne_one <$> flags)).
  split; [done|]. split; [exact Hin|]. split.
  - intros i Hi. apply elem_of_np_where. rewrite Hmask in Hi.
    rewrite list_lookup_fmap in *.
    destruct (flags !! i) as [f|]; [|done]. cbn in *. injection Hi as Hi.
    rewrite ne_one_negb. destruct (eq_one f) eqn:Eone; [|done].
    by rewrite (eq_one_truthy _ Hlaw Eone) in Hi.
  - intros split v Hv.
    destruct (subset_inv _ _ _ _ Hv) as (idx & Hidx & Hview & _).
    destruct (subset_idx_inv _ _ _ _ Hidx) as (a & b & _ & Hb & ->).
    rewrite Hctl in Hb. injection Hb as <-.
    apply SubDataset_init_inv in Hview as ((_ & _ & Hc & _) & _).
    apply Forall_forall. intros c Hcin.
    apply list_elem_of_lookup in Hcin as [j Hj].
    destruct (take_rows_lookup_r _ _ _ _ _ Hc Hj) as (i & Hi & Hci).
    apply list_elem_of_lookup_2, elem_of_set_intersection in Hi as [_ Hi].
    apply Hin in Hi. congruence.
Qed.

End flags.

(** ** The properties on the concrete tables *)

Lemma Scenario_table_wf : wf_data Scenario.table.
Proof. apply (bool_decide_unpack _). vm_compute. reflexivity. Qed.

Import IntegralFloats.

Lemma Scenario_dataset_eq :
  Dataset_init last_row_split Scenario.table (Some "perturbation")
    (Some "control") (Some "dose") (CovStr "covariates") (Some "split")
    0%Z 42%Z false 20 = Ok Scenario.dataset.
Proof. vm_cast_no_check (eq_refl (Ok Scenario.dataset)). Qed.

Lemma control_treated_partition_witness :
  ∃ control treated,
    indices Scenario.dataset !! "control" = Some control ∧
    indices Scenario.dataset !! "treated" = Some treated ∧
    control ++ treated ≡ₚ seq 0 4 ∧
    NoDup control ∧ NoDup treated.
Proof.
  destruct (control_treated_partition _ _ _ _ _ _ _ _ _ _ _ _
              Scenario_table_wf Scenario_dataset_eq)
    as (flags & all & control & treated & _ & Hall & Hc & Ht & _ & _ & _ &
        Hperm & Hndc & Hndt & _).
  exists control, treated.
  split; [exact Hc|]. split; [exact Ht|]. split; [|by split].
  rewrite Hperm. assert (Some all = Some (seq 0 4)) as [= ->]; [|done].
  by rewrite <-Hall.
Defined.

Lemma Combos_dataset_eq :
  Dataset_init last_row_split Combos.table (Some "perturbation")
    (Some "control") (Some "dose") (CovStr "batch") (Some "split")
    0%Z 42%Z false 20 = Ok Combos.dataset.
Proof. vm_cast_no_check (eq_refl (Ok Combos.dataset)). Qed.

(** The combination "drugA+drugB" at doses "1.0+2.0": weight 1 on drugA and
    weight 2 on drugB. *)
Lemma perturbation_encoding_weighted_sum_witness :
  (∃ xs,
     Forall2 (λ d x, float_of_str d = Some x) (split_plus "1.0+2.0") xs ∧
     perturbations Scenario.dataset !! 3
     = Some (spec_encoding (get_unique_perts (pert_names Scenario.dataset))
               (split_plus "drugA+drugB") xs)) ∧
  get_unique_perts (pert_names Scenario.dataset) = ["ctrl"; "drugA"; "drugB"] ∧
  perturbations Scenario.dataset !! 3 = Some [0; 1; 2]%Z.
Proof.
  split; [|split; reflexivity].
  destruct (perturbation_encoding_weighted_sum _ _ _ _ _ _ _ _ _ _ _ _
              3 "drugA+drugB" (VStr "1.0+2.0")
              Scenario_dataset_eq eq_refl eq_refl eq_refl)
    as (xs & _ & Hxs & Hpert & _).
  exists xs. split; [exact Hxs | exact Hpert].
Defined.

(** A sample with two agents and one dose part: the lengths differ, yet the
    dataset is constructed, and the second agent carries no weight. *)
Lemma mismatch_without_failure :
  pert_names Combos.dataset !! 0 = Some "A+B" ∧
  doses Combos.dataset !! 0 = Some (VStr "1.0") ∧
  length (split_plus "A+B") ≠ length (split_plus (py_str (VStr "1.0"))) ∧
  ¬ fails (Dataset_init last_row_split Combos.table (Some "perturbation")
             (Some "control") (Some "dose") (CovStr "batch") (Some "split")
             0%Z 42%Z false 20) ∧
  perturbations Combos.dataset !! 0 = Some [1; 0]%Z.
Proof.
  split; [reflexivity|]. split; [reflexivity|]. split; [by vm_compute|].
  split; [|reflexivity].
  rewrite Combos_dataset_eq. by intros [e [=]].
Qed.

Lemma combination_length_mismatch_witness :
  encode_sample (make_perts_dict ["A"]) "A" (VStr "1.0+2.0") = Raise IndexError ∧
  length (split_plus (py_str (VStr "1.0"))) ≤ length (split_plus "A+B") ∧
  ∃ xs,
    Forall2 (λ d x, float_of_str d = Some x) (split_plus (py_str (VStr "1.0"))) xs ∧
    perturbations Combos.dataset !! 0
    = Some (spec_encoding (get_unique_perts (pert_names Combos.dataset))
              (take (length xs) (split_plus "A+B")) xs).
Proof.
  destruct (combination_length_mismatch last_row_split Combos.table
              (Some "perturbation") (Some "control") (Some "dose")
              (CovStr "batch") (Some "split") 0%Z 42%Z false 20)
    as (_ & Hover & Hunder).
  split.
  - apply Hover.
    + apply NoDup_singleton.
    + by apply Forall_singleton, list_elem_of_singleton.
    + vm_compute. lia.
    + vm_compute. repeat constructor; by eexists.
  - exact (Hunder Combos.dataset 0 "A+B" (VStr "1.0")
             Combos_dataset_eq eq_refl eq_refl).
Defined.

(** Three distinct perturbation strings over two agents; "A" is mapped to
    the vector (1, 0) and "B" to the vector (0, 1). *)
Lemma num_treatments_counts_agents_witness :
  num_treatments Combos.dataset = 2 ∧
  size (list_to_set (pert_names Combos.dataset) : gset string) = 3 ∧
  num_treatments Combos.dataset
  = size (list_to_set (pert_names Combos.dataset ≫= split_plus) : gset string) ∧
  perts_dict Combos.dataset !! "A" = Some [1; 0]%Z ∧
  perts_dict Combos.dataset !! "B" = Some [0; 1]%Z ∧
  ∃ t, perts_dict Combos.dataset !! "B" = Some t ∧
       length t = 2 ∧ t !! 1 = Some 1%Z ∧ t !! 0 = Some 0%Z.
Proof.
  split; [reflexivity|]. split; [by vm_compute|].
  destruct (num_treatments_counts_agents _ _ _ _ _ _ _ _ _ _ _ _
              Combos_dataset_eq)
    as (_ & _ & _ & _ & _ & Hsize & _ & Hrows & _).
  split; [exact Hsize|]. split; [reflexivity|]. split; [reflexivity|].
  destruct (Hrows 1 "B" eq_refl) as (t & Ht & Hlen & Hone & Hzero).
  exists t. split; [exact Ht|]. split; [exact Hlen|]. split; [exact Hone|].
  apply Hzero; [by vm_compute; lia | done].
Defined.

Lemma Scenario_train_eq :
  SubDataset_init Scenario.dataset Scenario.train_idx = Ok Scenario.train_view.
Proof. vm_cast_no_check (eq_refl (Ok Scenario.train_view)). Qed.

Lemma Scenario_empty_eq :
  subset Scenario.dataset "ood" "control" = Ok Scenario.empty_view.
Proof. vm_cast_no_check (eq_refl (Ok Scenario.empty_view)). Qed.

Lemma Pairs_train_eq :
  SubDataset_init Pairs.dataset Pairs.train_idx = Ok Pairs.train_view.
Proof. vm_cast_no_check (eq_refl (Ok Pairs.train_view)). Qed.

Lemma Pairs_subset_eq :
  subset Pairs.dataset "train" "all" = Ok Pairs.train_view.
Proof. vm_cast_no_check (eq_refl (Ok Pairs.train_view)). Qed.

(** The view over the rows that are both "ood" and control has no rows; no
    row of it is acceptable, and the loop ends at once, by raising. *)
Lemma empty_view_draw_raises :
  subset Scenario.dataset "ood" "control" = Ok Scenario.empty_view ∧
  control_names Scenario.empty_view = ["ctrl"] ∧
  pert_dose Scenario.empty_view = [] ∧
  (∀ nm, nm ∈ pert_dose Scenario.empty_view →
         rejected (control_names Scenario.empty_view) nm = true) ∧
  sample_candidate Scenario.empty_view [0; 1; 2] = Threw ValueError ∧
  sample_candidate Scenario.empty_view [0; 1; 2] ≠ Starved ∧
  SubDataset_getitem Scenario.empty_view 0 [0; 1; 2] = Threw ValueError.
Proof.
  split; [exact Scenario_empty_eq|].
  split; [reflexivity|]. split; [reflexivity|]. split.
  { intros nm Hnm. vm_compute in Hnm. by apply elem_of_nil in Hnm. }
  split; [reflexivity|]. split; [by vm_compute | reflexivity].
Qed.

Lemma rejection_sampling_loop_witness :
  (sample_candidate Scenario.train_view (replicate 3 0 ++ [1])
     = Done (Some 1, "drugA_1.0") [] ∧
   sample_candidate Scenario.train_view (replicate 3 0) = Starved) ∧
  (∀ t i, sample_candidate Scenario.control_view t = Starved ∧
          SubDataset_getitem Scenario.control_view i t = Starved).
Proof.
  split.
  - destruct (rejection_sampling_loop Scenario.train_view)
      as (_ & _ & _ & _ & Hunbounded & _).
    apply (Hunbounded 0 1 "ctrl_1.0" "drugA_1.0");
      (reflexivity || by vm_compute).
  - destruct (rejection_sampling_loop Scenario.control_view)
      as (_ & _ & _ & _ & _ & Hnever & _).
    apply Hnever; try by vm_compute.
    intros nm Hnm. vm_compute in Hnm.
    by apply list_elem_of_singleton in Hnm as ->.
Defined.

Lemma candidate_sampling_not_gated_witness :
  let item := {| it_genes := [1; 2]%Z; it_perturbation := [1; 0; 0]%Z;
                 it_cf_genes := None; it_cf_perturbation := [0; 1; 0]%Z;
                 it_covariates := [0] |} in
  sample_cf Scenario.train_view = false ∧
  SubDataset_getitem Scenario.train_view 0 [0; 0; 1; 5] = Done item [5] ∧
  ∃ cf_i name,
    sample_candidate Scenario.train_view [0; 0; 1; 5] = Done (Some cf_i, name) [5] ∧
    perturbations Scenario.train_view !! cf_i = Some (it_cf_perturbation item).
Proof.
  intros item.
  assert (SubDataset_getitem Scenario.train_view 0 [0; 0; 1; 5] = Done item [5])
    as Hitem by (by vm_compute).
  split; [reflexivity|]. split; [exact Hitem|].
  destruct (candidate_sampling_not_gated Scenario.train_view 0 [0; 0; 1; 5])
    as (_ & _ & Hdone).
  destruct (Hdone item [5] Hitem)
    as (cf_i & name & t1 & Hs & _ & _ & _ & Hp & _ & _ & Hoff).
  destruct (Hoff eq_refl) as [_ <-].
  exists cf_i, name. split; [exact Hs | exact Hp].
Defined.

(** The view over rows 0, 1, 2. Rows 1 and 2 share the group
    "X_drugA_1.0"; the cap is 20. The first draw accepts row 1; both draws
    from the group pick that same row, so its response is gathered twice
    and the response of row 2 not at all. *)
Lemma same_row_drawn_twice :
  SubDataset_init Pairs.dataset [0; 1; 2] = Ok Pairs.train_view ∧
  sample_cf Pairs.train_view = true ∧
  cf_samples Pairs.train_view = 20 ∧
  genes Pairs.train_view = [[10]; [20]; [30]]%Z ∧
  pert_dose Pairs.train_view = ["ctrl_1.0"; "drugA_1.0"; "drugA_1.0"] ∧
  (cov_pert_dose_idx Pairs.train_view ≫= λ index, index !! "X_drugA_1.0")
    = Some [1; 2] ∧
  SubDataset_getitem Pairs.train_view 0 [1; 0; 0]
    = Done {| it_genes := [10]%Z; it_perturbation := [1; 0]%Z;
              it_cf_genes := Some [[20]; [20]]%Z;
              it_cf_perturbation := [0; 1]%Z; it_covariates := [0] |} [].
Proof.
  split; [exact Pairs_train_eq|].
  split; [reflexivity|]. split; [reflexivity|]. split; [reflexivity|].
  split; [reflexivity|]. split; by vm_compute.
Qed.

Lemma counterfactual_responses_witness :
  ∃ p row,
    positions_of "X_drugA_1.0" (cov_pert_dose Pairs.train_view) !! p = Some 1 ∧
    genes Pairs.train_view !! 1 = Some row ∧
    sample_cf_genes Pairs.train_view 0 "drugA_1.0" [0; 0; 7]
    = Done (Some [row; row]) [7].
Proof.
  destruct (counterfactual_responses Pairs.dataset Pairs.train_idx
              Pairs.train_view 0 "drugA_1.0" Pairs_train_eq) as [_ Hon].
  destruct (Hon eq_refl "X" eq_refl) as [_ Hin].
  destruct Hin as (_ & _ & _ & Hsame).
  { apply (list_elem_of_lookup_2 _ 1). reflexivity. }
  destruct (Hsame 0 [7]) as (p & row & Hp & Hrow & Hs).
  exists 0, row. split; [reflexivity|].
  assert (p = 1) as -> by (vm_compute in Hp; by inv_ok Hp).
  split; [exact Hrow | exact Hs].
Defined.

Lemma named_missing_dose_fails :
  uns_fields Combos.table !! "dosage" = None ∧
  obs Combos.table !! "dosage" = None ∧
  resolve_dose Combos.table (Some "dosage")
    = Raise (AssertionError "Dose dosage is missing in the provided adata") ∧
  ¬ is_ok (Dataset_init last_row_split Combos.table (Some "perturbation")
             (Some "control") (Some "dosage") (CovStr "batch") (Some "split")
             0%Z 42%Z false 20).
Proof.
  split; [reflexivity|]. split; [by vm_compute|]. split; [by vm_compute|].
  apply is_okb_false. by vm_compute.
Qed.

Lemma fallback_only_without_key_witness :
  (∃ d', resolve_dose Combos.table None = Ok (d', "dummy_dose") ∧
         obs d' !! "dummy_dose" = Some (replicate 3 (VFloat 1%Z))) ∧
  resolve_dose Combos.table (Some "dosage") = Raise (missing "Dose" (Some "dosage")) ∧
  fails (Dataset_init last_row_split Combos.table (Some "perturbation")
           (Some "control") (Some "dosage") (CovStr "batch") (Some "split")
           0%Z 42%Z false 20).
Proof.
  destruct (fallback_only_without_key last_row_split Combos.table 0%Z 42%Z)
    as ((d' & Hd & Hcol & _) & Hmissing & _ & _ & _ & Hfails).
  split; [exists d'; split; [exact Hd | exact Hcol]|].
  split; [apply Hmissing; by vm_compute | apply Hfails; by vm_compute].
Defined.


Lemma Scenario_train_aligned : rows_aligned Scenario.train_view 2.
Proof. exact (SubDataset_init_aligned _ _ _ Scenario_train_eq). Qed.

(** Of the train rows "ctrl" and "drugA", the control row alone is kept. *)
Lemma subset_condition_restricts_witness :
  subset_condition Scenario.train_view None = Ok Scenario.train_view ∧
  pert_names Scenario.train_view = ["ctrl"; "drugA"] ∧
  controls Scenario.train_view = [true; false] ∧
  ∃ v', subset_condition Scenario.train_view (Some true) = Ok v' ∧
        controls v' = [true] ∧
        pert_names v' = ["ctrl"] ∧
        genes v' = [[1; 2]]%Z ∧
        SubDataset_len v' = 1.
Proof.
  destruct (subset_condition_restricts Scenario.train_view 2
              Scenario_train_aligned) as [Hnone Hsome].
  split; [exact Hnone|]. split; [reflexivity|]. split; [reflexivity|].
  destruct (Hsome true)
    as (v' & Hv' & _ & _ & Hc & _ & Hg & _ & _ & Hpn & _ & _ & _ & _ & _ & Hlen).
  exists v'. split; [exact Hv'|].
  split; [by rewrite Hc|]. split; [by rewrite Hpn|].
  split; [by rewrite Hg | by rewrite Hlen].
Defined.

Lemma Dataset_init_aligned `{F : FloatOps} split
    data pk ck dk covs sk ratio seed scf cfs ds :
  wf_data data →
  Dataset_init split data pk ck dk covs sk ratio seed scf cfs = Ok ds →
  rows_aligned ds (n_obs data).
Proof.
  intros Hwf Hinit.
  destruct (Dataset_init_inv _ _ _ _ _ _ _ _ _ _ _ _ Hinit)
    as (data' & keys & Hres & Hbuild).
  destruct (resolve_fields_wf _ _ _ _ _ _ _ _ _ _ _ Hwf Hres) as [Hwf' <-].
  by eapply Dataset_build_aligned.
Qed.

Lemma Scenario_subset_eq :
  subset Scenario.dataset "train" "all" = Ok Scenario.train_view.
Proof. vm_cast_no_check (eq_refl (Ok Scenario.train_view)). Qed.

Lemma Pairs_dataset_eq :
  Dataset_init last_row_split Pairs.table (Some "perturbation")
    (Some "control") (Some "dose") (CovStr "cell_type") (Some "split")
    0%Z 42%Z true 20 = Ok Pairs.dataset.
Proof. vm_cast_no_check (eq_refl (Ok Pairs.dataset)). Qed.

Lemma Fallbacks_dataset_eq :
  Dataset_init last_row_split Fallbacks.table (Some "perturbation")
    (Some "control") None CovNone None 0%Z 42%Z false 20 = Ok Fallbacks.dataset.
Proof. vm_cast_no_check (eq_refl (Ok Fallbacks.dataset)). Qed.

Lemma Nested_view_eq :
  SubDataset_init Scenario.train_view [1] = Ok Nested.view.
Proof. vm_cast_no_check (eq_refl (Ok Nested.view)). Qed.

Lemma Scenario_dataset_aligned : rows_aligned Scenario.dataset 4.
Proof.
  exact (Dataset_init_aligned _ _ _ _ _ _ _ _ _ _ _ _
           Scenario_table_wf Scenario_dataset_eq).
Qed.

Lemma control_names_ascending_witness :
  control_names Scenario.dataset = ["ctrl"] ∧
  StronglySorted str_lt (control_names Scenario.dataset) ∧
  (control_names Scenario.dataset = [] ↔
   indices Scenario.dataset !! "control" = Some []).
Proof.
  destruct (control_names_ascending _ _ _ _ _ _ _ _ _ _ _ _
              Scenario_table_wf Scenario_dataset_eq)
    as (flags & _ & Hsorted & _ & _ & Hnil).
  split; [reflexivity|]. split; [exact Hsorted | exact Hnil].
Defined.

(** The cell types "X", "X", "Y", "Y" get the codes 0, 0, 1, 1. *)
Lemma covariate_codes_round_trip_witness :
  covariates Scenario.dataset = [[0; 0; 1; 1]] ∧
  ∃ values index,
    covariates Scenario.dataset !! 0 = Some index ∧
    Forall2 (λ v k, np_unique values !! k = Some v) values index.
Proof.
  split; [reflexivity|].
  destruct (covariate_codes_round_trip _ _ _ _ _ _ _ _ _ _ _ _
              Scenario_dataset_eq)
    as (data' & keys & _ & _ & _ & _ & _ & Hcodes).
  destruct (Hcodes 0 "cell_type" eq_refl)
    as (values & index & dict & (_ & Hidx & _) & _ & _ & _ & Hall).
  exists values, index. split; [exact Hidx|].
  eapply Forall2_impl; [exact Hall|]. by intros v k [Hk _].
Defined.

Lemma duplicate_covariate_keys_witness :
  Dataset_init last_row_split Combos.table (Some "perturbation")
    (Some "control") (Some "dose") (CovList ["batch"; "batch"]) (Some "split")
    0%Z 42%Z false 20 = Raise ValueError.
Proof.
  destruct (duplicate_covariate_keys last_row_split Combos.table
              (Some "perturbation") (Some "control") (Some "dose")
              ["batch"; "batch"] (Some "split") 0%Z 42%Z false 20)
    as [_ Hraise].
  { intros Hnd. apply NoDup_cons in Hnd as [Hout _]. apply Hout. left. }
  apply Hraise. apply is_okb_true. by vm_compute.
Defined.

Lemma composite_keys_row_by_row_witness :
  keys_consistent Scenario.dataset ∧ keys_consistent Scenario.train_view ∧
  cov_pert_dose Scenario.train_view = ["X_ctrl_1.0"; "X_drugA_1.0"].
Proof.
  destruct (composite_keys_row_by_row _ _ _ _ _ _ _ _ _ _ _ _
              Scenario_dataset_eq) as [Hds Hviews].
  split; [exact Hds|].
  destruct (Hviews "train" "all" Scenario.train_view Scenario_subset_eq)
    as [Hv _].
  split; [exact Hv | reflexivity].
Defined.

Lemma dummy_covariate_fallback_witness :
  cov_names Fallbacks.dataset = replicate 4 "dummy-covar" ∧
  covariates Fallbacks.dataset = [replicate 4 0] ∧
  num_covariates Fallbacks.dataset = [1].
Proof.
  destruct (dummy_covariate_fallback last_row_split Fallbacks.table
              (Some "perturbation") (Some "control") None CovNone None
              0%Z 42%Z false 20 Fallbacks.dataset eq_refl eq_refl
              Fallbacks_dataset_eq)
    as (_ & Hnames & Hcodes & Hcount & _).
  split; [exact Hnames|]. split; [exact Hcodes|].
  apply Hcount. cbn. lia.
Defined.

Lemma view_needs_rows_in_range_witness :
  SubDataset_init Scenario.dataset [0; 7] = Raise IndexError ∧
  is_ok (SubDataset_init Scenario.dataset [3; 0]).
Proof.
  split.
  - destruct (view_needs_rows_in_range Scenario.dataset 4 [0; 7]
                Scenario_dataset_aligned) as (_ & Hbad & _).
    apply Hbad. intros Hall. apply Forall_cons in Hall as [_ Hall].
    apply Forall_cons in Hall as [Hlt _]. lia.
  - destruct (view_needs_rows_in_range Scenario.dataset 4 [3; 0]
                Scenario_dataset_aligned) as ([_ Hok] & _).
    apply Hok. repeat constructor; lia.
Defined.

(** The train view holds the rows 0 and 1 of the dataset; its second row
    alone is the view of the dataset over row 1. *)
Lemma view_of_view_is_a_view_witness :
  ∃ idx', take_rows Scenario.train_idx [1] = Ok idx' ∧
          SubDataset_init Scenario.dataset idx' = Ok Nested.view.
Proof.
  exact (view_of_view_is_a_view Scenario.dataset Scenario.train_idx
           Scenario.train_view [1] Nested.view Scenario_train_eq Nested_view_eq).
Defined.

Lemma Restricted_control_eq :
  subset_condition Scenario.train_view (Some true) = Ok Restricted.control_rows.
Proof. vm_cast_no_check (eq_refl (Ok Restricted.control_rows)). Qed.

Lemma Restricted_treated_eq :
  subset_condition Scenario.train_view (Some false) = Ok Restricted.treated_rows.
Proof. vm_cast_no_check (eq_refl (Ok Restricted.treated_rows)). Qed.

(** The train rows "ctrl" and "drugA": one view each. *)
Lemma condition_views_split_the_view_witness :
  ∃ vt vf,
    subset_condition Scenario.train_view (Some true) = Ok vt ∧
    subset_condition Scenario.train_view (Some false) = Ok vf ∧
    pert_names vt = ["ctrl"] ∧ pert_names vf = ["drugA"] ∧
    SubDataset_len vt + SubDataset_len vf = 2 ∧
    subset_condition vt (Some true) = Ok vt.
Proof.
  destruct (condition_views_split_the_view Scenario.train_view 2
              Scenario_train_aligned)
    as (vt & vf & Ht & Hf & Hlen & Hsame & _).
  exists vt, vf. split; [exact Ht|]. split; [exact Hf|].
  split; [|split; [|split; [exact Hlen | exact Hsame]]].
  - rewrite Restricted_control_eq in Ht. by injection Ht as <-.
  - rewrite Restricted_treated_eq in Hf. by injection Hf as <-.
Defined.

Lemma subset_defined_on_the_six_labels_witness :
  subset Scenario.dataset "train" "validation" = Raise KeyError ∧
  is_ok (subset Scenario.dataset "test" "treated").
Proof.
  split.
  - destruct (subset_defined_on_the_six_labels _ _ _ _ _ _ _ _ _ _ _ _
                "train" "validation" Scenario_table_wf Scenario_dataset_eq)
      as [_ Hbad].
    apply Hbad. intros [_ Hin]. unfold index_labels in Hin.
    repeat (apply elem_of_cons in Hin as [Heq|Hin]; [discriminate Heq|]).
    by apply elem_of_nil in Hin.
  - destruct (subset_defined_on_the_six_labels _ _ _ _ _ _ _ _ _ _ _ _
                "test" "treated" Scenario_table_wf Scenario_dataset_eq)
      as [[_ Hok] _].
    apply Hok. unfold index_labels. rewrite !elem_of_cons. auto 10.
Defined.

Lemma split_lists_disjoint_witness :
  ∃ train test ood,
    (indices Scenario.dataset !! "train" = Some train ∧
     indices Scenario.dataset !! "test" = Some test ∧
     indices Scenario.dataset !! "ood" = Some ood) ∧
    NoDup (train ++ test ++ ood) ∧
    length train + length test + length ood ≤ 4.
Proof.
  assert (∀ l, registered Scenario.table (Some "split") ≠ Some (FNames l))
    as Hsingle by (intros l; by vm_compute).
  destruct (split_lists_disjoint _ _ _ _ _ _ _ _ _ _ _ _
              Scenario_table_wf Hsingle Scenario_dataset_eq)
    as (col & train & test & ood & _ & Hlists & _ & _ & Hnd & Hlen & _).
  exists train, test, ood. split; [exact Hlists|]. split; [exact Hnd | exact Hlen].
Defined.

(** The splitter sends row 3 to the test part. *)
Lemma automatic_split_covers_all_rows_witness :
  indices Fallbacks.dataset !! "test" = Some [3] ∧
  ∃ train test,
    indices Fallbacks.dataset !! "train" = Some train ∧
    indices Fallbacks.dataset !! "test" = Some test ∧
    indices Fallbacks.dataset !! "ood" = Some [] ∧
    train ++ test ≡ₚ seq 0 4.
Proof.
  split; [reflexivity|].
  destruct (automatic_split_covers_all_rows _ _ _ _ _ _ _ _ _ _ _
              Fallbacks_dataset_eq)
    as (train & test & (Htr & Hte & Hood) & _ & _ & Hperm).
  exists train, test. split; [exact Htr|]. split; [exact Hte|].
  split; [exact Hood | exact Hperm].
Defined.

Lemma loaders_follow_the_constructor_witness :
  ∃ train test ood,
    load_dataset_splits last_row_split 0%Z Scenario.table (Some "perturbation")
      (Some "control") (Some "dose") (CovStr "covariates") (Some "split")
      false true
    = Ok (<["ood" := ood]> (<["test" := test]> (<["train" := train]> ∅)),
          Some Scenario.dataset) ∧
    SubDataset_len train + SubDataset_len test + SubDataset_len ood
      ≤ Dataset_len Scenario.dataset.
Proof.
  assert (∀ l, registered Scenario.table (Some "split") ≠ Some (FNames l))
    as Hsingle by (intros l; by vm_compute).
  destruct (loaders_follow_the_constructor last_row_split 0%Z Scenario.table
              (Some "perturbation") (Some "control") (Some "dose")
              (CovStr "covariates") (Some "split") false true
              Scenario_table_wf Hsingle) as [_ Hok].
  destruct (Hok Scenario.dataset Scenario_dataset_eq)
    as (train & test & ood & _ & Hsplits & _ & _ & Hlen & _).
  exists train, test, ood. split; [exact Hsplits | exact Hlen].
Defined.

(** The draw 1 lands on the second row of the train view, row 1 of the
    dataset, a treated row. *)
Lemma control_rows_never_accepted_witness :
  ∃ j i p (flags : list cell) f,
    (Some 1 = Some j ∧ Scenario.train_idx !! j = Some i ∧
     pert_names Scenario.train_view !! j = Some p ∧
     pert_names Scenario.dataset !! i = Some p) ∧
    flags !! i = Some f ∧ eq_one f = false.
Proof.
  assert (sample_candidate Scenario.train_view [1]
          = Done (Some 1, "drugA_1.0") []) as Hs by (by vm_compute).
  destruct (control_rows_never_accepted _ _ _ _ _ _ _ _ _ _ _ _
              Scenario.train_idx Scenario.train_view [1] (Some 1) "drugA_1.0" []
              Scenario_table_wf Scenario_dataset_eq Scenario_train_eq Hs)
    as (j & i & p & flags & f & Hrow & _ & Hf & Hone & _).
  exists j, i, p, flags, f. split; [exact Hrow|]. split; [exact Hf | exact Hone].
Defined.

Lemma item_shapes_witness :
  num_treatments Scenario.dataset = 3 ∧
  Forall (λ p, length p = num_treatments Scenario.dataset)
    (perturbations Scenario.dataset).
Proof.
  destruct (item_shapes _ _ _ _ _ _ _ _ _ _ _ _ Scenario_dataset_eq)
    as [Hall _].
  split; [reflexivity | exact Hall].
Defined.

Lemma getitem_out_of_range_witness :
  SubDataset_getitem Scenario.train_view 5 [1] = Threw IndexError ∧
  SubDataset_getitem Scenario.train_view 5 [0; 0] = Starved.
Proof.
  assert (length Scenario.train_idx ≤ 5) as Hlen by (cbn; lia).
  split.
  - pose proof (getitem_out_of_range Scenario.dataset Scenario.train_idx
                  Scenario.train_view 5 [1] Scenario_train_eq Hlen) as Hget.
    rewrite Hget. reflexivity.
  - pose proof (getitem_out_of_range Scenario.dataset Scenario.train_idx
                  Scenario.train_view 5 [0; 0] Scenario_train_eq Hlen) as Hget.
    rewrite Hget. reflexivity.
Defined.

Lemma getitem_returns_after_one_draw_witness :
  ∃ g p cfp covs,
    SubDataset_getitem Scenario.train_view 0 [1; 5]
    = Done {| it_genes := g; it_perturbation := p; it_cf_genes := None;
              it_cf_perturbation := cfp; it_covariates := covs |} [5].
Proof.
  assert (0 < length Scenario.train_idx) as Hi by (cbn; lia).
  assert (control_names Scenario.train_view ≠ []) as Hnames by done.
  destruct (getitem_returns_after_one_draw Scenario.dataset Scenario.train_idx
              Scenario.train_view 0 1 [5] "drugA_1.0" Scenario_train_eq
              eq_refl Hi Hnames eq_refl eq_refl)
    as (g & p & cfp & covs & _ & Hget).
  exists g, p, cfp, covs. exact Hget.
Defined.

Lemma Pairs_item_eq :
  SubDataset_getitem Pairs.train_view 0 [1; 0; 0]
  = Done {| it_genes := [10]%Z; it_perturbation := [1; 0]%Z;
            it_cf_genes := Some [[20]; [20]]%Z;
            it_cf_perturbation := [0; 1]%Z; it_covariates := [0] |} [].
Proof. by vm_compute. Qed.

(** The accepted row and the requested row are both of cell type "X". *)
Lemma counterfactual_found_for_same_covariate_witness :
  ∃ j nm t1 cn,
    sample_candidate Pairs.train_view [1; 0; 0] = Done (Some j, nm) t1 ∧
    cov_names Pairs.train_view !! 0 = Some cn ∧
    (cov_names Pairs.train_view !! j = Some cn →
     j ∈ positions_of (cn +:+ "_" +:+ nm) (cov_pert_dose Pairs.train_view)).
Proof.
  destruct (counterfactual_found_for_same_covariate _ _ _ _ _ _ _ _ _ _ _ _
              Pairs.train_idx Pairs.train_view 0 [1; 0; 0] _ []
              Pairs_dataset_eq Pairs_train_eq eq_refl Pairs_item_eq)
    as (j & nm & t1 & cn & Hs & Hcn & _ & _ & Hsame).
  exists j, nm, t1, cn. split; [exact Hs|]. split; [exact Hcn|].
  intros Hj. by apply Hsame.
Defined.

(** The combination "drugA+drugB" with the dummy dose: weight 1 on drugA,
    none on drugB. *)
Lemma dummy_dose_fallback_witness :
  dose_key Fallbacks.dataset = "dummy_dose" ∧
  doses Fallbacks.dataset = replicate 4 (VFloat 1%Z) ∧
  pert_dose Fallbacks.dataset !! 3 = Some "drugA+drugB_1.0" ∧
  perturbations Fallbacks.dataset !! 3 = Some [0; 1; 0]%Z.
Proof.
  destruct (dummy_dose_fallback _ _ _ _ _ _ _ _ _ _ _ Fallbacks_dataset_eq)
    as (Hkey & Hdoses & _).
  split; [exact Hkey|]. split; [exact Hdoses|]. split; reflexivity.
Defined.

Lemma missing_fields_reported_in_order_witness :
  Dataset_init last_row_split Combos.table (Some "drug") (Some "control")
    (Some "dose") (CovStr "batch") (Some "split") 0%Z 42%Z false 20
  = Raise (AssertionError "Perturbation drug is missing in the provided adata") ∧
  Dataset_init last_row_split Combos.table (Some "perturbation") (Some "control")
    (Some "dose") (CovList ["batch"; "plate"; "well"]) (Some "split")
    0%Z 42%Z false 20
  = Raise (AssertionError "Covariate plate is missing in the provided adata").
Proof.
  split.
  - destruct (missing_fields_reported_in_order last_row_split Combos.table
                (Some "drug") (Some "control") (Some "dose") (CovStr "batch")
                (Some "split") 0%Z 42%Z false 20) as [Hpert _].
    apply Hpert; by vm_compute.
  - destruct (missing_fields_reported_in_order last_row_split Combos.table
                (Some "perturbation") (Some "control") (Some "dose")
                (CovStr "batch") (Some "split") 0%Z 42%Z false 20)
      as (_ & _ & Hcov).
    apply (Hcov Combos.table "dose" ["batch"] "plate" ["well"]).
    + by eexists.
    + by eexists.
    + reflexivity.
    + by repeat constructor.
    + by vm_compute.
Defined.


Lemma control_index_within_control_mask_witness :
  indices Scenario.dataset !! "control" = Some [0] ∧
  controls Scenario.dataset !! 0 = Some true ∧
  Forall (λ c, c = true) (controls Scenario.control_view).
Proof.
  assert (subset Scenario.dataset "all" "control" = Ok Scenario.control_view)
    as Hview by (by vm_compute).
  assert (∀ x : Z, (x =? 1)%Z = true → (x =? 0)%Z = false) as Hlaw.
  { intros x Hx%Z.eqb_eq. by subst x. }
  destruct (control_index_within_control_mask _ _ _ _ _ _ _ _ _ _ _ _
              Scenario_table_wf Hlaw Scenario_dataset_eq)
    as (control & treated & [Hc _] & Hin & _ & Hviews).
  split; [reflexivity|]. split.
  - apply Hin. assert (Some control = Some [0]) as [= ->] by (by rewrite <-Hc).
    left.
  - exact (Hviews "all" Scenario.control_view Hview).
Defined.
